(** * data-automation: a shallow embedding of the batch scripts

    The repository is a set of independent Python batch jobs:
    - [pocket_to_csv.py]: incremental export of Pocket items to a CSV file;
    - [dropbox_takeout_to_csv.py]: YouTube watch history out of a Takeout zip;
    - [pocket_tagger.py] and [untag_pocket.py]: automatic tagging and its undo;
    - [yt_history_fetch_metadata.py]: metadata lookup with a pickled cache.

    Every script is embedded as Rocq functions over an explicit model of the
    files it touches and of the replies of the remote service.  Python
    exceptions are values of [exn]; code that raises returns [Raise e]
    together with the state reached when the exception left the function.

    Python [str] values are modelled as [string]: sequences of 8-bit
    characters, compared and ordered by character code. *)

From Stdlib Require Import String Ascii List ZArith Lia DecimalString.
From stdpp Require Import gmap strings list.

Local Open Scope string_scope.
Local Open Scope list_scope.

(** ** Exceptions and results *)

Inductive exn : Type :=
| KeyError
| ValueError
| FileNotFoundError
| HTTPError
| JSONDecodeError
| CsvError
| HttpError
| TimeoutError.

Inductive result (A : Type) : Type :=
| Ok (a : A)
| Raise (e : exn).
Arguments Ok {A} a.
Arguments Raise {A} e.

Definition is_ok {A} (r : result A) : bool :=
  match r with Ok _ => true | Raise _ => false end.

(** A computation over a store [S] that may raise.  The store is returned in
    both cases: what was written before an exception stays written. *)
Definition M (S A : Type) : Type := S -> result A * S.

Definition ret {S A} (a : A) : M S A := fun s => (Ok a, s).
Definition raise {S A} (e : exn) : M S A := fun s => (Raise e, s).
Definition bind {S A B} (m : M S A) (k : A -> M S B) : M S B :=
  fun s => match m s with
           | (Ok a, s') => k a s'
           | (Raise e, s') => (Raise e, s')
           end.
Definition lift {S A} (r : result A) : M S A := fun s => (r, s).
Definition gets {S A} (f : S -> A) : M S A := fun s => (Ok (f s), s).
Definition modify {S} (f : S -> S) : M S unit := fun s => (Ok tt, f s).

Declare Scope py_scope.
Delimit Scope py_scope with py.
Notation "'do' x <- m ; k" := (bind m (fun x => k))
  (at level 10, x name, m at level 100, k at level 200) : py_scope.
Notation "'do' ' p <- m ; k" := (bind m (fun x => match x with p => k end))
  (at level 10, p pattern, m at level 100, k at level 200) : py_scope.
Notation "'exec' m ; k" := (bind m (fun _ => k))
  (at level 10, m at level 100, k at level 200) : py_scope.

(** ** Python dictionaries

    A [dict] keeps its keys in insertion order; assigning to a key that is
    present replaces the value and keeps the key's position. *)
Module PyDict.
Section Dict.
Context {K V : Type} `{EqDecision K}.

Definition t : Type := list (K * V).

(** [d.get(k)]; [None] when [d[k]] would raise [KeyError]. *)
Fixpoint get (k : K) (d : t) : option V :=
match d with
| [] => None
| (k', v) :: d' => if decide (k' = k) then Some v else get k d'
end.

(** [d[k] = v] *)
Fixpoint set (k : K) (v : V) (d : t) : t :=
match d with
| [] => [(k, v)]
| (k', v') :: d' =>
    if decide (k' = k) then (k', v) :: d' else (k', v') :: set k v d'
end.

Definition keys (d : t) : list K := map fst d.
Definition values (d : t) : list V := map snd d.

(** [dict(pairs)]: later pairs overwrite earlier ones. *)
Definition of_pairs (l : list (K * V)) : t :=
fold_left (fun d kv => set (fst kv) (snd kv) d) l [].
End Dict.
Arguments t : clear implicits.
End PyDict.

(** ** Python string operations used by the scripts *)
Module PyStr.

Definition chars : string -> list ascii := list_ascii_of_string.
Definition of_chars : list ascii -> string := string_of_list_ascii.

(** [sep.join(parts)] *)
Definition join (sep : string) (parts : list string) : string :=
  String.concat sep parts.

(** [s.startswith(p)] *)
Definition startswith (p s : string) : bool := String.prefix p s.

(** [s.endswith(p)] *)
Fixpoint endswith (p s : string) : bool :=
  if String.eqb p s then true
  else match s with
       | EmptyString => false
       | String _ s' => endswith p s'
       end.

(** [sub in s] *)
Fixpoint contains (sub s : string) : bool :=
  if String.prefix sub s then true
  else match s with
       | EmptyString => false
       | String _ s' => contains sub s'
       end.

Fixpoint drop (n : nat) (s : string) : string :=
  match n, s with
  | O, _ => s
  | S n', String _ s' => drop n' s'
  | S _, EmptyString => EmptyString
  end.

(** [s.split(sep)] for a non-empty separator, scanning left to right.
    [skip] counts the characters of a separator still to be passed over
    and [cur] holds the reversed characters of the piece being read. *)
Fixpoint split_aux (sep : string) (skip : nat) (cur : list ascii)
    (s : string) : list string :=
  match s with
  | EmptyString => [of_chars (rev cur)]
  | String c s' =>
      match skip with
      | S k => split_aux sep k cur s'
      | O =>
          if String.prefix sep s
          then of_chars (rev cur) :: split_aux sep (String.length sep - 1) [] s'
          else split_aux sep 0 (c :: cur) s'
      end
  end.

Definition split (sep s : string) : list string := split_aux sep 0 [] s.

(** [str.isspace] on one character (the Latin-1 range). *)
Definition isspace (c : ascii) : bool :=
  let n := nat_of_ascii c in
  (Nat.leb 9 n && Nat.leb n 13) || (Nat.leb 28 n && Nat.leb n 32)
  || Nat.eqb n 133 || Nat.eqb n 160.

(** [s.split()]: the maximal runs of non-space characters. *)
Fixpoint words_aux (cur : list ascii) (l : list ascii) : list string :=
  match l with
  | [] => match cur with [] => [] | _ => [of_chars (rev cur)] end
  | c :: l' =>
      if isspace c
      then match cur with
           | [] => words_aux [] l'
           | _ => of_chars (rev cur) :: words_aux [] l'
           end
      else words_aux (c :: cur) l'
  end.

Definition words (s : string) : list string := words_aux [] (chars s).

(** [s.replace('\x00', '')] *)
Definition remove_nul (s : string) : string :=
  of_chars (filter (fun c => negb (Ascii.eqb c zero)) (chars s)).

(** [str(n)] for an integer. *)
Definition of_Z (z : Z) : string := NilZero.string_of_int (Z.to_int z).

(** Insertion into a list sorted in ascending order. *)
Fixpoint insert_asc (x : string) (l : list string) : list string :=
  match l with
  | [] => [x]
  | y :: l' => if String.leb x y then x :: l else y :: insert_asc x l'
  end.

(** [sorted(l)] *)
Definition sorted (l : list string) : list string :=
  fold_right insert_asc [] l.

(** Insertion into a list sorted in descending order. *)
Fixpoint insert_desc (x : string) (l : list string) : list string :=
  match l with
  | [] => [x]
  | y :: l' => if String.leb y x then x :: l else y :: insert_desc x l'
  end.

(** [l.sort(reverse=True)] *)
Definition sort_reverse (l : list string) : list string :=
  fold_right insert_desc [] l.

(** [str.lower] on one character (the Latin-1 range). *)
Definition lower_char (c : ascii) : ascii :=
  let n := nat_of_ascii c in
  if (Nat.leb 65 n && Nat.leb n 90)
     || (Nat.leb 192 n && Nat.leb n 222 && negb (Nat.eqb n 215))
  then ascii_of_nat (n + 32)
  else c.

(** [s.lower()] *)
Definition lower (s : string) : string :=
  of_chars (map lower_char (chars s)).

End PyStr.

(** ** The [csv] module, at the level of characters

    Model of the part of CPython's [csv] module (Modules/_csv.c and
    Lib/csv.py) that [pocket_to_csv.py] drives: a [DictWriter] with
    [QUOTE_ALL], quote character and doubling of quotes, escape character
    backslash and line terminator CR LF; a [DictReader] with no escape
    character, over a file opened in text mode with universal newlines. *)
Module Csv.

Definition dquote : ascii := ascii_of_nat 34.
Definition backslash : ascii := ascii_of_nat 92.
Definition comma : ascii := ascii_of_nat 44.
Definition CR : ascii := ascii_of_nat 13.
Definition LF : ascii := ascii_of_nat 10.

(** A row dictionary.  [fields] maps column names to [str] values or to
    Python's [None] (the reader's [restval] for a short line); [rest] is
    the list the reader stores under the key [None] (its [restkey]) when
    a line has more fields than the header. *)
Record row : Type := mk_row {
  fields : PyDict.t string (option string);
  rest : option (list string)
}.

(** [rowdict[name]] *)
Definition getitem (name : string) (r : row) : result (option string) :=
  match PyDict.get name (fields r) with
  | Some v => Ok v
  | None => Raise KeyError
  end.

(** *** Writing *)

(** The characters the writer emits for the content of one field: a quote
    is doubled, the escape character is preceded by itself. *)
Fixpoint join_append_data (l : list ascii) : list ascii :=
  match l with
  | [] => []
  | c :: l' =>
      if Ascii.eqb c dquote then dquote :: dquote :: join_append_data l'
      else if Ascii.eqb c backslash
           then backslash :: backslash :: join_append_data l'
           else c :: join_append_data l'
  end.

Definition quoted (s : string) : list ascii :=
  dquote :: join_append_data (PyStr.chars s) ++ [dquote].

Fixpoint join_fields (l : list string) : list ascii :=
  match l with
  | [] => []
  | [s] => quoted s
  | s :: l' => quoted s ++ comma :: join_fields l'
  end.

(** [writer.writerow(l)] on a file opened with [newline='']. *)
Definition writerow (l : list string) : list ascii :=
  join_fields l ++ [CR; LF].

(** [DictWriter._dict_to_list]: with [extrasaction='raise'] a key that is
    not a field name is an error; a missing key is written as [restval]
    (the empty string), and so is [None]. *)
Definition dict_to_list (fieldnames : list string) (r : row)
    : result (list string) :=
  if bool_decide (rest r = None)
     && forallb (fun k => bool_decide (k ∈ fieldnames)) (PyDict.keys (fields r))
  then Ok (map (fun k => match PyDict.get k (fields r) with
                         | Some (Some s) => s
                         | _ => ""
                         end) fieldnames)
  else Raise ValueError.

(** [writer.writerows(rows)] *)
Fixpoint writerows (fieldnames : list string) (rows : list row)
    : result (list ascii) :=
  match rows with
  | [] => Ok []
  | r :: rows' =>
      match dict_to_list fieldnames r with
      | Raise e => Raise e
      | Ok l =>
          match writerows fieldnames rows' with
          | Raise e => Raise e
          | Ok out => Ok (writerow l ++ out)
          end
      end
  end.

(** [writer.writeheader()] followed by [writer.writerows(rows)]. *)
Definition write_file (fieldnames : list string) (rows : list row)
    : result string :=
  match writerows fieldnames rows with
  | Raise e => Raise e
  | Ok out => Ok (PyStr.of_chars (writerow fieldnames ++ out))
  end.

(** *** Reading *)

(** Text mode with [newline=None]: CR LF and a lone CR are both handed to
    the program as LF. *)
Fixpoint universal_newlines (after_cr : bool) (l : list ascii) : list ascii :=
  match l with
  | [] => []
  | c :: l' =>
      if Ascii.eqb c CR then LF :: universal_newlines true l'
      else if Ascii.eqb c LF
           then if after_cr then universal_newlines false l'
                else LF :: universal_newlines false l'
           else c :: universal_newlines false l'
  end.

(** Iterating over the file: lines, each with its final LF. *)
Fixpoint lines_aux (cur : list ascii) (l : list ascii) : list (list ascii) :=
  match l with
  | [] => match cur with [] => [] | _ => [rev cur] end
  | c :: l' =>
      if Ascii.eqb c LF then rev (c :: cur) :: lines_aux [] l'
      else lines_aux (c :: cur) l'
  end.

Definition readlines (text : string) : list (list ascii) :=
  lines_aux [] (universal_newlines false (PyStr.chars text)).

(** The states of the reader that can be reached without an escape
    character. *)
Inductive parser_state : Type :=
| START_RECORD | START_FIELD | IN_FIELD
| IN_QUOTED_FIELD | QUOTE_IN_QUOTED_FIELD | EAT_CRNL.

#[export] Instance parser_state_eq_dec : EqDecision parser_state.
Proof. solve_decision. Defined.

Record parser : Type := mk_parser {
  state : parser_state;
  field : list ascii;          (* the field being read, reversed *)
  done_fields : list string    (* the fields of the record, reversed *)
}.

Definition parse_reset : parser := mk_parser START_RECORD [] [].

Definition parse_save_field (p : parser) (st : parser_state) : parser :=
  mk_parser st [] (PyStr.of_chars (rev (field p)) :: done_fields p).

Definition parse_add_char (p : parser) (c : ascii) (st : parser_state)
    : parser :=
  mk_parser st (c :: field p) (done_fields p).

Definition set_state (p : parser) (st : parser_state) : parser :=
  mk_parser st (field p) (done_fields p).

Definition is_newline (c : ascii) : bool := Ascii.eqb c LF || Ascii.eqb c CR.

(** [parse_process_char] on a character of the line. *)
Definition process_char (p : parser) (c : ascii) : result parser :=
  match state p with
  | START_RECORD =>
      if is_newline c then Ok (set_state p EAT_CRNL)
      else if Ascii.eqb c dquote then Ok (set_state p IN_QUOTED_FIELD)
      else if Ascii.eqb c comma then Ok (parse_save_field p START_FIELD)
      else Ok (parse_add_char p c IN_FIELD)
  | START_FIELD =>
      if is_newline c then Ok (parse_save_field p EAT_CRNL)
      else if Ascii.eqb c dquote then Ok (set_state p IN_QUOTED_FIELD)
      else if Ascii.eqb c comma then Ok (parse_save_field p START_FIELD)
      else Ok (parse_add_char p c IN_FIELD)
  | IN_FIELD =>
      if is_newline c then Ok (parse_save_field p EAT_CRNL)
      else if Ascii.eqb c comma then Ok (parse_save_field p START_FIELD)
      else Ok (parse_add_char p c IN_FIELD)
  | IN_QUOTED_FIELD =>
      if Ascii.eqb c dquote then Ok (set_state p QUOTE_IN_QUOTED_FIELD)
      else Ok (parse_add_char p c IN_QUOTED_FIELD)
  | QUOTE_IN_QUOTED_FIELD =>
      if Ascii.eqb c dquote then Ok (parse_add_char p c IN_QUOTED_FIELD)
      else if Ascii.eqb c comma then Ok (parse_save_field p START_FIELD)
      else if is_newline c then Ok (parse_save_field p EAT_CRNL)
      else Ok (parse_add_char p c IN_FIELD)
  | EAT_CRNL =>
      if is_newline c then Ok p else Raise CsvError
  end.

(** [parse_process_char] on the end-of-line marker. *)
Definition process_eol (p : parser) : parser :=
  match state p with
  | START_RECORD => p
  | START_FIELD | IN_FIELD | QUOTE_IN_QUOTED_FIELD =>
      parse_save_field p START_RECORD
  | IN_QUOTED_FIELD => p
  | EAT_CRNL => set_state p START_RECORD
  end.

Fixpoint process_line (p : parser) (line : list ascii) : result parser :=
  match line with
  | [] => Ok (process_eol p)
  | c :: line' =>
      match process_char p c with
      | Raise e => Raise e
      | Ok p' => process_line p' line'
      end
  end.

(** All the records of the input: [Reader_iternext] called until the
    lines run out. *)
Fixpoint read_records (p : parser) (lines : list (list ascii))
    : result (list (list string)) :=
  match lines with
  | [] =>
      if negb (bool_decide (field p = [])) || bool_decide (state p = IN_QUOTED_FIELD)
      then Ok [rev (done_fields (parse_save_field p START_RECORD))]
      else Ok []
  | line :: lines' =>
      match process_line p line with
      | Raise e => Raise e
      | Ok p' =>
          if bool_decide (state p' = START_RECORD)
          then match read_records parse_reset lines' with
               | Raise e => Raise e
               | Ok recs => Ok (rev (done_fields p') :: recs)
               end
          else read_records p' lines'
      end
  end.

Definition reader (text : string) : result (list (list string)) :=
  read_records parse_reset (readlines text).

(** [dict(zip(fieldnames, record))] with the reader's treatment of short
    and long records. *)
Definition make_row (fieldnames record : list string) : row :=
  let lf := length fieldnames in
  let lr := length record in
  let d := PyDict.of_pairs (combine fieldnames (map Some record)) in
  mk_row
    (fold_left (fun d k => PyDict.set k None d) (skipn lr fieldnames) d)
    (if Nat.ltb lf lr then Some (skipn lf record) else None).

(** [csv.DictReader(f)]: the first record gives the field names, empty
    records after it are skipped. *)
Definition DictReader (text : string) : result (list row) :=
  match reader text with
  | Raise e => Raise e
  | Ok [] => Ok []
  | Ok (fieldnames :: records) =>
      Ok (map (make_row fieldnames)
            (filter (fun r => negb (bool_decide (r = []))) records))
  end.

End Csv.

(** ** Items of the Pocket API *)
Module Pocket.

(** The scalar JSON values found in an item. *)
Inductive jval : Type :=
| JStr (s : string)
| JInt (z : Z).

#[export] Instance jval_eq_dec : EqDecision jval.
Proof. solve_decision. Defined.

(** [str(v)] *)
Definition str (v : jval) : string :=
  match v with
  | JStr s => s
  | JInt z => PyStr.of_Z z
  end.

(** One item of the reply's [list]: its scalar attributes, and the keys
    of its [tags] dictionary (empty when the item has no [tags] key). *)
Record raw_item : Type := mk_item {
  attrs : PyDict.t string jval;
  tags : list string
}.

(** [item.get(key, default)] *)
Definition get (key : string) (default : jval) (item : raw_item) : jval :=
  match PyDict.get key (attrs item) with
  | Some v => v
  | None => default
  end.

End Pocket.

(** ** pocket_to_csv.py *)
Module PocketExporter.
Import Pocket.

Definition items_per_page : nat := 30.

Definition headers : list string :=
  [ "Item ID"; "Resolved ID"; "Given URL"; "Given Title"; "Favorite";
    "Status"; "Resolved Title"; "Resolved URL"; "Is Article"; "Has Video";
    "Is Index"; "Word Count"; "Listen Duration Estimate"; "Time Added";
    "Time Updated"; "Time Read"; "Time Favorited"; "Tags" ].

(** What a run reads and writes: the CSV file (its text, [None] when the
    file does not exist), the [.timestamp] file (the integer it holds) and
    the requests sent to the [get] endpoint, as pairs of the [since]
    parameter and the [offset], oldest first. *)
Record world : Type := mk_world {
  csv_file : option string;
  timestamp_file : option Z;
  requests : list (option Z * nat)
}.

Definition set_csv_file (text : string) (w : world) : world :=
  mk_world (Some text) (timestamp_file w) (requests w).
Definition set_timestamp_file (t : Z) (w : world) : world :=
  mk_world (csv_file w) (Some t) (requests w).
Definition log_request (rq : option Z * nat) (w : world) : world :=
  mk_world (csv_file w) (timestamp_file w) (requests w ++ [rq]).

Definition get_last_update_time : M world (option Z) :=
  gets timestamp_file.

Definition save_last_update_time (timestamp : Z) : M world unit :=
  modify (set_timestamp_file timestamp).

(** [{row['Item ID']: row for row in reader}] *)
Fixpoint index_rows (rows : list Csv.row)
    (d : PyDict.t (option string) Csv.row)
    : result (PyDict.t (option string) Csv.row) :=
  match rows with
  | [] => Ok d
  | r :: rows' =>
      match Csv.getitem "Item ID" r with
      | Raise e => Raise e
      | Ok k => index_rows rows' (PyDict.set k r d)
      end
  end.

Definition get_existing_items
    : M world (PyDict.t (option string) Csv.row) :=
  fun w =>
    match csv_file w with
    | None => (Ok [], w)
    | Some text =>
        match Csv.DictReader text with
        | Raise e => (Raise e, w)
        | Ok rows => (index_rows rows [], w)
        end
    end.

Definition clean_text (text : jval) : string :=
  match text with
  | JStr s => PyStr.join " " (PyStr.words (PyStr.remove_nul s))
  | _ => str text
  end.

Definition flag (key : string) (item : raw_item) : string :=
  if bool_decide (PyDict.get key (attrs item) = Some (JStr "1"))
  then "1" else "0".

Definition format_item (item : raw_item) : Csv.row :=
  let tags_string :=
    match tags item with
    | [] => ""
    | ts => PyStr.join ";" (PyStr.sorted ts)
    end in
  Csv.mk_row
    [ ("Item ID", Some (str (get "item_id" (JStr "") item)));
      ("Resolved ID", Some (str (get "resolved_id" (JStr "") item)));
      ("Given URL", Some (str (get "given_url" (JStr "") item)));
      ("Given Title", Some (clean_text (get "given_title" (JStr "") item)));
      ("Favorite", Some (flag "favorite" item));
      ("Status", Some (str (get "status" (JStr "") item)));
      ("Resolved Title",
        Some (clean_text (get "resolved_title" (JStr "") item)));
      ("Resolved URL", Some (str (get "resolved_url" (JStr "") item)));
      ("Is Article", Some (flag "is_article" item));
      ("Has Video", Some (flag "has_video" item));
      ("Is Index", Some (flag "is_index" item));
      ("Word Count", Some (str (get "word_count" (JStr "") item)));
      ("Listen Duration Estimate",
        Some (str (get "listen_duration_estimate" (JStr "") item)));
      ("Time Added", Some (str (get "time_added" (JInt 0) item)));
      ("Time Updated", Some (str (get "time_updated" (JInt 0) item)));
      ("Time Read", Some (str (get "time_read" (JStr "") item)));
      ("Time Favorited", Some (str (get "time_favorited" (JStr "") item)));
      ("Tags", Some tags_string) ]
    None.

(** The loop of [export_to_csv]:
    [for item in items: existing_items[item['Item ID']] = item]. *)
Fixpoint merge_items (existing : PyDict.t (option string) Csv.row)
    (items : list Csv.row) : result (PyDict.t (option string) Csv.row) :=
  match items with
  | [] => Ok existing
  | item :: items' =>
      match Csv.getitem "Item ID" item with
      | Raise e => Raise e
      | Ok k => merge_items (PyDict.set k item existing) items'
      end
  end.

(** The first half of [export_to_csv]: the dictionary [existing_items]
    when the loop has overlaid [items] on the rows read from the file. *)
Definition merged_items (items : list Csv.row)
    : M world (PyDict.t (option string) Csv.row) :=
  (do existing_items <- get_existing_items;
   lift (merge_items existing_items items))%py.

(** The rows go to a temporary file, which is outside this model; the CSV
    file changes only at the final [shutil.move]. *)
Definition export_to_csv (items : list Csv.row) : M world unit :=
  (do existing_items <- merged_items items;
   do text <- lift (Csv.write_file headers (PyDict.values existing_items));
   modify (set_csv_file text))%py.

Section Run.
(** The reply of the [get] endpoint to a request with the given [since]
    parameter ([None] when the request carries none) and offset: the
    values of the reply's [list], or the error of [raise_for_status]. *)
Variable api_get : option Z -> nat -> result (list raw_item).
(** [int(time.time())] when the run starts. *)
Variable current_time : Z.

Definition fetch_page (since : option Z) (offset : nat)
    : M world (list Csv.row * bool) :=
  let since_param :=
    match since with
    | Some t => if Z.eqb t 0 then None else Some t
    | None => None
    end in
  (exec modify (log_request (since_param, offset));
   do items <- lift (api_get since_param offset);
   let formatted_items := map format_item items in
   let has_more := Nat.leb items_per_page (length formatted_items) in
   ret (formatted_items, has_more))%py.

(** The [while has_more] loop; [None] when [fuel] iterations were not
    enough to leave it. *)
Fixpoint fetch_loop (fuel : nat) (since : option Z) (offset : nat)
    (all_items : list Csv.row) (w : world)
    : option (result (list Csv.row) * world) :=
  match fuel with
  | O => None
  | S fuel' =>
      match fetch_page since offset w with
      | (Raise e, w') => Some (Raise e, w')
      | (Ok (items, has_more), w') =>
          let all_items' := all_items ++ items in
          if has_more
          then fetch_loop fuel' since (offset + length items) all_items' w'
          else Some (Ok all_items', w')
      end
  end.

Definition fetch_new_items (fuel : nat) (w : world)
    : option (result (list Csv.row) * world) :=
  match get_last_update_time w with
  | (Raise e, w') => Some (Raise e, w')
  | (Ok since, w') =>
      match fetch_loop fuel since 0 [] w' with
      | None => None
      | Some (Raise e, w'') => Some (Raise e, w'')
      | Some (Ok all_items, w'') =>
          match all_items with
          | [] => Some (Ok all_items, w'')
          | _ =>
              Some ((exec save_last_update_time current_time;
                     ret all_items)%py w'')
          end
      end
  end.

(** [run]: the [except] clause prints and re-raises. *)
Definition run (fuel : nat) (w : world) : option (result unit * world) :=
  match fetch_new_items fuel w with
  | None => None
  | Some (Raise e, w') => Some (Raise e, w')
  | Some (Ok new_items, w') =>
      match new_items with
      | [] => Some (Ok tt, w')
      | _ => Some (export_to_csv new_items w')
      end
  end.
End Run.

End PocketExporter.

(** ** dropbox_takeout_to_csv.py *)
Module Takeout.

Definition extract_video_id (url : string) : string :=
  if PyStr.contains "watch?v=" url
  then hd "" (PyStr.split "&" (nth 1 (PyStr.split "watch?v=" url) ""))
  else List.last (PyStr.split "/" url) "".

Definition determine_source (url : string) : string :=
  if PyStr.contains "music.youtube.com" url then "music" else "youtube".

(** An object of the watch-history array: the two keys the script reads,
    [None] for a key that is absent. *)
Record entry : Type := mk_entry {
  titleUrl : option string;
  time : option string
}.

(** A member of a zip archive: its name, and what [json.load] returns on
    its content ([None] when the content is not JSON). *)
Record member : Type := mk_member {
  member_name : string;
  member_json : option (list entry)
}.

(** The files of a run.  [listing] holds the entries of the Dropbox
    directory in the order [glob] reports them, each with the members of
    the archive; [processed_pkl] is the pickled set of processed paths;
    [temp_extract] is the content of the [.temp_extract] directory, [None]
    when the directory does not exist; [output_csv] holds the rows of the
    output file. *)
Record fs : Type := mk_fs {
  listing : list (string * list member);
  processed_pkl : option (gset string);
  temp_extract : option (list (string * option (list entry)));
  output_csv : option (list (list string))
}.

Definition set_processed_pkl (s : gset string) (w : fs) : fs :=
  mk_fs (listing w) (Some s) (temp_extract w) (output_csv w).
Definition set_temp_extract
    (t : option (list (string * option (list entry)))) (w : fs) : fs :=
  mk_fs (listing w) (processed_pkl w) t (output_csv w).
Definition set_output_csv (rows : list (list string)) (w : fs) : fs :=
  mk_fs (listing w) (processed_pkl w) (temp_extract w) (Some rows).

(** [os.path.join(a, b)] for a relative [b]. *)
Definition path_join (a b : string) : string :=
  if String.eqb a "" then b
  else if PyStr.endswith "/" a then a ++ b
  else a ++ "/" ++ b.

(** A file name matches [takeout-*.zip]. *)
Definition matches_pattern (name : string) : bool :=
  PyStr.startswith "takeout-" name && PyStr.endswith ".zip" name.

Section Script.
(** The directory [~/Dropbox/Apps/Google Download Your Data]. *)
Variable dropbox_dir : string.

Definition glob (w : fs) : list string :=
  map (path_join dropbox_dir)
    (filter (fun name => matches_pattern name) (map fst (listing w))).

Definition find_latest_takeout (w : fs)
    : list string * gset string :=
  let takeout_files := glob w in
  let processed_files :=
    match processed_pkl w with
    | Some s => s
    | None => ∅
    end in
  (filter (fun f => f ∉ processed_files) takeout_files, processed_files).

(** [zipfile.ZipFile(zip_path, 'r')] *)
Definition open_zip (zip_path : string) (w : fs) : result (list member) :=
  match find (fun e => String.eqb (path_join dropbox_dir (fst e)) zip_path)
             (listing w) with
  | Some e => Ok (snd e)
  | None => Raise FileNotFoundError
  end.

Definition history_rows (history_data : list entry) : list (list string) :=
  flat_map (fun e =>
    match titleUrl e, time e with
    | Some url, Some t => [[t; extract_video_id url; determine_source url]]
    | _, _ => []
    end) history_data.

Definition process_youtube_history (zip_path : string) : M fs bool :=
  (do members <- (fun w => (open_zip zip_path w, w));
   match find (fun m => PyStr.endswith "watch-history.json" (member_name m))
              members with
   | None => raise FileNotFoundError
   | Some m =>
       let json_path := member_name m in
       (* os.makedirs(temp_dir, exist_ok=True); zip_ref.extract(...) *)
       exec modify (fun w =>
         set_temp_extract
           (Some (PyDict.set json_path (member_json m)
                    (default [] (temp_extract w)))) w);
       (* json.load *)
       do history_data <-
         match member_json m with
         | Some d => ret d
         | None => raise JSONDecodeError
         end;
       exec modify (set_output_csv
                      (["time"; "videoId"; "source"]
                         :: history_rows history_data));
       (* shutil.rmtree(temp_dir) *)
       exec modify (set_temp_extract None);
       ret true
   end)%py.

(** [main]: every exception is caught and printed.  The result is the
    list of archives handed to [process_youtube_history] and the files
    after the run. *)
Definition main (w : fs) : list string * fs :=
  let '(unprocessed_files, processed_files) := find_latest_takeout w in
  match PyStr.sort_reverse unprocessed_files with
  | [] => ([], w)
  | latest_file :: _ =>
      match process_youtube_history latest_file w with
      | (Ok true, w') =>
          ([latest_file],
           set_processed_pkl (processed_files ∪ {[latest_file]}) w')
      | (_, w') => ([latest_file], w')
      end
  end.
End Script.

End Takeout.

(** ** pocket_tagger.py *)
Module Tagger.
Section Regex.
(** The class [\w] of the regular-expression engine. *)
Variable is_word : ascii -> bool.

Definition word_at (c : option ascii) : bool :=
  match c with
  | Some a => is_word a
  | None => false
  end.

(** [\b] between two neighbours; [None] stands for an end of the
    text. *)
Definition boundary (before after : option ascii) : bool :=
  xorb (word_at before) (word_at after).

Fixpoint is_prefix (p l : list ascii) : bool :=
  match p, l with
  | [], _ => true
  | a :: p', b :: l' => Ascii.eqb a b && is_prefix p' l'
  | _ :: _, [] => false
  end.

(** The pattern [\b tag \b] matches at the current position, [before]
    being the character that precedes it. *)
Definition match_here (tag : list ascii) (before : option ascii)
    (text : list ascii) : bool :=
  boundary before (head text)
  && is_prefix tag text
  && boundary (match tag with [] => before | _ => last tag end)
              (head (skipn (length tag) text)).

(** [re.search]: the pattern is tried at every position, left to
    right. *)
Fixpoint search_from (tag : list ascii) (before : option ascii)
    (text : list ascii) : bool :=
  match_here tag before text
  || match text with
     | [] => false
     | c :: text' => search_from tag (Some c) text'
     end.

(** [re.search(r'\b' + re.escape(tag) + r'\b', text)] finds a match. *)
Definition re_search (tag text : string) : bool :=
  search_from (PyStr.chars tag) None (PyStr.chars text).

Definition find_matching_tags (text : string) (tags : gset string)
    : gset string :=
  set_map (String "*")
    (filter (fun tag => re_search tag text = true) tags).
End Regex.

(** [\w] on the ASCII range: letters, digits and the underscore. *)
Definition ascii_word (c : ascii) : bool :=
  let n := nat_of_ascii c in
  (Nat.leb 48 n && Nat.leb n 57) || (Nat.leb 65 n && Nat.leb n 90)
  || (Nat.leb 97 n && Nat.leb n 122) || Nat.eqb n 95.

(** The loop of [extract_article_text], with [remaining] iterations to go.
    [download attempt] is what downloading and parsing the article gives at
    that attempt: its text, or an exception.  The result is [None] when the
    function falls off the end of the loop and returns Python's [None]. *)
Fixpoint extract_attempts (download : nat -> result string)
    (max_retries remaining : nat) : option string :=
  match remaining with
  | O => None
  | S remaining' =>
      let attempt := max_retries - remaining in
      match download attempt with
      | Ok text => Some (PyStr.lower text)
      | Raise _ =>
          if Nat.eqb attempt (max_retries - 1) then Some ""
          else extract_attempts download max_retries remaining'
      end
  end.

Definition extract_article_text (download : nat -> result string)
    (max_retries : nat) : option string :=
  extract_attempts download max_retries max_retries.

End Tagger.

(** ** untag_pocket.py *)
Module Untag.
Import Pocket.

(** The two actions the script sends to the [send] endpoint. *)
Inductive action : Type :=
| tags_replace (item_id : jval) (tags : string)
| unfavorite (item_id : jval).

(** What the service answers during one iteration of the loop: the values
    of the reply to [get_favorited_items], and the status of the reply to
    [modify_items_in_bulk] if the iteration sends one. *)
Record replies : Type := mk_replies {
  get_reply : result (list raw_item);
  send_reply : result unit
}.

Inductive outcome : Type :=
| Returned
| Raised (e : exn)
| Running.

(** The body of [for item in items]. *)
Fixpoint build_actions (items : list raw_item) (actions : list action)
    : result (list action) :=
  match items with
  | [] => Ok actions
  | item :: items' =>
      match PyDict.get "item_id" (attrs item) with
      | None => Raise KeyError
      | Some item_id =>
          let new_tags :=
            filter (fun tag => negb (PyStr.startswith "*" tag)) (tags item) in
          build_actions items'
            (actions ++ [tags_replace item_id (PyStr.join "," new_tags);
                         unfavorite item_id])
      end
  end.

(** [clean_and_unfavorite_items] against a service that answers the
    successive iterations with [script]; the second component lists the
    batches of actions sent, oldest first.  [Running] means that the loop
    is still going when the script ends. *)
Fixpoint clean_and_unfavorite_items (script : list replies)
    : outcome * list (list action) :=
  match script with
  | [] => (Running, [])
  | r :: script' =>
      match get_reply r with
      | Raise e => (Raised e, [])
      | Ok [] => (Returned, [])
      | Ok items =>
          match build_actions items [] with
          | Raise e => (Raised e, [])
          | Ok [] => (Returned, [])
          | Ok actions =>
              match send_reply r with
              | Raise e => (Raised e, [actions])
              | Ok _ =>
                  let '(o, sent) := clean_and_unfavorite_items script' in
                  (o, actions :: sent)
              end
          end
      end
  end.

End Untag.

(** ** yt_history_fetch_metadata.py *)
Module YtMetadata.

(** A row of the metadata CSV, and a value of the cache. *)
Record metadata : Type := mk_metadata {
  videoId : string;
  duration : string;
  publishedAt : string;
  title : string;
  channelId : string;
  channelTitle : string;
  categoryId : string;
  definition : string;
  viewCount : string;
  likeCount : string;
  commentCount : string;
  favoriteCount : string
}.

(** An element of the [items] of a [videos().list] reply.  The fields the
    script reads with [.get] are optional. *)
Record api_item : Type := mk_api_item {
  id : string;
  contentDetails_duration : string;
  contentDetails_definition : string;
  snippet_publishedAt : string;
  snippet_title : string;
  snippet_channelId : string;
  snippet_channelTitle : string;
  snippet_categoryId : option string;
  statistics_viewCount : option string;
  statistics_likeCount : option string;
  statistics_commentCount : option string;
  statistics_favoriteCount : option string
}.

(** The fetcher's [metadata_cache] attribute and the files of a run: the
    pickled cache, the [videoId] column of the watch-history CSV ([None]
    when the file does not exist) and the rows of the metadata CSV. *)
Record state : Type := mk_state {
  metadata_cache : PyDict.t string metadata;
  cache_file : option (PyDict.t string metadata);
  input_csv : option (list string);
  output_csv : option (list metadata)
}.

Definition set_metadata_cache (c : PyDict.t string metadata) (s : state)
    : state :=
  mk_state c (cache_file s) (input_csv s) (output_csv s).
Definition set_cache_file (c : PyDict.t string metadata) (s : state)
    : state :=
  mk_state (metadata_cache s) (Some c) (input_csv s) (output_csv s).
Definition set_output_csv (rows : list metadata) (s : state) : state :=
  mk_state (metadata_cache s) (cache_file s) (input_csv s) (Some rows).

Definition to_metadata (item : api_item) : metadata :=
  mk_metadata (id item)
    (contentDetails_duration item)
    (snippet_publishedAt item)
    (snippet_title item)
    (snippet_channelId item)
    (snippet_channelTitle item)
    (default "" (snippet_categoryId item))
    (contentDetails_definition item)
    (default "0" (statistics_viewCount item))
    (default "0" (statistics_likeCount item))
    (default "0" (statistics_commentCount item))
    (default "0" (statistics_favoriteCount item)).

(** [video_ids[i:i+50] for i in range(0, len(video_ids), 50)]; [n] bounds
    the number of batches. *)
Fixpoint batches (n : nat) (video_ids : list string) : list (list string) :=
  match n, video_ids with
  | S n', _ :: _ => firstn 50 video_ids :: batches n' (skipn 50 video_ids)
  | _, _ => []
  end.

Section Api.
(** What [videos().list(id=','.join(batch)).execute()] gives: the [items]
    of the reply, or the exception it raises, which is the API client's
    [HttpError] or another one (a transport error such as
    [TimeoutError]). *)
Variable videos_list : list string -> result (list api_item).

(** The inner [for item in response.get('items', [])]. *)
Fixpoint store_items (items : list api_item) (results : list metadata)
    (cache : PyDict.t string metadata)
    : list metadata * PyDict.t string metadata :=
  match items with
  | [] => (results, cache)
  | item :: items' =>
      let metadata := to_metadata item in
      store_items items' (results ++ [metadata])
        (PyDict.set (id item) metadata cache)
  end.

(** The outer loop over the batches.  [except HttpError] skips the batch;
    any other exception leaves the loop and the function, the cache
    keeping what the earlier batches stored in it. *)
Fixpoint fetch_batches (bs : list (list string)) (results : list metadata)
    (cache : PyDict.t string metadata)
    : result (list metadata) * PyDict.t string metadata :=
  match bs with
  | [] => (Ok results, cache)
  | batch :: bs' =>
      match videos_list batch with
      | Ok items =>
          let '(results', cache') := store_items items results cache in
          fetch_batches bs' results' cache'
      | Raise HttpError => fetch_batches bs' results cache
      | Raise e => (Raise e, cache)
      end
  end.

Definition _get_video_metadata (video_ids : list string)
    : M state (list metadata) :=
  fun s =>
    let '(r, cache) :=
      fetch_batches (batches (length video_ids) video_ids) []
        (metadata_cache s) in
    (r, set_metadata_cache cache s).

(** The videos that need metadata. *)
Definition new_videos (s : state) (history : list string) : gset string :=
  let existing_metadata : gset string :=
    match output_csv s with
    | Some rows => list_to_set (map videoId rows)
    | None => ∅
    end in
  let video_ids : gset string := list_to_set history in
  video_ids ∖ existing_metadata
    ∖ list_to_set (PyDict.keys (metadata_cache s)).

(** [process_history].  The order in which [list(new_videos)] lists a
    set is that of [elements].  Selecting the twelve columns of a data
    frame built from an empty list raises [KeyError]. *)
Definition process_history : M state unit :=
  (do history <- (fun s => (match input_csv s with
                            | Some col => Ok col
                            | None => Raise FileNotFoundError
                            end, s));
   do new <- gets (fun s => new_videos s history);
   if bool_decide (new = ∅) then ret tt
   else
     do new_metadata <- _get_video_metadata (elements new);
     do all_metadata <- gets (fun s => PyDict.values (metadata_cache s));
     match all_metadata with
     | [] => raise KeyError
     | _ =>
         exec modify (set_output_csv all_metadata);
         (* self._save_cache() *)
         modify (fun s => set_cache_file (metadata_cache s) s)
     end)%py.
End Api.

End YtMetadata.

(** * The vocabulary of the statements *)

(** A dictionary whose values carry their own key: the value stored under
    [k] has [key v = Some k]. *)
Definition keyed {K V : Type} (key : V -> option K) (d : list (K * V)) : Prop :=
  Forall (fun kv => key (snd kv) = Some (fst kv)) d.

(** ** The CSV store of the Pocket exporter *)

(** The key of a row: the value of its [Item ID] column, [None] when the
    row has no such column. *)
Definition key_of (r : Csv.row) : option (option string) :=
  PyDict.get "Item ID" (Csv.fields r).

(** The CSV file holds the serialisation of [rows] under the header. *)
Definition stored (w : PocketExporter.world) (rows : list Csv.row) : Prop :=
  exists text,
    PocketExporter.csv_file w = Some text
    /\ Csv.write_file PocketExporter.headers rows = Ok text.

(** A dictionary of rows as [export_to_csv] builds it: the keys are
    distinct and each row sits under its own key. *)
Definition row_dict (d : list (option string * Csv.row)) : Prop :=
  keyed key_of d /\ NoDup (PyDict.keys d).

(** The last record of a batch that has the key [k]. *)
Definition last_with_key (k : option string) (items : list Csv.row)
    : option Csv.row :=
  List.find (fun r => bool_decide (key_of r = Some k)) (rev items).

(** The [since] parameter of the requests of a run that finds [t] in the
    timestamp file. *)
Definition since_param (t : option Z) : option Z :=
  match t with
  | Some z => if Z.eqb z 0 then None else Some z
  | None => None
  end.

(** The requests that fetch [pages] one after the other, the offset growing
    by the size of each page received. *)
Fixpoint page_requests (since : option Z) (offset : nat)
    (pages : list (list Pocket.raw_item)) : list (option Z * nat) :=
  match pages with
  | [] => []
  | p :: pages' =>
      (since, offset) :: page_requests since (offset + length p) pages'
  end.

(** ** Sorting *)

(** The first element of a list is greater than or equal to the others. *)
Definition head_max (l : list string) : Prop :=
  match l with
  | [] => True
  | m :: _ => Forall (fun y => String.leb y m = true) l
  end.

(** ** Whole words *)

(** The character before a position that follows [pre], when [before]
    precedes [pre]. *)
Definition last_or (before : option ascii) (pre : list ascii) : option ascii :=
  match pre with
  | [] => before
  | _ => last pre
  end.

(** [tag] occurs in [text] as a whole word: some occurrence has no word
    character next to it, on either side. *)
Definition whole_word (is_word : ascii -> bool) (tag text : string) : Prop :=
  exists pre post,
    PyStr.chars text = pre ++ PyStr.chars tag ++ post
    /\ Tagger.word_at is_word (last pre) = false
    /\ Tagger.word_at is_word (head post) = false.

(** [tag] is not empty and its first and last characters are word
    characters. *)
Definition word_edges (is_word : ascii -> bool) (tag : string) : Prop :=
  Tagger.word_at is_word (head (PyStr.chars tag)) = true
  /\ Tagger.word_at is_word (last (PyStr.chars tag)) = true.

(** ** The cleanup pass *)

(** A tag carries the sentinel when its first character is the star. *)
Definition carries_sentinel (tag : string) : bool :=
  match tag with
  | String c _ => Ascii.eqb c "*"
  | EmptyString => false
  end.

(** The two actions the cleanup owes to a record: its tags without those
    that carry the sentinel, and the favorited marker cleared. *)
Definition cleanup_actions (item : Pocket.raw_item) : list Untag.action :=
  match PyDict.get "item_id" (Pocket.attrs item) with
  | Some item_id =>
      [ Untag.tags_replace item_id
          (PyStr.join ","
             (filter (fun tag => carries_sentinel tag = false)
                (Pocket.tags item)));
        Untag.unfavorite item_id ]
  | None => []
  end.

(** The script of a service that answers the successive fetches with
    [pages] and accepts every batch. *)
Definition serve (pages : list (list Pocket.raw_item)) : list Untag.replies :=
  (fun page => Untag.mk_replies (Ok page) (Ok tt)) <$> pages.

(** ** The metadata cache *)

(** Every value of the cache sits under its own [videoId], which is how
    [_get_video_metadata] stores it. *)
Definition cache_wf (cache : list (string * YtMetadata.metadata)) : Prop :=
  keyed (fun m => Some (YtMetadata.videoId m)) cache.

(** The list is in ascending order: every element is below the ones that
    follow it. *)
Inductive ascending : list string -> Prop :=
| ascending_nil : ascending []
| ascending_cons x l :
    Forall (fun y => String.leb x y = true) l -> ascending l ->
    ascending (x :: l).

(** A word: a string that is not empty and holds neither a white-space
    character nor the null character. *)
Definition is_word_string (s : string) : Prop :=
  s <> "" /\
  Forall (fun c => PyStr.isspace c = false /\ c <> zero) (PyStr.chars s).

(** ** Reading back what the writer wrote *)

(** A value the reader gives back as the writer got it: it holds neither a
    carriage return nor a backslash. *)
Definition plain (s : string) : Prop :=
  (Csv.CR ∉ PyStr.chars s) /\ (Csv.backslash ∉ PyStr.chars s).

(** A row with exactly the columns [fieldnames], in their order, each with
    a plain [str] value. *)
Definition plain_row (fieldnames : list string) (r : Csv.row) : Prop :=
  PyDict.keys (Csv.fields r) = fieldnames
  /\ Csv.rest r = None
  /\ Forall (fun kv => exists s, snd kv = Some s /\ plain s) (Csv.fields r).

Section ReadStream.
Import Csv.

(** The end of the input, for a parser that has read every line. *)
Definition read_end (p : Csv.parser) : list (list string) :=
  if negb (bool_decide (Csv.field p = []))
     || bool_decide (Csv.state p = Csv.IN_QUOTED_FIELD)
  then [rev (Csv.done_fields (Csv.parse_save_field p Csv.START_RECORD))]
  else [].

(** The reader seen as one pass over the characters of the text: [p] has
    read everything before [l], and [mid_line] tells whether the line it
    is in has a character already.  At each line feed the line ends. *)
Fixpoint read_stream (p : Csv.parser) (mid_line : bool) (l : list ascii)
    : result (list (list string)) :=
  match l with
  | [] =>
      if mid_line
      then let p' := Csv.process_eol p in
           if bool_decide (Csv.state p' = Csv.START_RECORD)
           then Ok [rev (Csv.done_fields p')]
           else Ok (read_end p')
      else Ok (read_end p)
  | c :: l' =>
      match Csv.process_char p c with
      | Raise e => Raise e
      | Ok p1 =>
          if Ascii.eqb c Csv.LF
          then let p2 := Csv.process_eol p1 in
               if bool_decide (Csv.state p2 = Csv.START_RECORD)
               then match read_stream Csv.parse_reset false l' with
                    | Raise e => Raise e
                    | Ok recs => Ok (rev (Csv.done_fields p2) :: recs)
                    end
               else read_stream p2 false l'
          else read_stream p1 true l'
      end
  end.

(** The characters of a line that the parser has not yet been given. *)
Fixpoint process_chars (p : Csv.parser) (l : list ascii) : result Csv.parser :=
  match l with
  | [] => Ok p
  | c :: l' =>
      match Csv.process_char p c with
      | Raise e => Raise e
      | Ok p' => process_chars p' l'
      end
  end.
End ReadStream.

(** * Concrete inputs *)
Module Examples.
Import Pocket.

(** A text file made of the given lines, each ended by a line feed. *)
Definition text_lines (l : list string) : string :=
  String.concat "" (map (fun s => String.append s (String Csv.LF "")) l).

(** ** Pocket items and stores *)

Definition item_old : raw_item :=
  mk_item [("item_id", JStr "7"); ("given_title", JStr "Old")] [].
Definition item_new : raw_item :=
  mk_item [("item_id", JStr "7"); ("given_title", JStr "New")] [].
Definition item_brand : raw_item :=
  mk_item [("item_id", JStr "9"); ("given_title", JStr "Brand")] [].

(** An item whose URL holds a carriage return, and one whose title holds
    a backslash. *)
Definition item_cr : raw_item :=
  mk_item [("item_id", JStr "1");
           ("given_url", JStr (String.append "http://a/" (String Csv.CR "b")))] [].
Definition item_backslash : raw_item :=
  mk_item [("item_id", JStr "2"); ("given_title", JStr "C:\temp")] [].

(** No CSV file and no timestamp file yet. *)
Definition no_files : PocketExporter.world :=
  PocketExporter.mk_world None None [].

(** A CSV file to which a column was added by hand, and a timestamp file
    left by an earlier run. *)
Definition store_with_notes : PocketExporter.world :=
  PocketExporter.mk_world
    (Some (text_lines ["Item ID,Notes"; "8,keep"])) (Some 100%Z) [].

(** The store after [item_old] was exported to an empty directory, and
    after [item_new] was exported next. *)
Definition store_old : PocketExporter.world :=
  snd (PocketExporter.export_to_csv
         [PocketExporter.format_item item_old] no_files).
Definition store_new : PocketExporter.world :=
  snd (PocketExporter.export_to_csv
         [PocketExporter.format_item item_new] store_old).

(** A service with a single item. *)
Definition api_one_item (since : option Z) (offset : nat)
    : result (list raw_item) :=
  match offset with
  | O => Ok [item_new]
  | _ => Ok []
  end.

(** A service with thirty-one items: a full page, then a page of one. *)
Definition full_page : list raw_item := repeat item_old 30.
Definition api_two_pages (since : option Z) (offset : nat)
    : result (list raw_item) :=
  if Nat.eqb offset 0 then Ok full_page
  else if Nat.eqb offset 30 then Ok [item_brand]
  else Raise HTTPError.

(** ** Takeout archives *)

Definition dropbox_dir : string :=
  "/home/me/Dropbox/Apps/Google Download Your Data".

Definition history_member : Takeout.member :=
  Takeout.mk_member
    "Takeout/YouTube and YouTube Music/history/watch-history.json"
    (Some [ Takeout.mk_entry
              (Some "https://www.youtube.com/watch?v=abc&t=1")
              (Some "2024-01-02T03:04:05Z");
            Takeout.mk_entry
              (Some "https://music.youtube.com/watch?v=xyz")
              (Some "2024-01-01T00:00:00Z");
            Takeout.mk_entry None (Some "2023-12-31T00:00:00Z") ]).

(** A watch-history member whose content is not JSON. *)
Definition broken_member : Takeout.member :=
  Takeout.mk_member
    "Takeout/YouTube and YouTube Music/history/watch-history.json" None.

Definition two_takeouts : Takeout.fs :=
  Takeout.mk_fs
    [("takeout-2.zip", [history_member]); ("takeout-1.zip", [history_member])]
    None None None.

Definition broken_takeout : Takeout.fs :=
  Takeout.mk_fs [("takeout-1.zip", [broken_member])] None None None.

(** ** A favorited item with two automatic tags *)
Definition favorited_item : raw_item :=
  mk_item [("item_id", JStr "5")] ["*python"; "keep"; "*ai"].

(** ** Video metadata *)

Definition metadata_of (video_id : string) : YtMetadata.metadata :=
  YtMetadata.mk_metadata video_id "PT1M" "2020-01-01T00:00:00Z" "title"
    "channel" "channel title" "10" "hd" "1" "0" "0" "0".

Definition videos_list (batch : list string)
    : result (list YtMetadata.api_item) :=
  Ok (map (fun video_id =>
             YtMetadata.mk_api_item video_id "PT1M" "hd"
               "2020-01-01T00:00:00Z" "title" "channel" "channel title"
               (Some "10") (Some "1") None None None) batch).

(** The cache knows [old1]; the metadata CSV also has a row for [gone];
    the history mentions [old1] and the new video [new1]. *)
Definition stale_output : YtMetadata.state :=
  YtMetadata.mk_state
    [("old1", metadata_of "old1")] None
    (Some ["new1"; "old1"])
    (Some [metadata_of "gone"; metadata_of "old1"]).

(** ** Services and archives that fail *)

(** A service that answers the first request with a full page and fails
    at the second. *)
Definition api_page_then_error (since : option Z) (offset : nat)
    : result (list raw_item) :=
  if Nat.eqb offset 0 then Ok full_page else Raise HTTPError.

(** An item with two tags that the service may list in either order. *)
Definition item_tags_ba : raw_item :=
  mk_item [("item_id", JStr "3")] ["b"; "a"].
Definition item_tags_ab : raw_item :=
  mk_item [("item_id", JStr "3")] ["a"; "b"].

(** An archive without a watch-history member. *)
Definition other_member : Takeout.member :=
  Takeout.mk_member "Takeout/archive_browser.html" None.
Definition other_takeout : Takeout.fs :=
  Takeout.mk_fs [("takeout-1.zip", [other_member])] None None None.

(** A download that succeeds at the third attempt, and one that never
    does. *)
Definition download_third (attempt : nat) : result string :=
  if Nat.eqb attempt 2 then Ok "Hello World" else Raise HTTPError.
Definition download_never (attempt : nat) : result string :=
  Raise HTTPError.

(** A record without an [item_id]. *)
Definition anonymous_item : raw_item := mk_item [] ["*ai"].

(** A metadata service that refuses every request, and one that cannot
    be reached. *)
Definition videos_list_down (batch : list string)
    : result (list YtMetadata.api_item) :=
  Raise HttpError.
Definition videos_list_unreachable (batch : list string)
    : result (list YtMetadata.api_item) :=
  Raise TimeoutError.

(** An item whose identifier holds a backslash, and one whose identifier
    holds a carriage return. *)
Definition item_backslash_key : raw_item :=
  mk_item [("item_id", JStr "a\b"); ("given_title", JStr "Title")] [].
Definition item_cr_key : raw_item :=
  mk_item [("item_id", JStr (String.append "a" (String Csv.CR "b")));
           ("given_title", JStr "Title")] [].

End Examples.

(** * Lemmas and theorems *)

Lemma filter_none {A} (P : A → Prop) `{∀ x, Decision (P x)} (l : list A) :
  (∀ x, x ∈ l → ¬ P x) → filter P l = [].
Proof.
  induction l as [|a l IH]; intros Hl; [done|].
  rewrite filter_cons_False.
  - apply IH. intros x Hx. apply Hl, elem_of_cons. by right.
  - apply Hl, elem_of_cons. by left.
Qed.

(** * Facts about dictionaries *)
Section PyDictFacts.
Context {K V : Type} `{EqDecision K}.
Implicit Types (d : list (K * V)) (k : K) (v : V).

Lemma get_set_eq k v d : PyDict.get k (PyDict.set k v d) = Some v.
Proof.
  induction d as [|[k' v'] d IH]; simpl.
  - by rewrite decide_True.
  - destruct (decide (k' = k)) as [->|Hne]; simpl.
    + by rewrite decide_True.
    + by rewrite decide_False.
Qed.

Lemma get_set_ne k k' v d :
  k ≠ k' → PyDict.get k' (PyDict.set k v d) = PyDict.get k' d.
Proof.
  intros Hne. induction d as [|[k0 v0] d IH]; simpl.
  - by rewrite decide_False.
  - destruct (decide (k0 = k)) as [->|Hk0]; simpl.
    + by rewrite !decide_False.
    + by rewrite IH.
Qed.

Lemma keys_set k v d :
  PyDict.keys (PyDict.set k v d)
  = if bool_decide (k ∈ PyDict.keys d) then PyDict.keys d
    else PyDict.keys d ++ [k].
Proof.
  induction d as [|[k' v'] d IH]; simpl; [done|].
  destruct (decide (k' = k)) as [->|Hne]; simpl.
  - rewrite bool_decide_true; [done|]. apply elem_of_cons; by left.
  - rewrite IH. destruct (decide (k ∈ PyDict.keys d)) as [Hin|Hin].
    + rewrite (bool_decide_true (k ∈ PyDict.keys d)) by done.
      rewrite bool_decide_true; [done|]. apply elem_of_cons; by right.
    + rewrite (bool_decide_false (k ∈ PyDict.keys d)) by done.
      rewrite bool_decide_false; [done|].
      intros [?|?]%elem_of_cons; [by subst|done].
Qed.

Lemma keys_set_NoDup k v d :
  NoDup (PyDict.keys d) → NoDup (PyDict.keys (PyDict.set k v d)).
Proof.
  intros Hnd. rewrite keys_set. case_bool_decide as Hin; [done|].
  apply NoDup_app. split; [done|]. split.
  - intros x Hx ->%list_elem_of_singleton. done.
  - apply NoDup_singleton.
Qed.

Lemma elem_of_set kv k v d :
  kv ∈ PyDict.set k v d → kv = (k, v) ∨ kv ∈ d.
Proof.
  induction d as [|[k' v'] d IH]; simpl.
  - intros ->%list_elem_of_singleton. by left.
  - destruct (decide (k' = k)) as [->|Hne].
    + intros [->|Hin]%elem_of_cons; [by left|].
      right. apply elem_of_cons. by right.
    + intros [->|Hin]%elem_of_cons.
      * right. apply elem_of_cons. by left.
      * destruct (IH Hin) as [->|?]; [by left|].
        right. apply elem_of_cons. by right.
Qed.

Lemma get_None_not_key k d : PyDict.get k d = None ↔ k ∉ PyDict.keys d.
Proof.
  induction d as [|[k' v'] d IH]; simpl.
  - split; [intros _; apply not_elem_of_nil|done].
  - destruct (decide (k' = k)) as [->|Hne].
    + split; [done|]. intros []. apply elem_of_cons. by left.
    + rewrite IH. split.
      * intros Hn [?|?]%elem_of_cons; [by subst|done].
      * intros Hn Hin. apply Hn, elem_of_cons. by right.
Qed.

Lemma get_Some_elem_of k v d : PyDict.get k d = Some v → (k, v) ∈ d.
Proof.
  induction d as [|[k' v'] d IH]; simpl; [done|].
  destruct (decide (k' = k)) as [->|Hne].
  - intros [= ->]. apply elem_of_cons. by left.
  - intros Hg. apply elem_of_cons. right. by apply IH.
Qed.

Lemma elem_of_get_Some k v d :
  NoDup (PyDict.keys d) → (k, v) ∈ d → PyDict.get k d = Some v.
Proof.
  induction d as [|[k' v'] d IH]; simpl.
  - intros _ Hin. by apply elem_of_nil in Hin.
  - intros [Hk' Hnd]%NoDup_cons [[= -> ->]|Hin]%elem_of_cons.
    + by rewrite decide_True.
    + rewrite decide_False; [by apply IH|].
      intros ->. apply Hk'. unfold PyDict.keys.
      apply list_elem_of_fmap. by exists (k, v).
Qed.

(** In a dictionary the entries with a given key are at most one. *)
Lemma filter_key k v d :
  NoDup (PyDict.keys d) → PyDict.get k d = Some v →
  filter (λ kv, kv.1 = k) d = [(k, v)].
Proof.
  induction d as [|[k' v'] d IH]; [done|].
  intros [Hk' Hnd]%NoDup_cons Hg. cbn [PyDict.get] in Hg.
  destruct (decide (k' = k)) as [->|Hne].
  - injection Hg as ->. rewrite filter_cons_True; [|done]. f_equal.
    apply filter_none. intros [k1 v1] Hin Heq.
    simpl in Heq. subst k1. apply Hk'. apply list_elem_of_fmap. by exists (k, v1).
  - rewrite filter_cons_False; [|done]. by apply IH.
Qed.

(** Dictionaries whose values carry their own key. *)
Section Keyed.
Variable key : V → option K.

Lemma keyed_nil : keyed key (@nil (K * V)).
Proof. constructor. Qed.

Lemma keyed_set k v d :
  key v = Some k → keyed key d → keyed key (PyDict.set k v d).
Proof.
  intros Hk Hd. apply Forall_forall. intros kv Hin.
  destruct (elem_of_set _ _ _ _ Hin) as [->|Hin']; [done|].
  by eapply Forall_forall in Hd.
Qed.

Lemma keyed_values_keys d :
  keyed key d → key <$> PyDict.values d = Some <$> PyDict.keys d.
Proof.
  induction 1 as [|[k v] d Hk Hd IH]; [done|]. simpl in Hk.
  change (key <$> v :: PyDict.values d = Some <$> k :: PyDict.keys d).
  by rewrite !fmap_cons, Hk, IH.
Qed.

Lemma keyed_values_NoDup d :
  keyed key d → NoDup (PyDict.keys d) → NoDup (key <$> PyDict.values d).
Proof.
  intros Hd Hnd. rewrite keyed_values_keys by done.
  apply NoDup_fmap; [|done]. by intros ?? [=].
Qed.

Lemma keyed_filter_values k d :
  keyed key d →
  filter (λ v, key v = Some k) (PyDict.values d)
  = PyDict.values (filter (λ kv, kv.1 = k) d).
Proof.
  induction 1 as [|[k' v] d Hk Hd IH]; [done|]. simpl in Hk.
  change (PyDict.values ((k', v) :: d)) with (v :: PyDict.values d).
  destruct (decide (k' = k)) as [->|Hne].
  - rewrite !filter_cons_True by done.
    change (PyDict.values ((k, v) :: filter (λ kv, kv.1 = k) d))
      with (v :: PyDict.values (filter (λ kv, kv.1 = k) d)).
    by rewrite IH.
  - rewrite (filter_cons_False _ v) by (rewrite Hk; by intros [=]).
    by rewrite (filter_cons_False _ (k', v)) by done.
Qed.

Lemma keyed_filter_get k v d :
  keyed key d → NoDup (PyDict.keys d) → PyDict.get k d = Some v →
  filter (λ x, key x = Some k) (PyDict.values d) = [v].
Proof.
  intros Hd Hnd Hg. rewrite keyed_filter_values by done.
  by rewrite (filter_key k v).
Qed.
End Keyed.
End PyDictFacts.

(** * pocket_to_csv.py: the keyed merge *)
Section MergeFacts.
Import PocketExporter.

Lemma getitem_key r k : Csv.getitem "Item ID" r = Ok k ↔ key_of r = Some k.
Proof.
  unfold Csv.getitem, key_of.
  destruct (PyDict.get "Item ID" (Csv.fields r)); split; congruence.
Qed.

Lemma row_dict_set k r d :
  key_of r = Some k → row_dict d → row_dict (PyDict.set k r d).
Proof.
  intros Hk [Hd Hnd]. split; [by apply keyed_set|by apply keys_set_NoDup].
Qed.

Lemma index_rows_row_dict rows d d' :
  row_dict d → index_rows rows d = Ok d' → row_dict d'.
Proof.
  revert d. induction rows as [|r rows IH]; intros d Hd; simpl.
  - by intros [= <-].
  - destruct (Csv.getitem "Item ID" r) as [k|e] eqn:Hk; [|done].
    apply IH, row_dict_set; [by apply getitem_key|done].
Qed.

Lemma merge_items_row_dict items d d' :
  row_dict d → merge_items d items = Ok d' → row_dict d'.
Proof.
  revert d. induction items as [|r items IH]; intros d Hd; simpl.
  - by intros [= <-].
  - destruct (Csv.getitem "Item ID" r) as [k|e] eqn:Hk; [|done].
    apply IH, row_dict_set; [by apply getitem_key|done].
Qed.

Lemma get_existing_items_inv w d w' :
  get_existing_items w = (Ok d, w') → w' = w ∧ row_dict d.
Proof.
  unfold get_existing_items. destruct (csv_file w) as [text|].
  - destruct (Csv.DictReader text) as [rows|e]; [|done].
    intros [= Hd <-]. split; [done|].
    eapply index_rows_row_dict; [|done]. split; [constructor|constructor].
  - intros [= <- <-]. split; [done|]. split; constructor.
Qed.

Lemma merged_items_inv items w d w' :
  merged_items items w = (Ok d, w') →
  ∃ existing, get_existing_items w = (Ok existing, w)
              ∧ merge_items existing items = Ok d ∧ w' = w ∧ row_dict d.
Proof.
  unfold merged_items, bind, lift.
  destruct (get_existing_items w) as [[existing|e] w0] eqn:Hex; [|done].
  destruct (get_existing_items_inv _ _ _ Hex) as [-> Hrd].
  intros [= Hm <-]. exists existing. repeat split; try done.
  - by eapply merge_items_row_dict.
  - by eapply merge_items_row_dict.
Qed.

Lemma export_to_csv_inv items w w' :
  export_to_csv items w = (Ok tt, w') →
  ∃ d text, merged_items items w = (Ok d, w)
            ∧ Csv.write_file headers (PyDict.values d) = Ok text
            ∧ w' = set_csv_file text w.
Proof.
  unfold export_to_csv, bind at 1.
  destruct (merged_items items w) as [[d|e] w0] eqn:Hm; [|done].
  destruct (merged_items_inv _ _ _ _ Hm) as (_ & _ & _ & -> & _).
  unfold bind, lift, modify.
  destruct (Csv.write_file headers (PyDict.values d)) as [text|e] eqn:Hw;
    [|done].
  intros [= <-]. by exists d, text.
Qed.

Lemma export_to_csv_stored items w w' :
  export_to_csv items w = (Ok tt, w') →
  ∃ d, merged_items items w = (Ok d, w) ∧ stored w' (PyDict.values d).
Proof.
  intros (d & text & Hm & Hw & ->)%export_to_csv_inv.
  exists d. split; [done|]. by exists text.
Qed.

Lemma merge_items_app d items1 items2 :
  merge_items d (items1 ++ items2)
  = match merge_items d items1 with
    | Ok d1 => merge_items d1 items2
    | Raise e => Raise e
    end.
Proof.
  revert d. induction items1 as [|r items1 IH]; intros d; simpl; [done|].
  destruct (Csv.getitem "Item ID" r); [apply IH|done].
Qed.

Lemma merge_items_get items d d' k :
  merge_items d items = Ok d' →
  PyDict.get k d'
  = match last_with_key k items with
    | Some r => Some r
    | None => PyDict.get k d
    end.
Proof.
  revert d'. induction items as [|r items IH] using rev_ind; intros d'.
  - simpl. by intros [= <-].
  - rewrite merge_items_app.
    destruct (merge_items d items) as [d1|e] eqn:Hd1; [|done]. simpl.
    destruct (Csv.getitem "Item ID" r) as [kr|e] eqn:Hkr; [|done].
    intros [= <-]. apply getitem_key in Hkr.
    unfold last_with_key. rewrite rev_unit. simpl.
    case_bool_decide as Hk.
    + rewrite Hkr in Hk. injection Hk as ->. apply get_set_eq.
    + rewrite get_set_ne by congruence. by apply IH.
Qed.

Lemma merge_items_is_ok d items :
  is_ok (merge_items d items)
  = forallb (λ r, bool_decide (is_Some (key_of r))) items.
Proof.
  revert d. induction items as [|r items IH]; intros d; simpl; [done|].
  destruct (Csv.getitem "Item ID" r) as [k|e] eqn:Hk.
  - apply getitem_key in Hk. rewrite bool_decide_true by (by rewrite Hk).
    apply IH.
  - rewrite bool_decide_false; [done|]. intros [k Hk'].
    apply getitem_key in Hk'. congruence.
Qed.
End MergeFacts.

Section MergeTheorems.
Import PocketExporter.

Lemma find_last_with_key_Some k items r :
  last_with_key k items = Some r → r ∈ items ∧ key_of r = Some k.
Proof.
  unfold last_with_key. intros [Hin Hk]%find_some.
  apply bool_decide_eq_true in Hk. split; [|done].
  apply list_elem_of_In. by apply in_rev.
Qed.

Lemma find_last_with_key_None k items r :
  last_with_key k items = None → r ∈ items → key_of r ≠ Some k.
Proof.
  unfold last_with_key. intros Hnone Hin.
  apply list_elem_of_In, in_rev in Hin.
  pose proof (find_none _ _ Hnone _ Hin) as Hk.
  by apply bool_decide_eq_false in Hk.
Qed.

(** After any merge the store has one row per key, and under the key of
    a record of the batch sits the last record written with it. *)
Lemma export_to_csv_keys_unique items w w' :
  export_to_csv items w = (Ok tt, w') →
  ∃ rows, stored w' rows ∧ NoDup (key_of <$> rows)
          ∧ ∀ k r, last_with_key k items = Some r →
                   filter (λ x, key_of x = Some k) rows = [r].
Proof.
  intros (d & Hm & Hst)%export_to_csv_stored.
  destruct (merged_items_inv _ _ _ _ Hm) as (ex & _ & Hmerge & _ & Hk & Hnd).
  exists (PyDict.values d). split; [done|]. split.
  - by apply keyed_values_NoDup.
  - intros k r Hlast. apply keyed_filter_get; [done..|].
    by rewrite (merge_items_get _ _ _ k Hmerge), Hlast.
Qed.

Lemma last_with_key_singleton r k :
  key_of r = Some k → last_with_key k [r] = Some r.
Proof.
  intros Hk. unfold last_with_key. simpl. by rewrite bool_decide_true.
Qed.

Lemma export_to_csv_has_key r items w w' :
  export_to_csv items w = (Ok tt, w') → r ∈ items → is_Some (key_of r).
Proof.
  intros (d & text & Hm & _)%export_to_csv_inv Hin.
  destruct (merged_items_inv _ _ _ _ Hm) as (ex & _ & Hmerge & _).
  pose proof (merge_items_is_ok ex items) as Hok. rewrite Hmerge in Hok.
  symmetry in Hok. simpl in Hok.
  rewrite forallb_forall in Hok. apply list_elem_of_In in Hin.
  by apply Hok, bool_decide_eq_true in Hin.
Qed.

(** The rows handed to the writer.  A record merged, then a record with
    the same key merged again: after each of the two calls of
    [export_to_csv] the rows given to the writer have pairwise distinct
    keys, and exactly one of them has the key of the record, namely the
    record just written; after the second call that is the second
    record.  What the reader makes of the file is another matter. *)
Theorem export_to_csv_one_row_per_key (w w1 w2 : world) (r1 r2 : Csv.row) :
  key_of r1 = key_of r2 →
  export_to_csv [r1] w = (Ok tt, w1) →
  export_to_csv [r2] w1 = (Ok tt, w2) →
  ∃ rows1 rows2,
    stored w1 rows1 ∧ stored w2 rows2
    ∧ NoDup (key_of <$> rows1) ∧ NoDup (key_of <$> rows2)
    ∧ filter (λ x, key_of x = key_of r1) rows1 = [r1]
    ∧ filter (λ x, key_of x = key_of r2) rows2 = [r2].
Proof.
  intros Hkey H1 H2.
  destruct (export_to_csv_has_key r1 _ _ _ H1) as [k Hk1];
    [apply list_elem_of_singleton; done|].
  assert (key_of r2 = Some k) as Hk2 by congruence.
  destruct (export_to_csv_keys_unique _ _ _ H1) as (rows1 & Hs1 & Hn1 & Hf1).
  destruct (export_to_csv_keys_unique _ _ _ H2) as (rows2 & Hs2 & Hn2 & Hf2).
  exists rows1, rows2. rewrite Hk1, Hk2.
  repeat split; try done.
  - by apply Hf1, last_with_key_singleton.
  - by apply Hf2, last_with_key_singleton.
Qed.

Lemma last_with_key_perm k items items' :
  items ≡ₚ items' →
  (∀ r1 r2, r1 ∈ items → r2 ∈ items → key_of r1 = key_of r2 → r1 = r2) →
  last_with_key k items' = last_with_key k items.
Proof.
  intros Hp Hsame.
  destruct (last_with_key k items) as [r|] eqn:H1,
           (last_with_key k items') as [r'|] eqn:H2; [| | |done].
  - apply find_last_with_key_Some in H1 as [Hin1 Hk1].
    apply find_last_with_key_Some in H2 as [Hin2 Hk2].
    rewrite <- Hp in Hin2. f_equal. apply Hsame; congruence.
  - apply find_last_with_key_Some in H1 as [Hin1 Hk1].
    rewrite Hp in Hin1. by destruct (find_last_with_key_None _ _ _ H2 Hin1).
  - apply find_last_with_key_Some in H2 as [Hin2 Hk2].
    rewrite <- Hp in Hin2.
    by destruct (find_last_with_key_None _ _ _ H1 Hin2).
Qed.

Lemma writerows_is_ok h rows :
  is_ok (Csv.writerows h rows)
  = forallb (λ r, is_ok (Csv.dict_to_list h r)) rows.
Proof.
  induction rows as [|r rows IH]; simpl; [done|].
  destruct (Csv.dict_to_list h r); simpl; [|done].
  rewrite <- IH. by destruct (Csv.writerows h rows).
Qed.

Lemma write_file_is_ok h rows :
  is_ok (Csv.write_file h rows)
  = forallb (λ r, is_ok (Csv.dict_to_list h r)) rows.
Proof.
  rewrite <- writerows_is_ok. unfold Csv.write_file.
  by destruct (Csv.writerows h rows).
Qed.

Lemma same_get_values_subseteq (d d' : list (option string * Csv.row)) :
  NoDup (PyDict.keys d') →
  (∀ k, PyDict.get k d' = PyDict.get k d) →
  ∀ r, r ∈ PyDict.values d' → r ∈ PyDict.values d.
Proof.
  intros Hnd Hget r ([k r'] & -> & Hin)%list_elem_of_fmap. simpl.
  apply elem_of_get_Some in Hin; [|done]. rewrite Hget in Hin.
  apply get_Some_elem_of in Hin. apply list_elem_of_fmap. by exists (k, r').
Qed.

(** C3, amended.  When records of the batch that share a key are equal,
    [export_to_csv] succeeds on a permutation of the batch as soon as it
    does on the batch, and the dictionaries written by the two calls map
    every key to the same row. *)
Theorem export_to_csv_order_independent (w w1 : world)
    (items items' : list Csv.row) :
  items ≡ₚ items' →
  (∀ r1 r2, r1 ∈ items → r2 ∈ items → key_of r1 = key_of r2 → r1 = r2) →
  export_to_csv items w = (Ok tt, w1) →
  ∃ w1' d d',
    export_to_csv items' w = (Ok tt, w1')
    ∧ merged_items items w = (Ok d, w)
    ∧ merged_items items' w = (Ok d', w)
    ∧ stored w1 (PyDict.values d) ∧ stored w1' (PyDict.values d')
    ∧ ∀ k, PyDict.get k d' = PyDict.get k d.
Proof.
  intros Hp Hsame Hexp.
  destruct (export_to_csv_inv _ _ _ Hexp) as (d & text & Hm & Hw & ->).
  destruct (merged_items_inv _ _ _ _ Hm) as (ex & Hex & Hmerge & _ & Hrd).
  (* the permuted batch merges as well *)
  pose proof (merge_items_is_ok ex items) as Hok.
  pose proof (merge_items_is_ok ex items') as Hok'.
  rewrite Hmerge in Hok. simpl in Hok.
  assert (forallb (λ r, bool_decide (is_Some (key_of r))) items' = true)
    as Hall.
  { symmetry in Hok. rewrite forallb_forall in Hok |- *.
    intros r Hr. apply Hok. by eapply Permutation_in; [symmetry|]. }
  rewrite Hall in Hok'.
  destruct (merge_items ex items') as [d'|] eqn:Hmerge'; [|done].
  assert (row_dict d') as Hrd'.
  { eapply merge_items_row_dict; [|done].
    by destruct (get_existing_items_inv _ _ _ Hex). }
  assert (∀ k, PyDict.get k d' = PyDict.get k d) as Hget.
  { intros k. rewrite (merge_items_get _ _ _ k Hmerge),
      (merge_items_get _ _ _ k Hmerge').
    by rewrite (last_with_key_perm k items items'). }
  assert (merged_items items' w = (Ok d', w)) as Hm'.
  { unfold merged_items, bind, lift. by rewrite Hex, Hmerge'. }
  (* and its rows serialise *)
  pose proof (write_file_is_ok headers (PyDict.values d)) as Hwok.
  pose proof (write_file_is_ok headers (PyDict.values d')) as Hwok'.
  rewrite Hw in Hwok. simpl in Hwok. symmetry in Hwok.
  rewrite forallb_forall in Hwok.
  assert (forallb (λ r, is_ok (Csv.dict_to_list headers r))
            (PyDict.values d') = true) as Hall'.
  { apply forallb_forall. intros r Hr. apply Hwok.
    apply list_elem_of_In. apply list_elem_of_In in Hr.
    eapply same_get_values_subseteq; [apply Hrd'|done|done]. }
  rewrite Hall' in Hwok'.
  destruct (Csv.write_file headers (PyDict.values d')) as [text'|] eqn:Hw';
    [|done].
  exists (set_csv_file text' w), d, d'.
  repeat split; try done.
  - unfold export_to_csv, bind at 1. rewrite Hm'.
    unfold bind, lift, modify. by rewrite Hw'.
  - by exists text.
  - by exists text'.
Qed.
End MergeTheorems.

(** * pocket_to_csv.py: the paginated fetch *)
Section Pagination.
Import Pocket PocketExporter.

Variable api_get : option Z → nat → result (list raw_item).
Variable current_time : Z.

Lemma fetch_loop_pages (since : option Z) (pages : list (list raw_item))
    (last_page : list raw_item) :
  Forall (λ p, (items_per_page ≤ length p)%nat) pages →
  (length last_page < items_per_page)%nat →
  ∀ offset all_items w fuel,
    Forall2 (λ rq p, api_get rq.1 rq.2 = Ok p)
      (page_requests (since_param since) offset (pages ++ [last_page]))
      (pages ++ [last_page]) →
    (length pages < fuel)%nat →
    fetch_loop api_get fuel since offset all_items w
    = Some (Ok (all_items ++ (format_item <$> concat (pages ++ [last_page]))),
            mk_world (csv_file w) (timestamp_file w)
              (requests w
                 ++ page_requests (since_param since) offset
                      (pages ++ [last_page]))).
Proof.
  intros Hfull Hshort. induction Hfull as [|p pages Hp Hfull IH];
    intros offset all_items w fuel Hapi Hfuel.
  - destruct fuel as [|fuel]; [simpl in Hfuel; lia|].
    simpl in Hapi. apply Forall2_cons_1 in Hapi as [Hlast _]. simpl in Hlast.
    simpl. unfold fetch_page, bind, modify, lift, ret. fold (since_param since).
    rewrite Hlast. rewrite length_fmap.
    replace (Nat.leb items_per_page (length last_page)) with false
      by (symmetry; apply Nat.leb_gt; lia).
    by rewrite app_nil_r.
  - destruct fuel as [|fuel]; [simpl in Hfuel; lia|].
    simpl in Hapi. apply Forall2_cons_1 in Hapi as [Hpage Hrest].
    simpl in Hpage.
    cbn [fetch_loop]. unfold fetch_page, bind, modify, lift, ret.
    fold (since_param since). rewrite Hpage. rewrite length_fmap.
    replace (Nat.leb items_per_page (length p)) with true
      by (symmetry; apply Nat.leb_le; lia).
    rewrite (IH (offset + length p) _ _ fuel Hrest) by (simpl in Hfuel; lia).
    simpl. rewrite fmap_app. by rewrite <- !app_assoc.
Qed.

(** C4. A source that answers the successive requests with pages of at
    least [items_per_page] items and then with a shorter page: given more
    iterations than there are full pages, [fetch_new_items] returns the
    formatted items of all pages in order, the short one included, after
    one request per page, each at the offset reached by adding the sizes
    of the pages received so far. *)
Theorem fetch_new_items_pagination (w : world)
    (pages : list (list raw_item)) (last_page : list raw_item) (fuel : nat) :
  Forall (λ p, (items_per_page ≤ length p)%nat) pages →
  (length last_page < items_per_page)%nat →
  Forall2 (λ rq p, api_get rq.1 rq.2 = Ok p)
    (page_requests (since_param (timestamp_file w)) 0 (pages ++ [last_page]))
    (pages ++ [last_page]) →
  (length pages < fuel)%nat →
  ∃ w',
    fetch_new_items api_get current_time fuel w
    = Some (Ok (format_item <$> concat (pages ++ [last_page])), w')
    ∧ requests w'
      = requests w
          ++ page_requests (since_param (timestamp_file w)) 0
               (pages ++ [last_page])
    ∧ length (page_requests (since_param (timestamp_file w)) 0
                (pages ++ [last_page])) = S (length pages)
    ∧ csv_file w' = csv_file w.
Proof.
  intros Hfull Hshort Hapi Hfuel.
  unfold fetch_new_items, get_last_update_time, gets.
  rewrite (fetch_loop_pages _ pages last_page Hfull Hshort 0 [] w fuel Hapi Hfuel).
  assert (∀ since off (ps : list (list raw_item)),
            length (page_requests since off ps) = length ps) as Hlen.
  { intros since off ps. revert off.
    induction ps as [|p ps IH]; intros off; simpl; [done|]. by rewrite IH. }
  rewrite Hlen, length_app. simpl.
  destruct (format_item <$> concat (pages ++ [last_page])) eqn:Hitems.
  - eexists. split; [done|]. simpl. split; [done|]. split; [lia|done].
  - eexists. unfold bind, save_last_update_time, modify, ret.
    split; [done|]. simpl. split; [done|]. split; [lia|done].
Qed.
End Pagination.

(** * The order of strings and [sort(reverse=True)] *)
Section StringOrder.

Lemma string_compare_refl s : String.compare s s = Eq.
Proof.
  induction s as [|c s IH]; simpl; [done|].
  unfold Ascii.compare. by rewrite N.compare_refl.
Qed.

Lemma string_leb_refl s : String.leb s s = true.
Proof. unfold String.leb. by rewrite string_compare_refl. Qed.

Lemma string_compare_not_Gt_trans x y z :
  String.compare x y ≠ Gt → String.compare y z ≠ Gt →
  String.compare x z ≠ Gt.
Proof.
  revert y z. induction x as [|a x IH]; intros [|b y] [|c z]; simpl;
    try done.
  unfold Ascii.compare.
  destruct (N.compare_spec (N_of_ascii a) (N_of_ascii b)) as [Hab|Hab|Hab],
           (N.compare_spec (N_of_ascii b) (N_of_ascii c)) as [Hbc|Hbc|Hbc];
    try done; intros Hxy Hyz.
  - rewrite Hab, Hbc, N.compare_refl. by eapply IH.
  - rewrite Hab. by apply N.compare_lt_iff in Hbc as ->.
  - rewrite <- Hbc. by apply N.compare_lt_iff in Hab as ->.
  - assert (N_of_ascii a < N_of_ascii c)%N as Hac by lia.
    by apply N.compare_lt_iff in Hac as ->.
Qed.

Lemma string_leb_trans x y z :
  String.leb x y = true → String.leb y z = true → String.leb x z = true.
Proof.
  unfold String.leb. intros Hxy Hyz.
  pose proof (string_compare_not_Gt_trans x y z) as Ht.
  destruct (String.compare x y), (String.compare y z),
    (String.compare x z); try done; exfalso; by apply Ht.
Qed.

Lemma insert_desc_perm x l : PyStr.insert_desc x l ≡ₚ x :: l.
Proof.
  induction l as [|y l IH]; simpl; [done|].
  destruct (String.leb y x); [done|]. rewrite IH. apply Permutation_swap.
Qed.

Lemma sort_reverse_perm l : PyStr.sort_reverse l ≡ₚ l.
Proof.
  induction l as [|x l IH]; simpl; [done|].
  by rewrite insert_desc_perm, IH.
Qed.

Lemma insert_desc_head_max x l : head_max l → head_max (PyStr.insert_desc x l).
Proof.
  destruct l as [|y l]; simpl.
  - intros _. repeat constructor. apply string_leb_refl.
  - intros Hy. destruct (String.leb y x) eqn:Hyx; simpl.
    + constructor; [apply string_leb_refl|].
      eapply Forall_impl; [exact Hy|]. simpl. intros z Hz.
      by eapply string_leb_trans.
    + apply Forall_forall. intros z Hz.
      assert (z ∈ y :: x :: l) as Hz'.
      { apply elem_of_cons in Hz as [->|Hz]; [by left|].
        rewrite insert_desc_perm in Hz. by right. }
      apply elem_of_cons in Hz' as [Heq|Hz'];
        [subst z; apply string_leb_refl|].
      apply elem_of_cons in Hz' as [Heq|Hz'].
      * subst z. destruct (String.leb_total x y) as [?|?]; [done|congruence].
      * apply Forall_cons in Hy as [_ Hy].
        by eapply Forall_forall in Hy.
Qed.

Lemma sort_reverse_head_max l : head_max (PyStr.sort_reverse l).
Proof.
  induction l as [|x l IH]; simpl; [done|]. by apply insert_desc_head_max.
Qed.

(** [l.sort(reverse=True); l[0]] is the greatest element of [l]. *)
Lemma sort_reverse_first l :
  l ≠ [] →
  ∃ m rest, PyStr.sort_reverse l = m :: rest ∧ m ∈ l
            ∧ ∀ x, x ∈ l → String.leb x m = true.
Proof.
  intros Hne. pose proof (sort_reverse_perm l) as Hp.
  pose proof (sort_reverse_head_max l) as Hm.
  destruct (PyStr.sort_reverse l) as [|m rest].
  - apply Permutation_nil_l in Hp. done.
  - exists m, rest. split; [done|]. split.
    + rewrite <- Hp. by left.
    + intros x Hx. rewrite <- Hp in Hx. simpl in Hm.
      by eapply Forall_forall in Hm.
Qed.
End StringOrder.

(** * dropbox_takeout_to_csv.py *)
Section TakeoutFacts.
Import Takeout.
Variable dropbox_dir : string.

Lemma process_youtube_history_listing zip_path w :
  listing (process_youtube_history dropbox_dir zip_path w).2 = listing w.
Proof.
  unfold process_youtube_history, bind at 1.
  destruct (open_zip dropbox_dir zip_path w) as [members|e]; [|done].
  destruct (find _ members) as [m|]; [|done].
  unfold bind, modify, raise, ret; simpl.
  by destruct (member_json m).
Qed.

Lemma process_youtube_history_true zip_path w b w' :
  process_youtube_history dropbox_dir zip_path w = (Ok b, w') → b = true.
Proof.
  unfold process_youtube_history, bind at 1.
  destruct (open_zip dropbox_dir zip_path w) as [members|e]; [|done].
  destruct (find _ members) as [m|]; [|done].
  unfold bind, modify, raise, ret; simpl.
  destruct (member_json m); [|done]. by intros [= <- _].
Qed.

(** C5. When some archive is unprocessed, one run hands exactly one
    archive to [process_youtube_history]: an unprocessed one whose path
    is greater than or equal to every other unprocessed path.  The
    directory is left as it was, and when the processing succeeds the
    pickled set becomes the prior set with that one path added. *)
Theorem main_processes_newest_only (w : fs) :
  (find_latest_takeout dropbox_dir w).1 ≠ [] →
  ∃ latest,
    latest ∈ (find_latest_takeout dropbox_dir w).1
    ∧ (∀ f, f ∈ (find_latest_takeout dropbox_dir w).1 →
            String.leb f latest = true)
    ∧ (main dropbox_dir w).1 = [latest]
    ∧ listing (main dropbox_dir w).2 = listing w
    ∧ ∀ b w1,
        process_youtube_history dropbox_dir latest w = (Ok b, w1) →
        (main dropbox_dir w).2
        = set_processed_pkl
            ((find_latest_takeout dropbox_dir w).2 ∪ {[latest]}) w1.
Proof.
  intros Hne.
  destruct (sort_reverse_first _ Hne) as (latest & rest & Hsort & Hin & Hmax).
  exists latest. split; [done|]. split; [done|].
  unfold main. destruct (find_latest_takeout dropbox_dir w) as [unp proc].
  simpl in *. rewrite Hsort.
  pose proof (process_youtube_history_listing latest w) as Hl.
  pose proof (process_youtube_history_true latest w) as Ht.
  destruct (process_youtube_history dropbox_dir latest w) as [[b|e] w1].
  - rewrite (Ht b w1 eq_refl). simpl. split; [done|]. split; [done|].
    by intros b' w1' [= _ <-].
  - simpl. split; [done|]. split; [done|]. by intros b' w1' [=].
Qed.
End TakeoutFacts.

(** * pocket_tagger.py: matching on word boundaries *)
Section TaggerFacts.
Import Tagger.
Variable is_word : ascii → bool.

Lemma is_prefix_spec p l :
  is_prefix p l = true ↔ ∃ post, l = p ++ post.
Proof.
  revert l. induction p as [|a p IH]; intros l; simpl.
  - split; [by exists l|done].
  - destruct l as [|b l].
    + split; [done|]. by intros [post [=]].
    + rewrite andb_true_iff, IH. split.
      * intros [->%Ascii.eqb_eq [post ->]]. by exists post.
      * intros [post [= -> ->]]. split; [apply Ascii.eqb_refl|by exists post].
Qed.

Lemma skipn_length_app (p post : list ascii) :
  skipn (length p) (p ++ post) = post.
Proof. induction p; simpl; done. Qed.

Lemma match_here_spec tag before text :
  match_here is_word tag before text = true
  ↔ ∃ post, text = tag ++ post
            ∧ boundary is_word before (head (tag ++ post)) = true
            ∧ boundary is_word (last_or before tag) (head post) = true.
Proof.
  unfold match_here. rewrite !andb_true_iff, is_prefix_spec. split.
  - intros [[Hb [post ->]] He]. exists post.
    rewrite skipn_length_app in He. by destruct tag.
  - intros (post & -> & Hb & He). rewrite skipn_length_app.
    split; [split; [done|by exists post]|]. by destruct tag.
Qed.

Lemma last_or_app before pre c :
  last_or before (pre ++ [c]) = Some c.
Proof.
  unfold last_or. destruct (pre ++ [c]) eqn:E.
  - by destruct pre.
  - rewrite <- E. apply last_snoc.
Qed.

Lemma search_from_spec tag before text :
  search_from is_word tag before text = true
  ↔ ∃ pre post,
      text = pre ++ tag ++ post
      ∧ boundary is_word (last_or before pre) (head (tag ++ post)) = true
      ∧ boundary is_word (last_or before (pre ++ tag)) (head post) = true.
Proof.
  revert before. induction text as [|c text IH]; intros before.
  - simpl. rewrite orb_false_r, match_here_spec. split.
    + intros (post & Ht & Hb & He). by exists [], post.
    + intros (pre & post & Ht & Hb & He).
      destruct pre; [|done]. by exists post.
  - cbn [search_from]. rewrite orb_true_iff, match_here_spec, IH. split.
    + intros [(post & Ht & Hb & He)|(pre & post & Ht & Hb & He)].
      * by exists [], post.
      * exists (c :: pre), post. split; [by rewrite Ht|].
        split.
        -- destruct pre; [done|]. exact Hb.
        -- destruct pre as [|a pre]; simpl in *.
           ++ destruct tag; [done|]. exact He.
           ++ exact He.
    + intros (pre & post & Ht & Hb & He). destruct pre as [|a pre].
      * left. by exists post.
      * right. injection Ht as -> ->. exists pre, post. split; [done|].
        split.
        -- destruct pre; [done|]. exact Hb.
        -- destruct pre as [|a' pre]; simpl in *.
           ++ destruct tag; [done|]. exact He.
           ++ exact He.
Qed.

Lemma last_app_nonempty (pre tag : list ascii) :
  tag ≠ [] → last (pre ++ tag) = last tag.
Proof.
  intros Hne. destruct tag as [|a tag] using rev_ind; [done|].
  by rewrite app_assoc, !last_snoc.
Qed.

(** For a tag with word characters at both ends the pattern finds a match
    exactly when the tag occurs as a whole word. *)
Lemma re_search_whole_word tag text :
  word_edges is_word tag →
  re_search is_word tag text = true ↔ whole_word is_word tag text.
Proof.
  intros [Hfirst Hlast]. unfold re_search, whole_word.
  rewrite search_from_spec.
  assert (PyStr.chars tag ≠ []) as Hne by (by destruct (PyStr.chars tag)).
  assert (∀ pre, last_or None pre = last pre) as Hlo by (by intros []).
  assert (∀ pre, last_or None (pre ++ PyStr.chars tag)
                 = last (PyStr.chars tag)) as Hlo'.
  { intros pre. rewrite Hlo. by apply last_app_nonempty. }
  assert (∀ post, head (PyStr.chars tag ++ post) = head (PyStr.chars tag))
    as Hhd by (intros post; by destruct (PyStr.chars tag)).
  unfold boundary.
  split; intros (pre & post & Ht & Hb & He); exists pre, post;
    (split; [done|]); rewrite ?Hlo', ?Hlo, ?Hhd, ?Hfirst, ?Hlast in *.
  - split; [by destruct (word_at is_word (last pre))
           |by destruct (word_at is_word (head post))].
  - by rewrite Hb, He.
Qed.

(** C7, amended.  When every tag of the vocabulary starts and ends with
    a word character, the result is the set of the tags that occur in the
    text as whole words, each with the sentinel in front. *)
Theorem find_matching_tags_whole_words (text : string) (tags : gset string) :
  (∀ tag, tag ∈ tags → word_edges is_word tag) →
  ∀ s, s ∈ find_matching_tags is_word text tags
       ↔ ∃ tag, tag ∈ tags ∧ s = String "*" tag ∧ whole_word is_word tag text.
Proof.
  intros Hedges s. unfold find_matching_tags.
  rewrite elem_of_map. split.
  - intros (tag & -> & [Hs Hin]%elem_of_filter). exists tag.
    split; [done|]. split; [done|]. by apply re_search_whole_word; auto.
  - intros (tag & Hin & -> & Hw). exists tag. split; [done|].
    apply elem_of_filter. split; [|done].
    by apply re_search_whole_word; auto.
Qed.
End TaggerFacts.

(** * untag_pocket.py *)
Section UntagFacts.
Import Pocket Untag.

Lemma startswith_sentinel tag :
  PyStr.startswith "*" tag = carries_sentinel tag.
Proof.
  unfold PyStr.startswith. destruct tag as [|c rest]; [done|].
  change (String.prefix "*" (String c rest))
    with (if ascii_dec "*" c then String.prefix "" rest else false).
  cbn [carries_sentinel]. destruct (ascii_dec "*" c) as [<-|Hne].
  - rewrite Ascii.eqb_refl. by destruct rest.
  - symmetry. apply Ascii.eqb_neq. congruence.
Qed.

Lemma filter_not_sentinel (l : list string) :
  filter (λ tag, negb (PyStr.startswith "*" tag)) l
  = filter (λ tag, carries_sentinel tag = false) l.
Proof.
  apply list_filter_iff. intros tag. rewrite startswith_sentinel.
  by destruct (carries_sentinel tag).
Qed.

Lemma build_actions_spec items actions :
  Forall (λ item, is_Some (PyDict.get "item_id" (attrs item))) items →
  build_actions items actions
  = Ok (actions ++ flat_map cleanup_actions items).
Proof.
  intros Hids. revert actions.
  induction Hids as [|item items [item_id Hid] Hids IH]; intros actions;
    simpl.
  - by rewrite app_nil_r.
  - rewrite Hid, IH. unfold cleanup_actions at 2. rewrite Hid.
    by rewrite filter_not_sentinel, <- app_assoc.
Qed.

(** C8. The service answers the successive fetches with non-empty pages
    and then with an empty one: the pass sends one batch per page, made
    for each record of the page of a [tags_replace] with the record's
    tags that do not carry the sentinel, followed by an [unfavorite]; at
    the empty reply it returns. *)
Theorem clean_and_unfavorite_items_spec (pages : list (list raw_item))
    (final_send : result unit) (rest : list replies) :
  Forall (λ page, page ≠ []) pages →
  Forall (Forall (λ item, is_Some (PyDict.get "item_id" (attrs item))))
    pages →
  clean_and_unfavorite_items
    (serve pages ++ mk_replies (Ok []) final_send :: rest)
  = (Returned, flat_map cleanup_actions <$> pages).
Proof.
  intros Hne Hids. induction Hids as [|page pages Hpage Hids IH]; [done|].
  apply Forall_cons in Hne as [Hp Hne].
  cbn [serve fmap list_fmap app clean_and_unfavorite_items get_reply
       send_reply].
  destruct page as [|item page]; [done|].
  rewrite build_actions_spec by done. rewrite app_nil_l.
  fold (serve pages). rewrite (IH Hne).
  apply Forall_cons in Hpage as [[item_id Hid] _].
  destruct (flat_map cleanup_actions (item :: page)) eqn:E; [|done].
  simpl in E. unfold cleanup_actions at 1 in E. by rewrite Hid in E.
Qed.
End UntagFacts.

(** * yt_history_fetch_metadata.py *)
Section MetadataFacts.
Import YtMetadata.
Variable videos_list : list string → result (list api_item).

Lemma store_items_wf items results cache :
  cache_wf cache → cache_wf (store_items items results cache).2.
Proof.
  revert results cache. induction items as [|item items IH];
    intros results cache Hwf; simpl; [done|].
  apply IH. by apply keyed_set.
Qed.

Lemma fetch_batches_wf bs results cache :
  cache_wf cache → cache_wf (fetch_batches videos_list bs results cache).2.
Proof.
  revert results cache. induction bs as [|batch bs IH];
    intros results cache Hwf; simpl; [done|].
  destruct (videos_list batch) as [items|e];
    [|destruct e; try done; by apply IH].
  pose proof (store_items_wf items results cache Hwf) as Hwf'.
  destruct (store_items items results cache) as [results' cache'].
  by apply IH.
Qed.

Lemma _get_video_metadata_wf video_ids s :
  cache_wf (metadata_cache s) →
  cache_wf (metadata_cache (_get_video_metadata videos_list video_ids s).2).
Proof.
  intros Hwf. unfold _get_video_metadata.
  pose proof (fetch_batches_wf (batches (length video_ids) video_ids) []
                (metadata_cache s) Hwf) as Hwf'.
  by destruct (fetch_batches _ _ _ _) as [results cache].
Qed.

Lemma _get_video_metadata_files video_ids s :
  let s1 := (_get_video_metadata videos_list video_ids s).2 in
  cache_file s1 = cache_file s ∧ input_csv s1 = input_csv s
  ∧ output_csv s1 = output_csv s.
Proof.
  unfold _get_video_metadata.
  by destruct (fetch_batches _ _ _ _) as [results cache].
Qed.

(** C10. A run that finds new videos and completes: the metadata CSV
    holds the values of the cache as the fetch left it, and nothing else;
    a row of the previous file whose [videoId] is not a key of that cache
    is not in the new file. *)
Theorem process_history_rewrites_output (s s' : state)
    (history : list string) :
  cache_wf (metadata_cache s) →
  input_csv s = Some history →
  new_videos s history ≠ ∅ →
  process_history videos_list s = (Ok tt, s') →
  metadata_cache s'
  = metadata_cache
      (_get_video_metadata videos_list
         (elements (new_videos s history)) s).2
  ∧ output_csv s' = Some (PyDict.values (metadata_cache s'))
  ∧ ∀ row, row ∈ default [] (output_csv s) →
           videoId row ∉ PyDict.keys (metadata_cache s') →
           row ∉ default [] (output_csv s').
Proof.
  intros Hwf Hin Hnew. unfold process_history, bind at 1. rewrite Hin.
  unfold bind at 1, gets. rewrite bool_decide_false by done.
  unfold bind at 1.
  pose proof (_get_video_metadata_wf (elements (new_videos s history)) s Hwf)
    as Hwf1.
  destruct (_get_video_metadata videos_list
              (elements (new_videos s history)) s) as [[res|e] s1] eqn:Hget.
  2:{ intros [=]. }
  simpl in Hwf1. unfold bind at 1.
  destruct (PyDict.values (metadata_cache s1)) as [|m ms] eqn:Hvals;
    [intros [=]|].
  unfold bind, modify. intros [= <-]. simpl.
  split; [done|]. rewrite Hvals. split; [done|].
  intros row Hrow Hkey Hrow'. apply Hkey. rewrite <- Hvals in Hrow'.
  apply list_elem_of_fmap in Hrow' as ([k m'] & -> & Hkm). simpl.
  eapply Forall_forall in Hwf1; [|exact Hkm]. simpl in Hwf1.
  injection Hwf1 as ->. apply list_elem_of_fmap. by exists (k, m').
Qed.
End MetadataFacts.

(** * The claims on concrete inputs *)
Section Concrete.
Import Pocket PocketExporter Examples.

(** C1.  The CSV file has a column that is not in the header of the
    exporter, so that the writer refuses the existing row; the service
    has one item.  The run raises, the CSV file is as before, and the
    timestamp file already holds the time of this run. *)
Theorem run_saves_timestamp_before_failed_export :
  ∃ w',
    run api_one_item 200 2 store_with_notes = Some (Raise ValueError, w')
    ∧ export_to_csv [format_item item_new]
        (set_timestamp_file 200
           (log_request (Some 100%Z, 0) store_with_notes))
      = (Raise ValueError, w')
    ∧ csv_file w' = csv_file store_with_notes
    ∧ timestamp_file store_with_notes = Some 100%Z
    ∧ timestamp_file w' = Some 200%Z.
Proof. eexists. repeat split; vm_compute; reflexivity. Qed.
End Concrete.

Section ConcreteMerge.
Import Pocket PocketExporter Examples.

Lemma export_to_csv_one_row_per_key_witness :
  key_of (format_item item_old) = key_of (format_item item_new)
  ∧ export_to_csv [format_item item_old] no_files = (Ok tt, store_old)
  ∧ export_to_csv [format_item item_new] store_old = (Ok tt, store_new)
  ∧ ∃ rows1 rows2,
      stored store_old rows1 ∧ stored store_new rows2
      ∧ NoDup (key_of <$> rows1) ∧ NoDup (key_of <$> rows2)
      ∧ filter (λ x, key_of x = key_of (format_item item_old)) rows1
        = [format_item item_old]
      ∧ filter (λ x, key_of x = key_of (format_item item_new)) rows2
        = [format_item item_new].
Proof.
  split; [vm_compute; reflexivity|].
  split; [vm_compute; reflexivity|].
  split; [vm_compute; reflexivity|].
  apply (export_to_csv_one_row_per_key no_files store_old store_new
           (format_item item_old) (format_item item_new));
    vm_compute; reflexivity.
Defined.

(** The scenario of the specification: the store has the row 7 with the
    title Old; the batch brings 7 with the title New and the new row 9.
    The store then has the two rows, 7 with its new title. *)
Lemma export_to_csv_scenario :
  ∃ w', export_to_csv [format_item item_new; format_item item_brand] store_old
        = (Ok tt, w')
        ∧ stored w' [format_item item_new; format_item item_brand].
Proof.
  eexists. split; [vm_compute; reflexivity|].
  eexists. split; vm_compute; reflexivity.
Qed.

(** C3 as stated fails: two records with the same key and different
    titles, merged in the two possible orders, leave different rows under
    that key. *)
Lemma export_to_csv_order_matters :
  ∃ (items items' : list Csv.row) (w1 w1' : world) d d',
    items ≡ₚ items'
    ∧ export_to_csv items no_files = (Ok tt, w1)
    ∧ export_to_csv items' no_files = (Ok tt, w1')
    ∧ merged_items items no_files = (Ok d, no_files)
    ∧ merged_items items' no_files = (Ok d', no_files)
    ∧ PyDict.get (Some "7") d = Some (format_item item_new)
    ∧ PyDict.get (Some "7") d' = Some (format_item item_old)
    ∧ PyDict.get (Some "7") d' ≠ PyDict.get (Some "7") d.
Proof.
  exists [format_item item_old; format_item item_new],
         [format_item item_new; format_item item_old].
  do 4 eexists. split; [apply Permutation_swap|].
  repeat split; try (vm_compute; reflexivity).
  vm_compute. discriminate.
Qed.

Lemma export_to_csv_order_independent_witness :
  [format_item item_new; format_item item_brand]
    ≡ₚ [format_item item_brand; format_item item_new]
  ∧ export_to_csv [format_item item_new; format_item item_brand] store_old
    = (Ok tt,
       (export_to_csv [format_item item_new; format_item item_brand]
          store_old).2)
  ∧ ∃ w1' d d',
      export_to_csv [format_item item_brand; format_item item_new] store_old
      = (Ok tt, w1')
      ∧ merged_items [format_item item_new; format_item item_brand] store_old
        = (Ok d, store_old)
      ∧ merged_items [format_item item_brand; format_item item_new] store_old
        = (Ok d', store_old)
      ∧ stored
          (export_to_csv [format_item item_new; format_item item_brand]
             store_old).2 (PyDict.values d)
      ∧ stored w1' (PyDict.values d')
      ∧ ∀ k, PyDict.get k d' = PyDict.get k d.
Proof.
  split; [apply Permutation_swap|].
  split; [vm_compute; reflexivity|].
  apply (export_to_csv_order_independent store_old _
           [format_item item_new; format_item item_brand]
           [format_item item_brand; format_item item_new]).
  - apply Permutation_swap.
  - intros r1 r2 H1 H2.
    apply elem_of_cons in H1 as [->|H1], H2 as [->|H2]; try done;
      try apply list_elem_of_singleton in H1 as ->;
      try apply list_elem_of_singleton in H2 as ->;
      try done; vm_compute; discriminate.
  - vm_compute; reflexivity.
Defined.

(** C9.  The exporter writes a carriage return inside the quoted URL as
    it is, and reads the file in text mode, where a carriage return
    becomes a line feed: the row read back has another URL than the row
    written.  It also writes a backslash as two, and reads two. *)
Theorem roundtrip_changes_carriage_return_and_backslash :
  (∃ w' d row,
     export_to_csv [format_item item_cr] no_files = (Ok tt, w')
     ∧ get_existing_items w' = (Ok d, w')
     ∧ PyDict.get (Some "1") d = Some row
     ∧ Csv.getitem "Given URL" (format_item item_cr)
       = Ok (Some (String.append "http://a/" (String Csv.CR "b")))
     ∧ Csv.getitem "Given URL" row
       = Ok (Some (String.append "http://a/" (String Csv.LF "b"))))
  ∧ (∃ w' d row,
       export_to_csv [format_item item_backslash] no_files = (Ok tt, w')
       ∧ get_existing_items w' = (Ok d, w')
       ∧ PyDict.get (Some "2") d = Some row
       ∧ Csv.getitem "Given Title" (format_item item_backslash)
         = Ok (Some "C:\temp")
       ∧ Csv.getitem "Given Title" row = Ok (Some "C:\\temp")).
Proof.
  split.
  - do 3 eexists.
    split; [vm_compute; reflexivity|].
    split; [vm_compute; reflexivity|].
    split; [vm_compute; reflexivity|].
    split; vm_compute; reflexivity.
  - do 3 eexists.
    split; [vm_compute; reflexivity|].
    split; [vm_compute; reflexivity|].
    split; [vm_compute; reflexivity|].
    split; vm_compute; reflexivity.
Qed.

(** C2.  The identifier of the record holds a backslash, and the record
    is merged twice into a directory without a CSV file.  The writer
    doubles the backslash and the reader, which has no escape character,
    does not undo it: the second call finds the first row under another
    key and writes the record beside it.  The file then has two rows for
    the record, and neither the reader nor [get_existing_items] finds a
    row under the key of the record.  With a carriage return in the
    identifier, which text mode reads as a line feed, the two rows of the
    file even read back under one and the same key. *)
Theorem export_to_csv_twice_leaves_two_rows :
  (key_of (format_item item_backslash_key) = Some (Some "a\b")
   ∧ ∃ w1 w2 text rows d,
       export_to_csv [format_item item_backslash_key] no_files = (Ok tt, w1)
       ∧ export_to_csv [format_item item_backslash_key] w1 = (Ok tt, w2)
       ∧ csv_file w2 = Some text
       ∧ Csv.DictReader text = Ok rows
       ∧ key_of <$> rows = [Some (Some "a\\\\b"); Some (Some "a\\b")]
       ∧ filter (λ row, key_of row = Some (Some "a\b")) rows = []
       ∧ get_existing_items w2 = (Ok d, w2)
       ∧ PyDict.get (Some "a\b") d = None)
  ∧ (key_of (format_item item_cr_key)
     = Some (Some (String.append "a" (String Csv.CR "b")))
     ∧ ∃ w1 w2 text rows,
         export_to_csv [format_item item_cr_key] no_files = (Ok tt, w1)
         ∧ export_to_csv [format_item item_cr_key] w1 = (Ok tt, w2)
         ∧ csv_file w2 = Some text
         ∧ Csv.DictReader text = Ok rows
         ∧ key_of <$> rows
           = [Some (Some (String.append "a" (String Csv.LF "b")));
              Some (Some (String.append "a" (String Csv.LF "b")))]
         ∧ filter (λ row, key_of row = key_of (format_item item_cr_key)) rows
           = []).
Proof.
  split.
  - split; [vm_compute; reflexivity|].
    do 5 eexists.
    split; [vm_compute; reflexivity|].
    split; [vm_compute; reflexivity|].
    split; [vm_compute; reflexivity|].
    split; [vm_compute; reflexivity|].
    split; [vm_compute; reflexivity|].
    split; [vm_compute; reflexivity|].
    split; vm_compute; reflexivity.
  - split; [vm_compute; reflexivity|].
    do 4 eexists.
    split; [vm_compute; reflexivity|].
    split; [vm_compute; reflexivity|].
    split; [vm_compute; reflexivity|].
    split; [vm_compute; reflexivity|].
    split; vm_compute; reflexivity.
Qed.

Lemma fetch_new_items_pagination_witness :
  Forall (λ p, (items_per_page ≤ length p)%nat) [full_page]
  ∧ (length [item_brand] < items_per_page)%nat
  ∧ ∃ w',
      fetch_new_items api_two_pages 200 2 no_files
      = Some (Ok (format_item <$> concat ([full_page] ++ [[item_brand]])), w')
      ∧ requests w'
        = requests no_files
            ++ page_requests (since_param (timestamp_file no_files)) 0
                 ([full_page] ++ [[item_brand]])
      ∧ length (page_requests (since_param (timestamp_file no_files)) 0
                  ([full_page] ++ [[item_brand]])) = 2
      ∧ csv_file w' = csv_file no_files.
Proof.
  assert (Forall (λ p, (items_per_page ≤ length p)%nat) [full_page]) as Hfull.
  { repeat constructor. }
  assert (length [item_brand] < items_per_page)%nat as Hshort.
  { vm_compute. lia. }
  split; [exact Hfull|]. split; [exact Hshort|].
  apply (fetch_new_items_pagination api_two_pages 200 no_files
           [full_page] [item_brand] 2 Hfull Hshort).
  - repeat constructor.
  - simpl. lia.
Defined.
End ConcreteMerge.

Section ConcreteScripts.
Import Examples.

Lemma main_processes_newest_only_witness :
  (Takeout.find_latest_takeout dropbox_dir two_takeouts).1 ≠ []
  ∧ ∃ latest,
      latest ∈ (Takeout.find_latest_takeout dropbox_dir two_takeouts).1
      ∧ (∀ f, f ∈ (Takeout.find_latest_takeout dropbox_dir two_takeouts).1 →
              String.leb f latest = true)
      ∧ (Takeout.main dropbox_dir two_takeouts).1 = [latest]
      ∧ Takeout.listing (Takeout.main dropbox_dir two_takeouts).2
        = Takeout.listing two_takeouts
      ∧ ∀ b w1,
          Takeout.process_youtube_history dropbox_dir latest two_takeouts
          = (Ok b, w1) →
          (Takeout.main dropbox_dir two_takeouts).2
          = Takeout.set_processed_pkl
              ((Takeout.find_latest_takeout dropbox_dir two_takeouts).2
                 ∪ {[latest]}) w1.
Proof.
  assert ((Takeout.find_latest_takeout dropbox_dir two_takeouts).1 ≠ [])
    as Hne by (vm_compute; discriminate).
  split; [exact Hne|].
  exact (main_processes_newest_only dropbox_dir two_takeouts Hne).
Defined.

(** The scenario of the specification: [takeout-2.zip] and
    [takeout-1.zip], nothing processed yet.  The run processes
    [takeout-2.zip] alone and the pickled set holds its path alone. *)
Lemma main_two_takeouts :
  ∃ w',
    Takeout.main dropbox_dir two_takeouts
    = ([Takeout.path_join dropbox_dir "takeout-2.zip"], w')
    ∧ Takeout.processed_pkl w'
      = Some {[Takeout.path_join dropbox_dir "takeout-2.zip"]}
    ∧ Takeout.temp_extract w' = None
    ∧ Takeout.output_csv w'
      = Some [ ["time"; "videoId"; "source"];
               ["2024-01-02T03:04:05Z"; "abc"; "youtube"];
               ["2024-01-01T00:00:00Z"; "xyz"; "music"] ].
Proof.
  eexists. split; [vm_compute; reflexivity|].
  split; [vm_compute; reflexivity|].
  split; vm_compute; reflexivity.
Qed.

(** C6.  The archive has a watch-history member that is not JSON:
    [process_youtube_history] raises after the extraction, and the
    temporary directory is still there, with the extracted file in it. *)
Theorem process_youtube_history_leaves_temp_dir :
  ∃ w',
    Takeout.process_youtube_history dropbox_dir
      (Takeout.path_join dropbox_dir "takeout-1.zip") broken_takeout
    = (Raise JSONDecodeError, w')
    ∧ Takeout.temp_extract broken_takeout = None
    ∧ Takeout.temp_extract w'
      = Some [(Takeout.member_name broken_member, None)].
Proof.
  eexists. split; [vm_compute; reflexivity|].
  split; vm_compute; reflexivity.
Qed.

(** C7 as stated fails for a tag that ends with a character that is not
    a word character: ["c++"] stands between two spaces in the text, and
    the pattern does not match, since [\b] after the last [+] asks for a
    word character next to it. *)
Lemma find_matching_tags_misses_whole_word :
  whole_word Tagger.ascii_word "c++" "i like c++ a lot"
  ∧ Tagger.find_matching_tags Tagger.ascii_word "i like c++ a lot" {["c++"]}
    = ∅
  ∧ ¬ (∀ (text : string) (tags : gset string) (s : string),
         s ∈ Tagger.find_matching_tags Tagger.ascii_word text tags
         ↔ ∃ tag, tag ∈ tags ∧ s = String "*" tag
                  ∧ whole_word Tagger.ascii_word tag text).
Proof.
  assert (whole_word Tagger.ascii_word "c++" "i like c++ a lot") as Hw.
  { exists (PyStr.chars "i like "), (PyStr.chars " a lot").
    split; [reflexivity|]. split; reflexivity. }
  assert (Tagger.find_matching_tags Tagger.ascii_word "i like c++ a lot"
            {["c++"]} = ∅) as He by (vm_compute; reflexivity).
  split; [exact Hw|]. split; [exact He|].
  intros H.
  assert ("*c++" ∈ Tagger.find_matching_tags Tagger.ascii_word
                     "i like c++ a lot" {["c++"]}) as Hin.
  { apply H. exists "c++". split; [by apply elem_of_singleton|].
    split; [reflexivity|exact Hw]. }
  rewrite He in Hin. by apply not_elem_of_empty in Hin.
Qed.

Lemma find_matching_tags_whole_words_witness :
  (∀ tag, tag ∈ ({["cat"]} : gset string) →
          word_edges Tagger.ascii_word tag)
  ∧ ∀ s, s ∈ Tagger.find_matching_tags Tagger.ascii_word "the cat sat"
               {["cat"]}
         ↔ ∃ tag, tag ∈ ({["cat"]} : gset string) ∧ s = String "*" tag
                  ∧ whole_word Tagger.ascii_word tag "the cat sat".
Proof.
  assert (∀ tag, tag ∈ ({["cat"]} : gset string) →
                 word_edges Tagger.ascii_word tag) as Hedges.
  { intros tag ->%elem_of_singleton. split; reflexivity. }
  split; [exact Hedges|].
  exact (find_matching_tags_whole_words Tagger.ascii_word "the cat sat"
           {["cat"]} Hedges).
Defined.

(** The two examples of the specification. *)
Lemma find_matching_tags_cat :
  Tagger.find_matching_tags Tagger.ascii_word "cats are great" {["cat"]} = ∅
  ∧ Tagger.find_matching_tags Tagger.ascii_word "the cat sat" {["cat"]}
    = {["*cat"]}.
Proof. split; vm_compute; reflexivity. Qed.

Lemma clean_and_unfavorite_items_spec_witness :
  Forall (λ page : list Pocket.raw_item, page ≠ []) [[favorited_item]]
  ∧ Forall (Forall (λ item,
              is_Some (PyDict.get "item_id" (Pocket.attrs item))))
      [[favorited_item]]
  ∧ Untag.clean_and_unfavorite_items
      (serve [[favorited_item]] ++ Untag.mk_replies (Ok []) (Ok tt) :: [])
    = (Untag.Returned, flat_map cleanup_actions <$> [[favorited_item]]).
Proof.
  assert (Forall (λ page : list Pocket.raw_item, page ≠ [])
            [[favorited_item]]) as Hne by (repeat constructor; done).
  assert (Forall (Forall (λ item,
                    is_Some (PyDict.get "item_id" (Pocket.attrs item))))
            [[favorited_item]]) as Hids.
  { repeat constructor. by eexists. }
  split; [exact Hne|]. split; [exact Hids|].
  exact (clean_and_unfavorite_items_spec [[favorited_item]] (Ok tt) []
           Hne Hids).
Defined.

(** What the pass sends for the favorited item: the one tag without the
    sentinel, and the unfavorite. *)
Lemma clean_and_unfavorite_items_example :
  Untag.clean_and_unfavorite_items
    [Untag.mk_replies (Ok [favorited_item]) (Ok tt);
     Untag.mk_replies (Ok []) (Ok tt)]
  = (Untag.Returned,
     [[Untag.tags_replace (Pocket.JStr "5") "keep";
       Untag.unfavorite (Pocket.JStr "5")]]).
Proof. vm_compute. reflexivity. Qed.

Lemma process_history_rewrites_output_witness :
  cache_wf (YtMetadata.metadata_cache stale_output)
  ∧ YtMetadata.input_csv stale_output = Some ["new1"; "old1"]
  ∧ YtMetadata.new_videos stale_output ["new1"; "old1"] ≠ ∅
  ∧ YtMetadata.process_history videos_list stale_output
    = (Ok tt, (YtMetadata.process_history videos_list stale_output).2)
  ∧ YtMetadata.output_csv
      (YtMetadata.process_history videos_list stale_output).2
    = Some (PyDict.values
              (YtMetadata.metadata_cache
                 (YtMetadata.process_history videos_list stale_output).2))
  ∧ metadata_of "gone"
    ∉ default [] (YtMetadata.output_csv
                    (YtMetadata.process_history videos_list stale_output).2).
Proof.
  assert (cache_wf (YtMetadata.metadata_cache stale_output)) as Hwf
    by (repeat constructor).
  assert (YtMetadata.new_videos stale_output ["new1"; "old1"] ≠ ∅) as Hnew.
  { intros He.
    assert (bool_decide
              ("new1" ∈ YtMetadata.new_videos stale_output ["new1"; "old1"])
            = true) as Hin by (vm_compute; reflexivity).
    apply bool_decide_eq_true in Hin.
    rewrite He in Hin. by apply not_elem_of_empty in Hin. }
  assert (YtMetadata.process_history videos_list stale_output
          = (Ok tt, (YtMetadata.process_history videos_list stale_output).2))
    as Hrun by (vm_compute; reflexivity).
  destruct (process_history_rewrites_output videos_list stale_output _
              ["new1"; "old1"] Hwf eq_refl Hnew Hrun) as (_ & Hout & Hdrop).
  split; [exact Hwf|]. split; [reflexivity|]. split; [exact Hnew|].
  split; [exact Hrun|]. split; [exact Hout|].
  apply Hdrop.
  - apply elem_of_cons. by left.
  - assert (bool_decide
              (YtMetadata.videoId (metadata_of "gone")
               ∈ PyDict.keys
                   (YtMetadata.metadata_cache
                      (YtMetadata.process_history videos_list
                         stale_output).2)) = false) as Hkey
      by (vm_compute; reflexivity).
    by apply bool_decide_eq_false in Hkey.
Defined.
End ConcreteScripts.


(** * Further properties of pocket_to_csv.py *)
Section ExporterMore.
Import Pocket PocketExporter.

Lemma format_item_shape item :
  PyDict.keys (Csv.fields (format_item item)) = headers
  ∧ Csv.rest (format_item item) = None
  ∧ Forall (λ kv, is_Some kv.2) (Csv.fields (format_item item)).
Proof.
  split; [reflexivity|]. split; [reflexivity|].
  unfold format_item. cbn [Csv.fields]. repeat constructor; by eexists.
Qed.

Lemma format_item_dict_to_list item :
  is_ok (Csv.dict_to_list headers (format_item item)) = true.
Proof. reflexivity. Qed.

Lemma format_item_key item :
  key_of (format_item item) = Some (Some (str (get "item_id" (JStr "") item))).
Proof. reflexivity. Qed.

Lemma merge_items_values (P : Csv.row → Prop) items d d' :
  Forall P (PyDict.values d) → Forall P items →
  merge_items d items = Ok d' → Forall P (PyDict.values d').
Proof.
  revert d. induction items as [|r items IH]; intros d Hd Hitems; simpl.
  - by intros [= <-].
  - apply Forall_cons in Hitems as [Hr Hitems].
    destruct (Csv.getitem "Item ID" r) as [k|e]; [|done].
    apply IH; [|done]. apply Forall_forall. intros v Hv.
    apply list_elem_of_fmap in Hv as ([k' v'] & -> & Hin).
    apply elem_of_set in Hin as [[= _ ->]|Hin]; [done|].
    eapply Forall_forall in Hd; [exact Hd|].
    apply list_elem_of_fmap. by exists (k', v').
Qed.

(** X1.  Formatted items have exactly the columns of the header, so the
    first export, into a directory without a CSV file, cannot fail: the
    file is created and holds the merged items. *)
Theorem export_to_csv_first_export (items : list raw_item) (w : world) :
  csv_file w = None →
  ∃ w' d,
    export_to_csv (format_item <$> items) w = (Ok tt, w')
    ∧ merge_items [] (format_item <$> items) = Ok d
    ∧ stored w' (PyDict.values d)
    ∧ timestamp_file w' = timestamp_file w.
Proof.
  intros Hnone.
  pose proof (merge_items_is_ok [] (format_item <$> items)) as Hok.
  assert (forallb (λ r, bool_decide (is_Some (key_of r)))
            (format_item <$> items) = true) as Hall.
  { apply forallb_forall. intros r Hr%list_elem_of_In.
    apply list_elem_of_fmap in Hr as (item & -> & _).
    apply bool_decide_eq_true. rewrite format_item_key. by eexists. }
  rewrite Hall in Hok.
  destruct (merge_items [] (format_item <$> items)) as [d|] eqn:Hm; [|done].
  pose proof (write_file_is_ok headers (PyDict.values d)) as Hwok.
  assert (forallb (λ r, is_ok (Csv.dict_to_list headers r)) (PyDict.values d)
          = true) as Hrows.
  { apply forallb_forall. intros r Hr%list_elem_of_In.
    assert (Forall (λ r, ∃ item, r = format_item item) (PyDict.values d))
      as Hfmt.
    { eapply merge_items_values; [|  |exact Hm]; [constructor|].
      apply Forall_forall. intros r' Hr'.
      apply list_elem_of_fmap in Hr' as (item & -> & _). by exists item. }
    eapply Forall_forall in Hfmt; [|exact Hr]. destruct Hfmt as [item ->].
    apply format_item_dict_to_list. }
  rewrite Hrows in Hwok.
  destruct (Csv.write_file headers (PyDict.values d)) as [text|] eqn:Hw;
    [|done].
  exists (set_csv_file text w), d.
  split.
  - unfold export_to_csv, merged_items, get_existing_items, bind, lift, modify.
    by rewrite Hnone, Hm, Hw.
  - split; [done|]. split; [by exists text|done].
Qed.

Lemma export_to_csv_Raise_inv (items : list Csv.row) (w w' : world) (e : exn) :
  export_to_csv items w = (Raise e, w') → w' = w.
Proof.
  unfold export_to_csv, merged_items, bind, lift, modify.
  destruct (get_existing_items w) as [[existing|e0] w0] eqn:Hex.
  - destruct (get_existing_items_inv _ _ _ Hex) as [-> _].
    destruct (merge_items existing items) as [d|e1]; [|by intros [= _ <-]].
    destruct (Csv.write_file headers (PyDict.values d)); [done|].
    by intros [= _ <-].
  - intros [= _ <-]. unfold get_existing_items in Hex.
    destruct (csv_file w) as [text|]; [|done].
    destruct (Csv.DictReader text); [|by injection Hex].
    by injection Hex.
Qed.

(** X2.  A call of [export_to_csv] that raises leaves every file as it
    was, the CSV file being replaced only at the end of a complete write;
    and the exception is that of the step that failed: reading the
    existing file, merging a record without the key column, or writing a
    row the writer refuses. *)
Theorem export_to_csv_failure_changes_nothing (items : list Csv.row)
    (w w' : world) (e : exn) :
  export_to_csv items w = (Raise e, w') →
  w' = w
  ∧ (get_existing_items w = (Raise e, w)
     ∨ ∃ existing,
         get_existing_items w = (Ok existing, w)
         ∧ (merge_items existing items = Raise e
            ∨ ∃ d, merge_items existing items = Ok d
                   ∧ Csv.write_file headers (PyDict.values d) = Raise e)).
Proof.
  unfold export_to_csv, merged_items, bind, lift, modify.
  destruct (get_existing_items w) as [[existing|e0] w0] eqn:Hex.
  - destruct (get_existing_items_inv _ _ _ Hex) as [-> _].
    destruct (merge_items existing items) as [d|e1] eqn:Hm.
    + destruct (Csv.write_file headers (PyDict.values d)) as [text|e2] eqn:Hw;
        [done|].
      intros [= <- <-]. split; [done|]. right. exists existing.
      split; [done|]. right. by exists d.
    + intros [= <- <-]. split; [done|]. right. exists existing.
      split; [done|]. by left.
  - intros [= <- <-].
    assert (w0 = w) as ->.
    { unfold get_existing_items in Hex.
      destruct (csv_file w) as [text|]; [|done].
      destruct (Csv.DictReader text); by injection Hex. }
    split; [done|]. by left.
Qed.

Lemma keys_set_prefix {K V} `{EqDecision K} (k : K) (v : V) (d : list (K * V)) :
  PyDict.keys d `prefix_of` PyDict.keys (PyDict.set k v d).
Proof.
  rewrite keys_set. case_bool_decide; [done|]. by apply prefix_app_r.
Qed.

Lemma merge_items_keys_prefix items d d' :
  merge_items d items = Ok d' → PyDict.keys d `prefix_of` PyDict.keys d'.
Proof.
  revert d. induction items as [|r items IH]; intros d; simpl.
  - by intros [= <-].
  - destruct (Csv.getitem "Item ID" r) as [k|e]; [|done]. intros Hm.
    etrans; [apply (keys_set_prefix k r)|]. by apply IH.
Qed.

(** X3.  A merge loses no row: the rows of the store whose key is not a
    key of the batch are kept as they are, and the keys that were in the
    store keep their order at the head of the new store, the new keys
    following them. *)
Theorem export_to_csv_keeps_other_rows (items : list Csv.row) (w w' : world) :
  export_to_csv items w = (Ok tt, w') →
  ∃ existing merged,
    get_existing_items w = (Ok existing, w)
    ∧ stored w' (PyDict.values merged)
    ∧ PyDict.keys existing `prefix_of` PyDict.keys merged
    ∧ ∀ k, last_with_key k items = None →
           PyDict.get k merged = PyDict.get k existing.
Proof.
  intros (d & Hm & Hst)%export_to_csv_stored.
  destruct (merged_items_inv _ _ _ _ Hm) as (ex & Hex & Hmerge & _ & _).
  exists ex, d. split; [done|]. split; [done|]. split.
  - by eapply merge_items_keys_prefix.
  - intros k Hk. by rewrite (merge_items_get _ _ _ k Hmerge), Hk.
Qed.
End ExporterMore.

Section RunMore.
Import Pocket PocketExporter.
Variable api_get : option Z → nat → result (list raw_item).
Variable current_time : Z.

Lemma fetch_loop_files fuel since offset all_items w r w' :
  fetch_loop api_get fuel since offset all_items w = Some (r, w') →
  csv_file w' = csv_file w ∧ timestamp_file w' = timestamp_file w.
Proof.
  revert offset all_items w. induction fuel as [|fuel IH];
    intros offset all_items w; [done|].
  cbn [fetch_loop]. unfold fetch_page, bind, modify, lift, ret.
  destruct (api_get _ offset) as [items|e]; cbn [log_request].
  - match goal with
    | |- context [Nat.leb ?a ?b] => destruct (Nat.leb a b)
    end.
    + intros H. by destruct (IH _ _ _ H) as [-> ->].
    + by intros [= _ <-].
  - by intros [= _ <-].
Qed.

Lemma fetch_new_items_files fuel w r w' :
  fetch_new_items api_get current_time fuel w = Some (r, w') →
  csv_file w' = csv_file w
  ∧ match r with
    | Ok (_ :: _) => timestamp_file w' = Some current_time
    | _ => timestamp_file w' = timestamp_file w
    end.
Proof.
  unfold fetch_new_items, get_last_update_time, gets.
  destruct (fetch_loop api_get fuel (timestamp_file w) 0 [] w)
    as [[[all_items|e] w1]|] eqn:Hloop; [| |done].
  - destruct (fetch_loop_files _ _ _ _ _ _ _ Hloop) as [Hc Ht].
    destruct all_items as [|item all_items].
    + by intros [= <- <-].
    + unfold bind, save_last_update_time, modify, ret. by intros [= <- <-].
  - destruct (fetch_loop_files _ _ _ _ _ _ _ Hloop) as [Hc Ht].
    by intros [= <- <-].
Qed.

(** X4.  Whatever the service answers, a run that does not return
    normally leaves the CSV file untouched. *)
Theorem run_failure_keeps_csv (fuel : nat) (w w' : world) (e : exn) :
  run api_get current_time fuel w = Some (Raise e, w') →
  csv_file w' = csv_file w.
Proof.
  unfold run.
  destruct (fetch_new_items api_get current_time fuel w)
    as [[[new_items|e0] w1]|] eqn:Hf; [| |done].
  - destruct (fetch_new_items_files _ _ _ _ Hf) as [Hc _].
    destruct new_items as [|item new_items]; [done|].
    intros [= He]. apply export_to_csv_Raise_inv in He.
    by subst.
  - destruct (fetch_new_items_files _ _ _ _ Hf) as [Hc _].
    by intros [= _ <-].
Qed.

Lemma get_existing_items_same_csv (w1 w : world)
    (existing : list (option string * Csv.row)) :
  csv_file w1 = csv_file w →
  get_existing_items w1 = (Ok existing, w1) →
  get_existing_items w = (Ok existing, w).
Proof.
  unfold get_existing_items. intros ->.
  destruct (csv_file w) as [text|]; [|by intros [= <-]].
  destruct (Csv.DictReader text) as [rows|e]; [|done].
  by intros [= ->].
Qed.

(** X5.  A run that returns normally has fetched without error.  Either
    it fetched no item, and it ends in the state the fetch left, with the
    CSV file and the timestamp file as they were; or it fetched items, and
    then the CSV file holds the rows of the merge of these items into the
    rows read from the file, and the timestamp file holds the time at
    which the run started. *)
Theorem run_success_moves_both_files (fuel : nat) (w w' : world) :
  run api_get current_time fuel w = Some (Ok tt, w') →
  ∃ new_items w1,
    fetch_new_items api_get current_time fuel w = Some (Ok new_items, w1)
    ∧ ((new_items = [] ∧ w' = w1
        ∧ csv_file w' = csv_file w ∧ timestamp_file w' = timestamp_file w)
       ∨ (new_items ≠ []
          ∧ timestamp_file w' = Some current_time
          ∧ ∃ existing merged,
              get_existing_items w = (Ok existing, w)
              ∧ merge_items existing new_items = Ok merged
              ∧ stored w' (PyDict.values merged))).
Proof.
  unfold run.
  destruct (fetch_new_items api_get current_time fuel w)
    as [[[new_items|e0] w1]|] eqn:Hf; [| |done].
  - destruct (fetch_new_items_files _ _ _ _ Hf) as [Hc Ht].
    destruct new_items as [|item new_items].
    + intros [= <-]. exists [], w1. split; [done|]. by left.
    + intros [= He]. exists (item :: new_items), w1. split; [done|].
      right. split; [done|].
      destruct (export_to_csv_inv _ _ _ He) as (d & text & Hm & Hw & ->).
      split; [done|].
      destruct (merged_items_inv _ _ _ _ Hm) as (ex & Hex & Hmerge & _ & _).
      exists ex, d. split; [by eapply get_existing_items_same_csv|].
      split; [done|]. by exists text.
  - done.
Qed.

(** X6.  The service fails on some page after answering the earlier
    requests with full pages: the run raises the error of the service, and
    neither the CSV file nor the timestamp file has changed. *)
Theorem run_transport_failure (w : world) (pages : list (list raw_item))
    (e : exn) (fuel : nat) :
  Forall (λ p, (items_per_page ≤ length p)%nat) pages →
  Forall2 (λ rq p, api_get rq.1 rq.2 = Ok p)
    (page_requests (since_param (timestamp_file w)) 0 pages) pages →
  api_get (since_param (timestamp_file w)) (length (concat pages)) = Raise e →
  (length pages < fuel)%nat →
  ∃ w', run api_get current_time fuel w = Some (Raise e, w')
        ∧ csv_file w' = csv_file w
        ∧ timestamp_file w' = timestamp_file w.
Proof.
  intros Hfull Hapi Herr Hfuel.
  assert (∀ offset all_items w0 fuel0,
            Forall2 (λ rq p, api_get rq.1 rq.2 = Ok p)
              (page_requests (since_param (timestamp_file w)) offset pages)
              pages →
            api_get (since_param (timestamp_file w))
              (offset + length (concat pages)) = Raise e →
            (length pages < fuel0)%nat →
            ∃ w1, fetch_loop api_get fuel0 (timestamp_file w) offset all_items w0
                  = Some (Raise e, w1)) as Hloop.
  { clear Hapi Herr Hfuel.
    induction Hfull as [|p pages Hp Hfull IH];
      intros offset all_items w0 fuel0 Hapi Herr Hfuel.
    - destruct fuel0 as [|fuel0]; [simpl in Hfuel; lia|].
      cbn [fetch_loop]. unfold fetch_page, bind, modify, lift, ret.
      fold (since_param (timestamp_file w)).
      simpl in Herr. rewrite Nat.add_0_r in Herr. rewrite Herr.
      by eexists.
    - destruct fuel0 as [|fuel0]; [simpl in Hfuel; lia|].
      simpl in Hapi. apply Forall2_cons_1 in Hapi as [Hpage Hrest].
      simpl in Hpage.
      cbn [fetch_loop]. unfold fetch_page, bind, modify, lift, ret.
      fold (since_param (timestamp_file w)). rewrite Hpage.
      rewrite length_map.
      replace (Nat.leb items_per_page (length p)) with true
        by (symmetry; apply Nat.leb_le; lia).
      apply IH; [done| |simpl in Hfuel; lia].
      simpl in Herr. rewrite length_app in Herr.
      by rewrite <- Nat.add_assoc. }
  destruct (Hloop 0 [] w fuel Hapi Herr Hfuel) as [w1 Hw1].
  destruct (fetch_loop_files _ _ _ _ _ _ _ Hw1) as [Hc Ht].
  exists w1. unfold run, fetch_new_items, get_last_update_time, gets.
  by rewrite Hw1.
Qed.
End RunMore.

Section ExporterWitnesses.
Import Pocket PocketExporter Examples.

Lemma export_to_csv_first_export_witness :
  csv_file no_files = None
  ∧ ∃ w' d,
      export_to_csv (format_item <$> [item_old; item_brand]) no_files
      = (Ok tt, w')
      ∧ merge_items [] (format_item <$> [item_old; item_brand]) = Ok d
      ∧ stored w' (PyDict.values d)
      ∧ timestamp_file w' = timestamp_file no_files.
Proof.
  split; [reflexivity|].
  exact (export_to_csv_first_export [item_old; item_brand] no_files eq_refl).
Defined.

Lemma export_to_csv_failure_changes_nothing_witness :
  export_to_csv [format_item item_new] store_with_notes
  = (Raise ValueError,
     (export_to_csv [format_item item_new] store_with_notes).2)
  ∧ (export_to_csv [format_item item_new] store_with_notes).2
    = store_with_notes
  ∧ (get_existing_items store_with_notes
     = (Raise ValueError, store_with_notes)
     ∨ ∃ existing,
         get_existing_items store_with_notes = (Ok existing, store_with_notes)
         ∧ (merge_items existing [format_item item_new] = Raise ValueError
            ∨ ∃ d, merge_items existing [format_item item_new] = Ok d
                   ∧ Csv.write_file headers (PyDict.values d)
                     = Raise ValueError)).
Proof.
  assert (export_to_csv [format_item item_new] store_with_notes
          = (Raise ValueError,
             (export_to_csv [format_item item_new] store_with_notes).2))
    as Hrun by (vm_compute; reflexivity).
  split; [exact Hrun|].
  exact (export_to_csv_failure_changes_nothing _ _ _ _ Hrun).
Defined.

Lemma export_to_csv_keeps_other_rows_witness :
  export_to_csv [format_item item_brand] store_old
  = (Ok tt, (export_to_csv [format_item item_brand] store_old).2)
  ∧ ∃ existing merged,
      get_existing_items store_old = (Ok existing, store_old)
      ∧ stored (export_to_csv [format_item item_brand] store_old).2
          (PyDict.values merged)
      ∧ PyDict.keys existing `prefix_of` PyDict.keys merged
      ∧ ∀ k, last_with_key k [format_item item_brand] = None →
             PyDict.get k merged = PyDict.get k existing.
Proof.
  assert (export_to_csv [format_item item_brand] store_old
          = (Ok tt, (export_to_csv [format_item item_brand] store_old).2))
    as Hrun by (vm_compute; reflexivity).
  split; [exact Hrun|].
  exact (export_to_csv_keeps_other_rows _ _ _ Hrun).
Defined.

Lemma run_failure_keeps_csv_witness :
  run api_one_item 200 2 store_with_notes
  = Some (Raise ValueError,
          default store_with_notes
            (snd <$> run api_one_item 200 2 store_with_notes))
  ∧ csv_file (default store_with_notes
                (snd <$> run api_one_item 200 2 store_with_notes))
    = csv_file store_with_notes.
Proof.
  assert (run api_one_item 200 2 store_with_notes
          = Some (Raise ValueError,
                  default store_with_notes
                    (snd <$> run api_one_item 200 2 store_with_notes)))
    as Hrun by (vm_compute; reflexivity).
  split; [exact Hrun|].
  exact (run_failure_keeps_csv api_one_item 200 2 _ _ _ Hrun).
Defined.

Lemma run_success_moves_both_files_witness :
  run api_one_item 200 2 no_files
  = Some (Ok tt, default no_files (snd <$> run api_one_item 200 2 no_files))
  ∧ ∃ new_items w1,
      fetch_new_items api_one_item 200 2 no_files = Some (Ok new_items, w1)
      ∧ ((new_items = []
          ∧ default no_files (snd <$> run api_one_item 200 2 no_files) = w1
          ∧ csv_file
              (default no_files (snd <$> run api_one_item 200 2 no_files))
            = csv_file no_files
          ∧ timestamp_file
              (default no_files (snd <$> run api_one_item 200 2 no_files))
            = timestamp_file no_files)
         ∨ (new_items ≠ []
            ∧ timestamp_file
                (default no_files (snd <$> run api_one_item 200 2 no_files))
              = Some 200%Z
            ∧ ∃ existing merged,
                get_existing_items no_files = (Ok existing, no_files)
                ∧ merge_items existing new_items = Ok merged
                ∧ stored
                    (default no_files
                       (snd <$> run api_one_item 200 2 no_files))
                    (PyDict.values merged))).
Proof.
  assert (run api_one_item 200 2 no_files
          = Some (Ok tt,
                  default no_files (snd <$> run api_one_item 200 2 no_files)))
    as Hrun by (vm_compute; reflexivity).
  split; [exact Hrun|].
  exact (run_success_moves_both_files api_one_item 200 2 _ _ Hrun).
Defined.

Lemma run_transport_failure_witness :
  Forall (λ p, (items_per_page ≤ length p)%nat) [full_page]
  ∧ Forall2 (λ rq p, api_page_then_error rq.1 rq.2 = Ok p)
      (page_requests (since_param (timestamp_file store_old)) 0 [full_page])
      [full_page]
  ∧ api_page_then_error (since_param (timestamp_file store_old))
      (length (concat [full_page])) = Raise HTTPError
  ∧ (length [full_page] < 5)%nat
  ∧ ∃ w', run api_page_then_error 200 5 store_old = Some (Raise HTTPError, w')
          ∧ csv_file w' = csv_file store_old
          ∧ timestamp_file w' = timestamp_file store_old.
Proof.
  assert (Forall (λ p, (items_per_page ≤ length p)%nat) [full_page]) as Hfull.
  { repeat constructor. }
  assert (Forall2 (λ rq p, api_page_then_error rq.1 rq.2 = Ok p)
            (page_requests (since_param (timestamp_file store_old)) 0
               [full_page]) [full_page]) as Hapi.
  { repeat constructor. }
  assert (length [full_page] < 5)%nat as Hfuel by (simpl; lia).
  split; [exact Hfull|]. split; [exact Hapi|]. split; [reflexivity|].
  split; [exact Hfuel|].
  exact (run_transport_failure api_page_then_error 200 store_old [full_page]
           HTTPError 5 Hfull Hapi eq_refl Hfuel).
Defined.
End ExporterWitnesses.


(** * Strings: splitting, joining, sorting, cleaning *)
Section StringsMore.

Lemma chars_app (a b : string) :
  PyStr.chars (a +:+ b) = PyStr.chars a ++ PyStr.chars b.
Proof. induction a as [|c a IH]; simpl; [done|]. by rewrite IH. Qed.

Lemma chars_of_chars (l : list ascii) : PyStr.chars (PyStr.of_chars l) = l.
Proof. apply list_ascii_of_string_of_list_ascii. Qed.

Lemma of_chars_chars (s : string) : PyStr.of_chars (PyStr.chars s) = s.
Proof. apply string_of_list_ascii_of_string. Qed.

Lemma append_empty_r (x : string) : x +:+ "" = x.
Proof.
  induction x as [|a x IH]; [done|].
  change (String a (x +:+ "") = String a x). by rewrite IH.
Qed.

Lemma split_aux_free (c : ascii) (x s : string) (cur : list ascii) :
  c ∉ PyStr.chars x →
  PyStr.split_aux (String c "") 0 cur (x +:+ s)
  = PyStr.split_aux (String c "") 0 (rev (PyStr.chars x) ++ cur) s.
Proof.
  revert cur. induction x as [|a x IH]; intros cur Hfree; [done|].
  change (String a x +:+ s) with (String a (x +:+ s)).
  cbn [PyStr.split_aux].
  change (String.prefix (String c "") (String a (x +:+ s)))
    with (if ascii_dec c a then String.prefix "" (x +:+ s) else false).
  destruct (ascii_dec c a) as [->|Hne].
  - exfalso. apply Hfree. by left.
  - rewrite IH.
    + cbn [PyStr.chars list_ascii_of_string rev]. by rewrite <- app_assoc.
    + intros Hin. apply Hfree. by right.
Qed.

Lemma split_aux_sep (c : ascii) (s : string) (cur : list ascii) :
  PyStr.split_aux (String c "") 0 cur (String c s)
  = PyStr.of_chars (rev cur) :: PyStr.split_aux (String c "") 0 [] s.
Proof.
  cbn [PyStr.split_aux].
  change (String.prefix (String c "") (String c s))
    with (if ascii_dec c c then String.prefix "" s else false).
  destruct (ascii_dec c c) as [_|Hne]; [|done]. by destruct s.
Qed.

(** Splitting at a one-character separator undoes joining with it:
    [sep.join(parts).split(sep)] gives back [parts], for a list that is not
    empty and whose strings do not hold the separator. *)
Lemma split_join (c : ascii) (parts : list string) :
  parts ≠ [] →
  Forall (λ part, c ∉ PyStr.chars part) parts →
  PyStr.split (String c "") (PyStr.join (String c "") parts) = parts.
Proof.
  intros Hne Hfree. unfold PyStr.split, PyStr.join.
  induction Hfree as [|x parts Hx Hfree IH]; [done|].
  destruct parts as [|y parts].
  - cbn [String.concat].
    pose proof (split_aux_free c x "" [] Hx) as Hs.
    rewrite append_empty_r in Hs.
    rewrite Hs. simpl.
    by rewrite app_nil_r, rev_involutive, of_chars_chars.
  - change (String.concat (String c "") (x :: y :: parts))
      with (x +:+ String c (String.concat (String c "") (y :: parts))).
    rewrite (split_aux_free c x _ [] Hx), split_aux_sep.
    rewrite app_nil_r, rev_involutive, of_chars_chars. f_equal.
    by apply IH.
Qed.

(** No piece of a split at a one-character separator holds the
    separator. *)
Lemma split_aux_pieces (c : ascii) (s : string) (cur : list ascii) :
  c ∉ cur →
  Forall (λ piece, c ∉ PyStr.chars piece)
    (PyStr.split_aux (String c "") 0 cur s).
Proof.
  revert cur. induction s as [|a s IH]; intros cur Hcur.
  - cbn [PyStr.split_aux]. constructor; [|constructor].
    rewrite chars_of_chars. intros Hin. apply Hcur.
      by apply list_elem_of_In, in_rev, list_elem_of_In.
  - cbn [PyStr.split_aux].
    change (String.prefix (String c "") (String a s))
      with (if ascii_dec c a then String.prefix "" s else false).
    destruct (ascii_dec c a) as [->|Hne].
    + replace (String.prefix "" s) with true by (by destruct s).
      constructor.
      * rewrite chars_of_chars. intros Hin. apply Hcur.
      by apply list_elem_of_In, in_rev, list_elem_of_In.
      * apply IH. apply not_elem_of_nil.
    + apply IH. intros [?|?]%elem_of_cons; [by subst|done].
Qed.

Lemma split_pieces (c : ascii) (s : string) :
  Forall (λ piece, c ∉ PyStr.chars piece) (PyStr.split (String c "") s).
Proof. apply split_aux_pieces, not_elem_of_nil. Qed.
End StringsMore.


Section SortedMore.

Lemma insert_asc_perm x l : PyStr.insert_asc x l ≡ₚ x :: l.
Proof.
  induction l as [|y l IH]; simpl; [done|].
  destruct (String.leb x y); [done|]. rewrite IH. apply Permutation_swap.
Qed.

Lemma sorted_perm l : PyStr.sorted l ≡ₚ l.
Proof.
  induction l as [|x l IH]; simpl; [done|]. by rewrite insert_asc_perm, IH.
Qed.

Lemma insert_asc_ascending x l : ascending l → ascending (PyStr.insert_asc x l).
Proof.
  induction 1 as [|y l Hy Hl IH]; simpl.
  - by repeat constructor.
  - destruct (String.leb x y) eqn:Hxy.
    + constructor; [|by constructor]. constructor; [done|].
      eapply Forall_impl; [exact Hy|]. simpl. intros z Hz.
      by eapply string_leb_trans.
    + constructor; [|done]. apply Forall_forall. intros z Hz.
      rewrite insert_asc_perm in Hz. apply elem_of_cons in Hz as [->|Hz].
      * destruct (String.leb_total x y) as [?|?]; [congruence|done].
      * by eapply Forall_forall in Hy.
Qed.

Lemma sorted_ascending l : ascending (PyStr.sorted l).
Proof.
  induction l as [|x l IH]; simpl; [constructor|].
  by apply insert_asc_ascending.
Qed.

Lemma ascending_unique l l' :
  ascending l → ascending l' → l ≡ₚ l' → l = l'.
Proof.
  intros Hl. revert l'. induction Hl as [|x l Hx Hl IH]; intros l' Hl' Hp.
  - by apply Permutation_nil_l in Hp.
  - destruct Hl' as [|x' l' Hx' Hl'].
    + by apply Permutation_nil_r in Hp.
    + assert (x = x') as <-.
      { assert (x ∈ x' :: l') as H1 by (rewrite <- Hp; by left).
        assert (x' ∈ x :: l) as H2 by (rewrite Hp; by left).
        apply elem_of_cons in H1 as [?|H1]; [done|].
        apply elem_of_cons in H2 as [?|H2]; [done|].
        apply String.leb_antisym.
        - by eapply Forall_forall in Hx.
        - by eapply Forall_forall in Hx'. }
      f_equal. apply IH; [done|]. by eapply Permutation_cons_inv.
Qed.

(** [sorted] puts a list in ascending order without losing or inventing
    an element, and its result depends on the elements only, not on the
    order in which they come. *)
Lemma sorted_canonical (l l' : list string) :
  l ≡ₚ l' →
  PyStr.sorted l = PyStr.sorted l'
  ∧ ascending (PyStr.sorted l) ∧ PyStr.sorted l ≡ₚ l.
Proof.
  intros Hp. split; [|split; [apply sorted_ascending|apply sorted_perm]].
  apply ascending_unique; [apply sorted_ascending..|].
  by rewrite !sorted_perm.
Qed.

(** X7.  The row of an item does not depend on the order in which the
    reply lists the item's tags. *)
Theorem format_item_tags_order (item item' : Pocket.raw_item) :
  Pocket.attrs item = Pocket.attrs item' →
  Pocket.tags item ≡ₚ Pocket.tags item' →
  PocketExporter.format_item item = PocketExporter.format_item item'.
Proof.
  destruct item as [attrs tags], item' as [attrs' tags'].
  cbn [Pocket.attrs Pocket.tags]. intros <- Hp.
  unfold PocketExporter.format_item, PocketExporter.flag, Pocket.get.
  cbn [Pocket.attrs Pocket.tags].
  destruct tags as [|t tags], tags' as [|t' tags'].
  - done.
  - by apply Permutation_nil_l in Hp.
  - by apply Permutation_nil_r in Hp.
  - by rewrite (proj1 (sorted_canonical _ _ Hp)).
Qed.

(** X8.  The [Tags] column can be split back into the tags: for an item
    with at least one tag and no semicolon in its tags, splitting the
    column at the semicolons gives the tags in ascending order. *)
Theorem format_item_tags_split (item : Pocket.raw_item) :
  Pocket.tags item ≠ [] →
  Forall (λ tag, ";"%char ∉ PyStr.chars tag) (Pocket.tags item) →
  ∃ column,
    Csv.getitem "Tags" (PocketExporter.format_item item) = Ok (Some column)
    ∧ PyStr.split ";" column = PyStr.sorted (Pocket.tags item)
    ∧ ascending (PyStr.sorted (Pocket.tags item))
    ∧ PyStr.sorted (Pocket.tags item) ≡ₚ Pocket.tags item.
Proof.
  intros Hne Hfree. destruct item as [attrs tags]. simpl in *.
  exists (PyStr.join ";" (PyStr.sorted tags)).
  split; [by destruct tags|].
  split; [|split; [apply sorted_ascending|apply sorted_perm]].
  apply split_join.
  - intros He. pose proof (sorted_perm tags) as Hp. rewrite He in Hp.
    by apply Permutation_nil_l in Hp.
  - apply Forall_forall. intros tag Hin. rewrite sorted_perm in Hin.
    by eapply Forall_forall in Hfree.
Qed.

Lemma format_item_tags_order_witness :
  Pocket.attrs Examples.item_tags_ba = Pocket.attrs Examples.item_tags_ab
  ∧ Pocket.tags Examples.item_tags_ba ≡ₚ Pocket.tags Examples.item_tags_ab
  ∧ PocketExporter.format_item Examples.item_tags_ba
    = PocketExporter.format_item Examples.item_tags_ab.
Proof.
  assert (Pocket.tags Examples.item_tags_ba
          ≡ₚ Pocket.tags Examples.item_tags_ab) as Hp
    by apply Permutation_swap.
  split; [reflexivity|]. split; [exact Hp|].
  exact (format_item_tags_order Examples.item_tags_ba Examples.item_tags_ab
           eq_refl Hp).
Defined.

Lemma format_item_tags_split_witness :
  Pocket.tags Examples.favorited_item ≠ []
  ∧ Forall (λ tag, ";"%char ∉ PyStr.chars tag)
      (Pocket.tags Examples.favorited_item)
  ∧ ∃ column,
      Csv.getitem "Tags" (PocketExporter.format_item Examples.favorited_item)
      = Ok (Some column)
      ∧ PyStr.split ";" column
        = PyStr.sorted (Pocket.tags Examples.favorited_item)
      ∧ ascending (PyStr.sorted (Pocket.tags Examples.favorited_item))
      ∧ PyStr.sorted (Pocket.tags Examples.favorited_item)
        ≡ₚ Pocket.tags Examples.favorited_item.
Proof.
  assert (Pocket.tags Examples.favorited_item ≠ []) as Hne by done.
  assert (Forall (λ tag, ";"%char ∉ PyStr.chars tag)
            (Pocket.tags Examples.favorited_item)) as Hfree.
  { repeat constructor; apply (bool_decide_unpack _); by vm_compute. }
  split; [exact Hne|]. split; [exact Hfree|].
  exact (format_item_tags_split Examples.favorited_item Hne Hfree).
Defined.
End SortedMore.

Section CleanText.

Lemma of_chars_nonempty (l : list ascii) : l ≠ [] → PyStr.of_chars l ≠ "".
Proof. by destruct l. Qed.

Lemma words_aux_words cur l :
  Forall (λ c, c ≠ zero) l →
  Forall (λ c, PyStr.isspace c = false ∧ c ≠ zero) cur →
  Forall is_word_string (PyStr.words_aux cur l).
Proof.
  intros Hl. revert cur. induction Hl as [|c l Hc Hl IH]; intros cur Hcur.
  - simpl. destruct cur as [|a cur]; [constructor|].
    repeat constructor.
    + apply of_chars_nonempty. intros He%(f_equal length).
      rewrite length_rev in He. done.
    + rewrite chars_of_chars. by apply Forall_rev.
  - cbn [PyStr.words_aux]. destruct (PyStr.isspace c) eqn:Hs.
    + destruct cur as [|a cur]; [by apply IH|].
      constructor; [|by apply IH]. split.
      * apply of_chars_nonempty. intros He%(f_equal length).
        rewrite length_rev in He. done.
      * rewrite chars_of_chars. by apply Forall_rev.
    + apply IH. by constructor.
Qed.

Lemma words_aux_word w cur l :
  Forall (λ c, PyStr.isspace c = false) (PyStr.chars w) →
  PyStr.words_aux cur (PyStr.chars w ++ l)
  = PyStr.words_aux (rev (PyStr.chars w) ++ cur) l.
Proof.
  generalize (PyStr.chars w). intros cs Hcs. revert cur.
  induction Hcs as [|c cs Hc Hcs IH]; intros cur; [done|].
  cbn [app PyStr.words_aux]. rewrite Hc, IH. simpl. by rewrite <- app_assoc.
Qed.

Lemma words_join ws :
  Forall is_word_string ws → PyStr.words (PyStr.join " " ws) = ws.
Proof.
  unfold PyStr.words, PyStr.join. induction 1 as [|w ws [Hne Hw] Hws IH]; [done|].
  assert (Forall (λ c, PyStr.isspace c = false) (PyStr.chars w)) as Hw'.
  { eapply Forall_impl; [exact Hw|]. by intros c [? _]. }
  assert (rev (PyStr.chars w) ≠ []) as Hrev.
  { intros He%(f_equal length). rewrite length_rev in He.
    destruct w; [done|]. simpl in He. done. }
  destruct ws as [|w2 ws].
  - cbn [String.concat]. rewrite <- (app_nil_r (PyStr.chars w)).
    rewrite words_aux_word by done. rewrite app_nil_r. simpl.
    destruct (rev (PyStr.chars w)) eqn:E; [done|]. rewrite <- E.
    by rewrite rev_involutive, of_chars_chars.
  - change (String.concat " " (w :: w2 :: ws))
      with (w +:+ String " " (String.concat " " (w2 :: ws))).
    rewrite chars_app. rewrite words_aux_word by done. rewrite app_nil_r.
    change (PyStr.chars (String " " (String.concat " " (w2 :: ws))))
      with (" "%char :: PyStr.chars (String.concat " " (w2 :: ws))).
    cbn [PyStr.words_aux].
    change (PyStr.isspace " ") with true. cbv iota.
    destruct (rev (PyStr.chars w)) eqn:E; [done|]. rewrite <- E.
    rewrite rev_involutive, of_chars_chars. f_equal. exact IH.
Qed.

Lemma chars_join_space ws :
  Forall is_word_string ws →
  Forall (λ c, c ≠ zero) (PyStr.chars (PyStr.join " " ws)).
Proof.
  unfold PyStr.join. induction 1 as [|w ws [Hne Hw] Hws IH]; [constructor|].
  assert (Forall (λ c, c ≠ zero) (PyStr.chars w)) as Hw'.
  { eapply Forall_impl; [exact Hw|]. by intros c [_ ?]. }
  destruct ws as [|w2 ws]; [done|].
  change (String.concat " " (w :: w2 :: ws))
    with (w +:+ String " " (String.concat " " (w2 :: ws))).
  rewrite chars_app. apply Forall_app. split; [done|].
  constructor; [done|exact IH].
Qed.

Lemma remove_nul_id s :
  Forall (λ c, c ≠ zero) (PyStr.chars s) → PyStr.remove_nul s = s.
Proof.
  intros Hs. unfold PyStr.remove_nul.
  rewrite <- (of_chars_chars s) at 2. f_equal.
  induction Hs as [|c l Hc Hl IH]; [done|].
  rewrite filter_cons_True; [by rewrite IH|].
  apply negb_prop_intro. intros He%Is_true_true%Ascii.eqb_eq. done.
Qed.

Lemma remove_nul_free s :
  Forall (λ c, c ≠ zero) (PyStr.chars (PyStr.remove_nul s)).
Proof.
  unfold PyStr.remove_nul. rewrite chars_of_chars.
  apply Forall_forall. intros c [Hc _]%list_elem_of_filter.
  apply negb_prop_elim in Hc. intros ->. apply Hc.
  apply Is_true_true, Ascii.eqb_refl.
Qed.

(** X9.  [clean_text] brings a title to a normal form: words that are
    not empty and hold no white space and no null character, with single
    spaces between them.  Cleaning a cleaned title changes nothing. *)
Theorem clean_text_normal_form (s : string) :
  ∃ ws, PocketExporter.clean_text (Pocket.JStr s) = PyStr.join " " ws
        ∧ Forall is_word_string ws
        ∧ PocketExporter.clean_text
            (Pocket.JStr (PocketExporter.clean_text (Pocket.JStr s)))
          = PocketExporter.clean_text (Pocket.JStr s).
Proof.
  exists (PyStr.words (PyStr.remove_nul s)).
  assert (Forall is_word_string (PyStr.words (PyStr.remove_nul s))) as Hws.
  { apply words_aux_words; [apply remove_nul_free|constructor]. }
  split; [done|]. split; [done|].
  unfold PocketExporter.clean_text.
  rewrite remove_nul_id by (by apply chars_join_space).
  by rewrite words_join.
Qed.
End CleanText.


(** * Further properties of dropbox_takeout_to_csv.py *)
Section TakeoutMore.
Import Takeout.
Variable dropbox_dir : string.

(** X10.  An archive without a watch-history member: the function raises
    [FileNotFoundError] before anything is extracted or written, so that
    every file is as before. *)
Theorem process_youtube_history_no_member (zip_path : string)
    (members : list member) (w : fs) :
  open_zip dropbox_dir zip_path w = Ok members →
  Forall (λ m, PyStr.endswith "watch-history.json" (member_name m) = false)
    members →
  process_youtube_history dropbox_dir zip_path w = (Raise FileNotFoundError, w).
Proof.
  intros Hopen Hnone. unfold process_youtube_history, bind at 1.
  rewrite Hopen.
  destruct (find _ members) as [m|] eqn:Hfind; [|done].
  apply find_some in Hfind as [Hin Hm]. apply list_elem_of_In in Hin.
  eapply Forall_forall in Hnone; [|exact Hin]. congruence.
Qed.

Lemma process_youtube_history_pkl zip_path w :
  processed_pkl (process_youtube_history dropbox_dir zip_path w).2
  = processed_pkl w.
Proof.
  unfold process_youtube_history, bind at 1.
  destruct (open_zip dropbox_dir zip_path w) as [members|e]; [|done].
  destruct (find _ members) as [m|]; [|done].
  unfold bind, modify, raise, ret; simpl.
  by destruct (member_json m).
Qed.

(** X11.  A successful call leaves no temporary directory and writes the
    header followed by one row of three columns for each entry of the
    first watch-history member that has both a URL and a time. *)
Theorem process_youtube_history_success (zip_path : string) (w w' : fs)
    (b : bool) :
  process_youtube_history dropbox_dir zip_path w = (Ok b, w') →
  temp_extract w' = None
  ∧ ∃ members m history_data,
      open_zip dropbox_dir zip_path w = Ok members
      ∧ find (λ m, PyStr.endswith "watch-history.json" (member_name m)) members
        = Some m
      ∧ member_json m = Some history_data
      ∧ output_csv w'
        = Some (["time"; "videoId"; "source"] :: history_rows history_data)
      ∧ Forall (λ row, length row = 3) (history_rows history_data)
      ∧ (length (history_rows history_data) ≤ length history_data)%nat.
Proof.
  unfold process_youtube_history, bind at 1.
  destruct (open_zip dropbox_dir zip_path w) as [members|e]; [|done].
  destruct (find _ members) as [m|] eqn:Hfind; [|done].
  unfold bind, modify, raise, ret; simpl.
  destruct (member_json m) as [history_data|] eqn:Hjson; [|done].
  intros [= _ <-]. split; [done|].
  exists members, m, history_data. repeat split; try done.
  - clear. unfold history_rows.
    induction history_data as [|e l IH]; [constructor|].
    cbn [flat_map]. apply Forall_app. split; [|exact IH].
    destruct (titleUrl e), (time e); repeat constructor.
  - clear. unfold history_rows.
    induction history_data as [|e l IH]; [done|].
    cbn [flat_map]. rewrite length_app. cbn [length].
    destruct (titleUrl e), (time e); cbn [length]; lia.
Qed.

(** X12.  When the processing of the selected archive raises, the run
    leaves the pickled set as it was and the directory as it was, so that
    the next run selects the same archive again. *)
Theorem main_failure_keeps_watermark (w : fs) (latest : string) (e : exn)
    (w1 : fs) :
  (main dropbox_dir w).1 = [latest] →
  process_youtube_history dropbox_dir latest w = (Raise e, w1) →
  (main dropbox_dir w).2 = w1
  ∧ processed_pkl w1 = processed_pkl w
  ∧ find_latest_takeout dropbox_dir w1 = find_latest_takeout dropbox_dir w
  ∧ (main dropbox_dir w1).1 = [latest].
Proof.
  intros Hmain Hproc.
  pose proof (process_youtube_history_pkl latest w) as Hpkl.
  pose proof (process_youtube_history_listing dropbox_dir latest w) as Hl.
  rewrite Hproc in Hpkl, Hl. simpl in Hpkl, Hl.
  assert (find_latest_takeout dropbox_dir w1 = find_latest_takeout dropbox_dir w)
    as Hsame.
  { unfold find_latest_takeout, glob. by rewrite Hpkl, Hl. }
  assert (∀ w0, find_latest_takeout dropbox_dir w0
                = find_latest_takeout dropbox_dir w →
                (main dropbox_dir w0).1 = (main dropbox_dir w).1) as Hfst.
  { intros w0 H0. unfold main. rewrite H0.
    destruct (find_latest_takeout dropbox_dir w) as [unp proc].
    destruct (PyStr.sort_reverse unp) as [|l rest]; [done|].
    destruct (process_youtube_history dropbox_dir l w0) as [[[]|] ?],
             (process_youtube_history dropbox_dir l w) as [[[]|] ?]; done. }
  split; [|split; [done|]; split; [done|]].
  - revert Hmain. unfold main.
    destruct (find_latest_takeout dropbox_dir w) as [unp proc].
    destruct (PyStr.sort_reverse unp) as [|l rest]; [done|].
    destruct (process_youtube_history dropbox_dir l w) as [[[]|] ?] eqn:Hp;
      simpl; intros [= ->]; congruence.
  - by rewrite (Hfst w1 Hsame).
Qed.

(** X13.  An archive whose path is in the pickled set is never handed to
    [process_youtube_history], and the archive a run processes with
    success is not among the unprocessed ones of the next run. *)
Theorem main_never_reprocesses (w : fs) (f : string) :
  f ∈ (main dropbox_dir w).1 →
  (f ∉ (find_latest_takeout dropbox_dir w).2)
  ∧ (is_ok (process_youtube_history dropbox_dir f w).1 = true →
     f ∉ (find_latest_takeout dropbox_dir (main dropbox_dir w).2).1).
Proof.
  unfold main.
  destruct (find_latest_takeout dropbox_dir w) as [unp proc] eqn:Hfl.
  pose proof (sort_reverse_perm unp) as Hperm.
  destruct (PyStr.sort_reverse unp) as [|latest rest] eqn:Hsort;
    [by intros ?%elem_of_nil|].
  assert (latest ∈ unp) as Hin by (rewrite <- Hperm; by left).
  assert (latest ∉ proc) as Hnot.
  { unfold find_latest_takeout in Hfl. injection Hfl as <- <-.
    by apply list_elem_of_filter in Hin as [? _]. }
  pose proof (process_youtube_history_listing dropbox_dir latest w) as Hl.
  pose proof (process_youtube_history_true dropbox_dir latest w) as Ht.
  destruct (process_youtube_history dropbox_dir latest w) as [[b|e] w1] eqn:Hp.
  - rewrite (Ht b w1 eq_refl). simpl.
    intros Hf%list_elem_of_singleton. subst f. split; [done|]. intros _.
    unfold find_latest_takeout. simpl.
    intros [Hf _]%list_elem_of_filter. apply Hf.
    apply elem_of_union. right. by apply elem_of_singleton.
  - simpl. intros Hf%list_elem_of_singleton. subst f. split; [done|].
    rewrite Hp. done.
Qed.

(** X14.  Only the files of the directory whose name matches
    [takeout-*.zip] are ever processed; with none of them unprocessed the
    run changes nothing. *)
Theorem main_only_takeout_archives (w : fs) :
  (∀ f, f ∈ (main dropbox_dir w).1 →
        ∃ name, name ∈ (listing w).*1
                ∧ PyStr.startswith "takeout-" name = true
                ∧ PyStr.endswith ".zip" name = true
                ∧ f = path_join dropbox_dir name)
  ∧ ((find_latest_takeout dropbox_dir w).1 = [] →
     main dropbox_dir w = ([], w)).
Proof.
  split.
  - intros f Hf.
    assert (f ∈ (find_latest_takeout dropbox_dir w).1) as Hin.
    { revert Hf. unfold main.
      destruct (find_latest_takeout dropbox_dir w) as [unp proc]. simpl.
      pose proof (sort_reverse_perm unp) as Hperm.
      destruct (PyStr.sort_reverse unp) as [|latest rest];
        [by intros ?%elem_of_nil|].
      assert (latest ∈ unp) as Hl by (rewrite <- Hperm; by left).
      destruct (process_youtube_history dropbox_dir latest w) as [[[]|] ?];
        simpl; by intros ->%list_elem_of_singleton. }
    unfold find_latest_takeout, glob in Hin. simpl in Hin.
    apply list_elem_of_filter in Hin as [_ Hin].
    apply list_elem_of_fmap in Hin as (name & -> & Hname).
    apply list_elem_of_filter in Hname as [Hm Hname].
    unfold matches_pattern in Hm. apply andb_prop_elim in Hm as [H1 H2].
    exists name. repeat split; try done; by apply Is_true_true.
  - unfold main. destruct (find_latest_takeout dropbox_dir w) as [unp proc].
    simpl. by intros ->.
Qed.

Lemma hd_Forall {A} (P : A → Prop) (x : A) (l : list A) :
  P x → Forall P l → P (hd x l).
Proof. intros Hx Hl. by destruct Hl. Qed.

Lemma last_Forall {A} (P : A → Prop) (x : A) (l : list A) :
  P x → Forall P l → P (List.last l x).
Proof.
  intros Hx Hl. induction Hl as [|y l Hy Hl IH]; [done|].
  destruct l; [done|]. exact IH.
Qed.

(** X15.  The video identifier never holds what follows it in the URL:
    for a URL with [watch?v=] the identifier has no ampersand, so that no
    further parameter of the URL gets into the CSV; for any other URL it
    has no slash. *)
Theorem extract_video_id_no_separator (url : string) :
  (PyStr.contains "watch?v=" url = true →
   "&"%char ∉ PyStr.chars (extract_video_id url))
  ∧ (PyStr.contains "watch?v=" url = false →
     "/"%char ∉ PyStr.chars (extract_video_id url)).
Proof.
  unfold extract_video_id. split; intros ->.
  - apply (hd_Forall (λ piece, "&"%char ∉ PyStr.chars piece));
      [apply not_elem_of_nil|apply split_pieces].
  - apply (last_Forall (λ piece, "/"%char ∉ PyStr.chars piece));
      [apply not_elem_of_nil|apply split_pieces].
Qed.
End TakeoutMore.

Section TakeoutWitnesses.
Import Takeout Examples.

Lemma process_youtube_history_no_member_witness :
  open_zip dropbox_dir (path_join dropbox_dir "takeout-1.zip") other_takeout
  = Ok [other_member]
  ∧ Forall (λ m, PyStr.endswith "watch-history.json" (member_name m) = false)
      [other_member]
  ∧ process_youtube_history dropbox_dir (path_join dropbox_dir "takeout-1.zip")
      other_takeout
    = (Raise FileNotFoundError, other_takeout).
Proof.
  assert (open_zip dropbox_dir (path_join dropbox_dir "takeout-1.zip")
            other_takeout = Ok [other_member]) as Hopen
    by (vm_compute; reflexivity).
  assert (Forall (λ m, PyStr.endswith "watch-history.json" (member_name m)
                       = false) [other_member]) as Hnone.
  { constructor; [vm_compute; reflexivity|constructor]. }
  split; [exact Hopen|]. split; [exact Hnone|].
  exact (process_youtube_history_no_member dropbox_dir _ _ _ Hopen Hnone).
Defined.

Lemma process_youtube_history_success_witness :
  process_youtube_history dropbox_dir (path_join dropbox_dir "takeout-2.zip")
    two_takeouts
  = (Ok true,
     (process_youtube_history dropbox_dir
        (path_join dropbox_dir "takeout-2.zip") two_takeouts).2)
  ∧ temp_extract
      (process_youtube_history dropbox_dir
         (path_join dropbox_dir "takeout-2.zip") two_takeouts).2 = None
  ∧ ∃ members m history_data,
      open_zip dropbox_dir (path_join dropbox_dir "takeout-2.zip") two_takeouts
      = Ok members
      ∧ find (λ m, PyStr.endswith "watch-history.json" (member_name m)) members
        = Some m
      ∧ member_json m = Some history_data
      ∧ output_csv
          (process_youtube_history dropbox_dir
             (path_join dropbox_dir "takeout-2.zip") two_takeouts).2
        = Some (["time"; "videoId"; "source"] :: history_rows history_data)
      ∧ Forall (λ row, length row = 3) (history_rows history_data)
      ∧ (length (history_rows history_data) ≤ length history_data)%nat.
Proof.
  assert (process_youtube_history dropbox_dir
            (path_join dropbox_dir "takeout-2.zip") two_takeouts
          = (Ok true,
             (process_youtube_history dropbox_dir
                (path_join dropbox_dir "takeout-2.zip") two_takeouts).2))
    as Hrun by (vm_compute; reflexivity).
  split; [exact Hrun|].
  exact (process_youtube_history_success dropbox_dir _ _ _ _ Hrun).
Defined.

Lemma main_failure_keeps_watermark_witness :
  (main dropbox_dir broken_takeout).1
  = [path_join dropbox_dir "takeout-1.zip"]
  ∧ process_youtube_history dropbox_dir (path_join dropbox_dir "takeout-1.zip")
      broken_takeout
    = (Raise JSONDecodeError,
       (process_youtube_history dropbox_dir
          (path_join dropbox_dir "takeout-1.zip") broken_takeout).2)
  ∧ (main dropbox_dir broken_takeout).2
    = (process_youtube_history dropbox_dir
         (path_join dropbox_dir "takeout-1.zip") broken_takeout).2
  ∧ processed_pkl
      (process_youtube_history dropbox_dir
         (path_join dropbox_dir "takeout-1.zip") broken_takeout).2
    = processed_pkl broken_takeout
  ∧ find_latest_takeout dropbox_dir
      (process_youtube_history dropbox_dir
         (path_join dropbox_dir "takeout-1.zip") broken_takeout).2
    = find_latest_takeout dropbox_dir broken_takeout
  ∧ (main dropbox_dir
       (process_youtube_history dropbox_dir
          (path_join dropbox_dir "takeout-1.zip") broken_takeout).2).1
    = [path_join dropbox_dir "takeout-1.zip"].
Proof.
  assert ((main dropbox_dir broken_takeout).1
          = [path_join dropbox_dir "takeout-1.zip"]) as Hmain
    by (vm_compute; reflexivity).
  assert (process_youtube_history dropbox_dir
            (path_join dropbox_dir "takeout-1.zip") broken_takeout
          = (Raise JSONDecodeError,
             (process_youtube_history dropbox_dir
                (path_join dropbox_dir "takeout-1.zip") broken_takeout).2))
    as Hrun by (vm_compute; reflexivity).
  split; [exact Hmain|]. split; [exact Hrun|].
  exact (main_failure_keeps_watermark dropbox_dir _ _ _ _ Hmain Hrun).
Defined.

Lemma main_never_reprocesses_witness :
  path_join dropbox_dir "takeout-2.zip" ∈ (main dropbox_dir two_takeouts).1
  ∧ (path_join dropbox_dir "takeout-2.zip"
     ∉ (find_latest_takeout dropbox_dir two_takeouts).2)
  ∧ (is_ok (process_youtube_history dropbox_dir
              (path_join dropbox_dir "takeout-2.zip") two_takeouts).1 = true →
     path_join dropbox_dir "takeout-2.zip"
     ∉ (find_latest_takeout dropbox_dir
          (main dropbox_dir two_takeouts).2).1).
Proof.
  assert (path_join dropbox_dir "takeout-2.zip"
          ∈ (main dropbox_dir two_takeouts).1) as Hin.
  { assert ((main dropbox_dir two_takeouts).1
            = [path_join dropbox_dir "takeout-2.zip"]) as ->
      by (vm_compute; reflexivity).
    by left. }
  split; [exact Hin|].
  exact (main_never_reprocesses dropbox_dir two_takeouts _ Hin).
Defined.
End TakeoutWitnesses.

(** * Further properties of untag_pocket.py and pocket_tagger.py *)
Section UntagMore.
Import Pocket Untag.

Lemma build_actions_inv items actions acts :
  build_actions items actions = Ok acts →
  Forall (λ item, is_Some (PyDict.get "item_id" (attrs item))) items
  ∧ acts = actions ++ flat_map cleanup_actions items.
Proof.
  revert actions. induction items as [|item items IH]; intros actions.
  - simpl. intros [= <-]. split; [constructor|by rewrite app_nil_r].
  - cbn [build_actions].
    destruct (PyDict.get "item_id" (attrs item)) as [item_id|] eqn:Hid; [|done].
    intros [Hids ->]%IH. split; [constructor; [by eexists|done]|].
    cbn [flat_map]. unfold cleanup_actions at 2. rewrite Hid.
    by rewrite filter_not_sentinel, <- app_assoc.
Qed.

Lemma build_actions_KeyError items actions :
  ¬ Forall (λ item, is_Some (PyDict.get "item_id" (attrs item))) items →
  build_actions items actions = Raise KeyError.
Proof.
  revert actions. induction items as [|item items IH]; intros actions Hn.
  - destruct Hn. constructor.
  - cbn [build_actions].
    destruct (PyDict.get "item_id" (attrs item)) as [item_id|] eqn:Hid; [|done].
    apply IH. intros Hall. apply Hn. constructor; [by eexists|done].
Qed.

Lemma build_actions_nonempty item items acts :
  build_actions (item :: items) [] = Ok acts → acts ≠ [].
Proof.
  intros [Hids ->]%build_actions_inv.
  apply Forall_cons in Hids as [[item_id Hid] _].
  rewrite app_nil_l. cbn [flat_map]. unfold cleanup_actions at 1.
  by rewrite Hid.
Qed.

Lemma filter_startswith (l : list string) :
  filter (λ tag, negb (PyStr.startswith "*" tag)) l
  = filter (λ tag, PyStr.startswith "*" tag = false) l.
Proof.
  apply list_filter_iff. intros tag.
  destruct (PyStr.startswith "*" tag); simpl; split; done.
Qed.

(** X16.  Whatever the service answers, every batch the pass sends is
    built from the page fetched in the same iteration, a page that is not
    empty; the pass sends at most one batch per iteration, never an empty
    one. *)
Theorem clean_and_unfavorite_items_sends_built_batches
    (script : list replies) :
  (length (clean_and_unfavorite_items script).2 ≤ length script)%nat
  ∧ ∀ i batch,
      (clean_and_unfavorite_items script).2 !! i = Some batch →
      ∃ r page,
        script !! i = Some r ∧ get_reply r = Ok page ∧ page ≠ []
        ∧ build_actions page [] = Ok batch ∧ batch ≠ [].
Proof.
  induction script as [|r script [IHlen IH]]; [split; [done|by intros ??]|].
  cbn [clean_and_unfavorite_items].
  destruct (get_reply r) as [[|item page]|e] eqn:Hget;
    [split; [simpl; lia|by intros ??]| |split; [simpl; lia|by intros ??]].
  destruct (build_actions (item :: page) []) as [acts|e] eqn:Hb;
    [|split; [simpl; lia|by intros ??]].
  destruct acts as [|a acts]; [split; [simpl; lia|by intros ??]|].
  assert (∀ i batch, [a :: acts] !! i = Some batch →
            ∃ r0 page0, (r :: script) !! i = Some r0 ∧ get_reply r0 = Ok page0
              ∧ page0 ≠ [] ∧ build_actions page0 [] = Ok batch
              ∧ batch ≠ []) as Hone.
  { intros [|i] batch; [|done]. intros [= <-].
    exists r, (item :: page). by repeat split. }
  destruct (send_reply r) as [[]|e].
  - destruct (clean_and_unfavorite_items script) as [o sent]. simpl in *.
    split; [lia|]. intros [|i] batch Hi.
    + apply (Hone 0 batch Hi).
    + destruct (IH i batch Hi) as (r0 & page0 & ?). by exists r0, page0.
  - split; [simpl; lia|]. simpl. exact Hone.
Qed.

(** X17.  How the pass fails.  A fetched record without an [item_id]
    makes it raise [KeyError] in that iteration, before any action for the
    page is sent; a failed fetch ends it with the error of the fetch and
    nothing sent; a refused batch ends it with the error of the service,
    the batch being the last thing sent. *)
Theorem clean_and_unfavorite_items_errors (r : replies)
    (script : list replies) :
  (∀ page,
     get_reply r = Ok page →
     ¬ Forall (λ item, is_Some (PyDict.get "item_id" (attrs item))) page →
     clean_and_unfavorite_items (r :: script) = (Raised KeyError, []))
  ∧ (∀ e, get_reply r = Raise e →
          clean_and_unfavorite_items (r :: script) = (Raised e, []))
  ∧ (∀ page batch e,
       get_reply r = Ok page → page ≠ [] →
       build_actions page [] = Ok batch →
       send_reply r = Raise e →
       clean_and_unfavorite_items (r :: script) = (Raised e, [batch])).
Proof.
  split; [|split].
  - intros page Hget Hn. cbn [clean_and_unfavorite_items]. rewrite Hget.
    destruct page as [|item page]; [destruct Hn; constructor|].
    by rewrite build_actions_KeyError.
  - intros e Hget. cbn [clean_and_unfavorite_items]. by rewrite Hget.
  - intros page batch e Hget Hne Hb Hsend. cbn [clean_and_unfavorite_items].
    rewrite Hget. destruct page as [|item page]; [done|].
    pose proof (build_actions_nonempty _ _ _ Hb) as Hbatch.
    rewrite Hb, Hsend. by destruct batch.
Qed.

(** X18.  The tag list of a [tags_replace] can be split back into tags:
    for a record with a tag to keep and no comma in its tags, splitting the
    list at the commas gives the record's tags that do not start with the
    sentinel, in their order, and none of the pieces starts with it. *)
Theorem build_actions_tags (item : raw_item) (item_id : jval) :
  PyDict.get "item_id" (attrs item) = Some item_id →
  Forall (λ tag, ","%char ∉ PyStr.chars tag) (tags item) →
  Exists (λ tag, PyStr.startswith "*" tag = false) (tags item) →
  ∃ new_tags,
    build_actions [item] []
    = Ok [tags_replace item_id new_tags; unfavorite item_id]
    ∧ PyStr.split "," new_tags
      = filter (λ tag, PyStr.startswith "*" tag = false) (tags item)
    ∧ Forall (λ tag, PyStr.startswith "*" tag = false)
        (PyStr.split "," new_tags).
Proof.
  intros Hid Hfree Hkeep. cbn [build_actions]. rewrite Hid.
  eexists. split; [reflexivity|]. rewrite filter_startswith.
  assert (PyStr.split ","
            (PyStr.join ","
               (filter (λ tag, PyStr.startswith "*" tag = false) (tags item)))
          = filter (λ tag, PyStr.startswith "*" tag = false) (tags item)) as Hs.
  { apply split_join.
    - apply Exists_exists in Hkeep as (tag & Hin & Htag). intros He.
      assert (tag ∈ filter (λ tag, PyStr.startswith "*" tag = false)
                      (tags item)) as Hin'
        by (by apply list_elem_of_filter).
      rewrite He in Hin'. by apply elem_of_nil in Hin'.
    - apply Forall_forall. intros tag [_ Hin]%list_elem_of_filter.
      by eapply Forall_forall in Hfree. }
  split; [done|]. rewrite Hs. apply Forall_forall.
  by intros tag [? _]%list_elem_of_filter.
Qed.
End UntagMore.

Section TaggerMore.
Import Tagger.
Variable is_word : ascii → bool.

Lemma find_matching_tags_elem text tags s :
  s ∈ find_matching_tags is_word text tags
  ↔ ∃ tag, s = String "*" tag ∧ tag ∈ tags ∧ re_search is_word tag text = true.
Proof.
  unfold find_matching_tags. rewrite elem_of_map. split.
  - intros (tag & -> & [Hs Hin]%elem_of_filter). by exists tag.
  - intros (tag & -> & Hin & Hs). exists tag. split; [done|].
    by apply elem_of_filter.
Qed.

(** X19.  What the pattern matches, for any tag: some occurrence of the
    tag in the text has a word boundary at each end, a word boundary being
    a place with a word character on exactly one side. *)
Theorem re_search_boundaries (tag text : string) :
  re_search is_word tag text = true
  ↔ ∃ pre post,
      PyStr.chars text = pre ++ PyStr.chars tag ++ post
      ∧ word_at is_word (last pre)
        ≠ word_at is_word (head (PyStr.chars tag ++ post))
      ∧ word_at is_word (last (pre ++ PyStr.chars tag))
        ≠ word_at is_word (head post).
Proof.
  unfold re_search. rewrite search_from_spec.
  assert (∀ l, last_or None l = last l) as Hlo by (by intros []).
  unfold boundary.
  split; intros (pre & post & Ht & Hb & He); exists pre, post;
    (split; [done|]); rewrite !Hlo in *.
  - split.
    + by destruct (word_at is_word (last pre)),
        (word_at is_word (head (PyStr.chars tag ++ post))).
    + by destruct (word_at is_word (last (pre ++ PyStr.chars tag))),
        (word_at is_word (head post)).
  - split.
    + by destruct (word_at is_word (last pre)),
        (word_at is_word (head (PyStr.chars tag ++ post))).
    + by destruct (word_at is_word (last (pre ++ PyStr.chars tag))),
        (word_at is_word (head post)).
Qed.

(** X20.  Each tag of the vocabulary is decided on its own: the result for
    a union of vocabularies is the union of the results, and every element
    of a result is a tag of the vocabulary behind the sentinel. *)
Theorem find_matching_tags_union (text : string) (tags1 tags2 : gset string) :
  find_matching_tags is_word text (tags1 ∪ tags2)
  = find_matching_tags is_word text tags1
    ∪ find_matching_tags is_word text tags2
  ∧ ∀ s, s ∈ find_matching_tags is_word text (tags1 ∪ tags2) →
         ∃ tag, s = String "*" tag ∧ tag ∈ tags1 ∪ tags2.
Proof.
  split.
  - apply set_eq. intros s. rewrite elem_of_union, !find_matching_tags_elem.
    split.
    + intros (tag & -> & [Hin|Hin]%elem_of_union & Hs);
        [left|right]; by exists tag.
    + intros [(tag & -> & Hin & Hs)|(tag & -> & Hin & Hs)]; exists tag;
        (split; [done|]); (split; [|done]); apply elem_of_union; auto.
  - intros s (tag & -> & Hin & _)%find_matching_tags_elem. by exists tag.
Qed.

(** X21.  The cleanup undoes the tagging: on a record that carries the
    user's tags, none starting with the sentinel, followed by tags the
    tagger produced, the [tags_replace] of the cleanup lists the user's
    tags and nothing else. *)
Theorem cleanup_undoes_tagging (text : string) (vocabulary : gset string)
    (attrs : list (string * Pocket.jval)) (item_id : Pocket.jval)
    (user_tags added : list string) :
  PyDict.get "item_id" attrs = Some item_id →
  Forall (λ tag, PyStr.startswith "*" tag = false) user_tags →
  Forall (λ tag, tag ∈ find_matching_tags is_word text vocabulary) added →
  Untag.build_actions [Pocket.mk_item attrs (user_tags ++ added)] []
  = Ok [Untag.tags_replace item_id (PyStr.join "," user_tags);
        Untag.unfavorite item_id].
Proof.
  intros Hid Huser Hadded. cbn [Untag.build_actions Pocket.attrs Pocket.tags].
  rewrite Hid. cbn [app]. do 4 f_equal.
  rewrite filter_startswith, filter_app.
  assert (filter (λ tag, PyStr.startswith "*" tag = false) added = []) as ->.
  { apply filter_none. intros tag Hin.
    eapply Forall_forall in Hadded; [|exact Hin].
    apply find_matching_tags_elem in Hadded as (t & -> & _).
    by rewrite startswith_sentinel. }
  rewrite app_nil_r. clear Hadded.
  induction Huser as [|tag user_tags Htag Huser IH]; [done|].
  rewrite filter_cons_True; [by rewrite IH|done].
Qed.
End TaggerMore.

Section UntagWitnesses.
Import Pocket Untag Examples.

Lemma clean_and_unfavorite_items_errors_witness :
  get_reply (mk_replies (Ok [favorited_item; anonymous_item]) (Ok tt))
  = Ok [favorited_item; anonymous_item]
  ∧ clean_and_unfavorite_items
      [mk_replies (Ok [favorited_item; anonymous_item]) (Ok tt)]
    = (Raised KeyError, [])
  ∧ build_actions [favorited_item] []
    = Ok [tags_replace (JStr "5") "keep"; unfavorite (JStr "5")]
  ∧ clean_and_unfavorite_items
      [mk_replies (Ok [favorited_item]) (Raise HTTPError)]
    = (Raised HTTPError,
       [[tags_replace (JStr "5") "keep"; unfavorite (JStr "5")]]).
Proof.
  split; [reflexivity|]. split.
  - apply (proj1 (clean_and_unfavorite_items_errors
                    (mk_replies (Ok [favorited_item; anonymous_item]) (Ok tt))
                    []) _ eq_refl).
    intros Hall. apply Forall_cons in Hall as [_ Hall].
    apply Forall_cons in Hall as [[item_id Hid] _]. discriminate Hid.
  - split; [reflexivity|].
    apply (proj2 (proj2 (clean_and_unfavorite_items_errors
                           (mk_replies (Ok [favorited_item])
                              (Raise HTTPError)) []))
             [favorited_item] _ HTTPError eq_refl); done.
Defined.

Lemma build_actions_tags_witness :
  PyDict.get "item_id" (attrs favorited_item) = Some (JStr "5")
  ∧ Forall (λ tag, ","%char ∉ PyStr.chars tag) (tags favorited_item)
  ∧ Exists (λ tag, PyStr.startswith "*" tag = false) (tags favorited_item)
  ∧ ∃ new_tags,
      build_actions [favorited_item] []
      = Ok [tags_replace (JStr "5") new_tags; unfavorite (JStr "5")]
      ∧ PyStr.split "," new_tags
        = filter (λ tag, PyStr.startswith "*" tag = false)
            (tags favorited_item)
      ∧ Forall (λ tag, PyStr.startswith "*" tag = false)
          (PyStr.split "," new_tags).
Proof.
  assert (Forall (λ tag, ","%char ∉ PyStr.chars tag) (tags favorited_item))
    as Hfree.
  { repeat constructor; apply (bool_decide_unpack _); by vm_compute. }
  assert (Exists (λ tag, PyStr.startswith "*" tag = false)
            (tags favorited_item)) as Hkeep.
  { apply Exists_cons_tl, Exists_cons_hd. reflexivity. }
  split; [reflexivity|]. split; [exact Hfree|]. split; [exact Hkeep|].
  exact (build_actions_tags favorited_item (JStr "5") eq_refl Hfree Hkeep).
Defined.

Lemma cleanup_undoes_tagging_witness :
  PyDict.get "item_id" [("item_id", JStr "5")] = Some (JStr "5")
  ∧ Forall (λ tag, PyStr.startswith "*" tag = false) ["keep"; "pets"]
  ∧ Forall (λ tag, tag ∈ Tagger.find_matching_tags Tagger.ascii_word
                           "the cat sat" {["cat"]}) ["*cat"]
  ∧ build_actions [mk_item [("item_id", JStr "5")] (["keep"; "pets"] ++ ["*cat"])]
      []
    = Ok [tags_replace (JStr "5") (PyStr.join "," ["keep"; "pets"]);
          unfavorite (JStr "5")].
Proof.
  assert (Forall (λ tag, PyStr.startswith "*" tag = false) ["keep"; "pets"])
    as Huser by (repeat constructor).
  assert (Forall (λ tag, tag ∈ Tagger.find_matching_tags Tagger.ascii_word
                                 "the cat sat" {["cat"]}) ["*cat"]) as Hadded.
  { constructor; [|constructor].
    apply (bool_decide_unpack _). by vm_compute. }
  split; [reflexivity|]. split; [exact Huser|]. split; [exact Hadded|].
  exact (cleanup_undoes_tagging Tagger.ascii_word "the cat sat" {["cat"]}
           [("item_id", JStr "5")] (JStr "5") ["keep"; "pets"] ["*cat"]
           eq_refl Huser Hadded).
Defined.
End UntagWitnesses.


Section ExtractMore.
Import Tagger.
Variable download : nat → result string.

Lemma lower_char_idemp c : PyStr.lower_char (PyStr.lower_char c) = PyStr.lower_char c.
Proof. by destruct c as [[] [] [] [] [] [] [] []]. Qed.

Lemma lower_idemp s : PyStr.lower (PyStr.lower s) = PyStr.lower s.
Proof.
  unfold PyStr.lower. rewrite chars_of_chars. f_equal.
  rewrite map_map. apply map_ext. intros c. apply lower_char_idemp.
Qed.

Lemma extract_attempts_first (max_retries k : nat) (text : string) :
  (k < max_retries)%nat →
  (∀ j, (j < k)%nat → is_ok (download j) = false) →
  download k = Ok text →
  ∀ remaining, (remaining ≤ max_retries)%nat →
               (max_retries - remaining ≤ k)%nat →
               extract_attempts download max_retries remaining
               = Some (PyStr.lower text).
Proof.
  intros Hk Hfail Hok. induction remaining as [|remaining IH];
    intros Hle Hge; [lia|].
  cbn [extract_attempts].
  destruct (decide (max_retries - S remaining = k)) as [->|Hne].
  - by rewrite Hok.
  - assert (max_retries - S remaining < k)%nat as Hlt by lia.
    specialize (Hfail _ Hlt).
    destruct (download (max_retries - S remaining)); [done|].
    replace (Nat.eqb (max_retries - S remaining) (max_retries - 1)) with false
      by (symmetry; apply Nat.eqb_neq; lia).
    apply IH; lia.
Qed.

Lemma extract_attempts_all_fail (max_retries : nat) :
  (∀ j, (j < max_retries)%nat → is_ok (download j) = false) →
  ∀ remaining, (0 < remaining ≤ max_retries)%nat →
               extract_attempts download max_retries remaining = Some "".
Proof.
  intros Hfail. induction remaining as [|remaining IH]; intros Hr; [lia|].
  cbn [extract_attempts].
  assert (max_retries - S remaining < max_retries)%nat as Hlt by lia.
  specialize (Hfail _ Hlt).
  destruct (download (max_retries - S remaining)); [done|].
  destruct (Nat.eqb_spec (max_retries - S remaining) (max_retries - 1));
    [done|]. apply IH. lia.
Qed.

(** X22.  [extract_article_text] returns the text of the first attempt
    that succeeds among the first [max_retries], in lower case: a text
    that [lower] leaves as it is. *)
Theorem extract_article_text_first_success (max_retries k : nat)
    (text : string) :
  (k < max_retries)%nat →
  (∀ j, (j < k)%nat → is_ok (download j) = false) →
  download k = Ok text →
  extract_article_text download max_retries = Some (PyStr.lower text)
  ∧ PyStr.lower (PyStr.lower text) = PyStr.lower text.
Proof.
  intros Hk Hfail Hok. split; [|apply lower_idemp].
  unfold extract_article_text.
  eapply extract_attempts_first; try done; lia.
Qed.

(** X23.  When the first [max_retries] attempts all fail the function
    returns the empty text, in which no tag of any vocabulary matches: the
    item gets no tag.  With [max_retries] zero no attempt is made and the
    function returns [None]. *)
Theorem extract_article_text_gives_up (is_word : ascii → bool)
    (max_retries : nat) (tags : gset string) :
  (∀ j, (j < max_retries)%nat → is_ok (download j) = false) →
  extract_article_text download max_retries
  = (if Nat.eqb max_retries 0 then None else Some "")
  ∧ find_matching_tags is_word "" tags = ∅.
Proof.
  intros Hfail. split.
  - unfold extract_article_text. destruct max_retries as [|n]; [done|].
    change (Nat.eqb (S n) 0) with false. cbv iota.
    apply extract_attempts_all_fail; [done|lia].
  - apply set_eq. intros s. split; [|by intros ?%not_elem_of_empty].
    intros (tag & _ & _ & Hs)%find_matching_tags_elem.
    unfold re_search, search_from, match_here in Hs. simpl in Hs. done.
Qed.
End ExtractMore.

(** * Further properties of yt_history_fetch_metadata.py *)
Section MetadataMore.
Import YtMetadata.
Variable videos_list : list string → result (list api_item).

Lemma batches_spec (n : nat) (video_ids : list string) :
  (length video_ids ≤ n)%nat →
  concat (batches n video_ids) = video_ids
  ∧ Forall (λ batch, (1 ≤ length batch ≤ 50)%nat) (batches n video_ids).
Proof.
  revert video_ids. induction n as [|n IH]; intros video_ids Hlen.
  - destruct video_ids; [by split|simpl in Hlen; lia].
  - destruct video_ids as [|x l]; [by split|].
    cbn [batches].
    assert (length (skipn 50 (x :: l)) ≤ n)%nat as Hskip.
    { rewrite length_skipn. simpl in *. lia. }
    destruct (IH _ Hskip) as [Hc Hf]. split.
    + cbn [concat]. rewrite Hc. apply firstn_skipn.
    + constructor; [|done]. rewrite length_firstn. simpl length. lia.
Qed.

Lemma batches_length (n : nat) (video_ids : list string) :
  (length video_ids ≤ n)%nat →
  length (batches n video_ids) = ((length video_ids + 49) / 50)%nat.
Proof.
  revert video_ids. induction n as [|n IH]; intros video_ids Hlen.
  - destruct video_ids; [done|simpl in Hlen; lia].
  - destruct video_ids as [|x l]; [done|].
    cbn [batches length]. rewrite IH by (rewrite length_skipn; simpl in *; lia).
    rewrite length_skipn. cbn [length].
    destruct (decide (50 ≤ S (length l))%nat) as [Hge|Hlt].
    + replace (S (length l) + 49)%nat with ((S (length l) - 50 + 49) + 1 * 50)%nat
        by lia.
      rewrite Nat.div_add by done. lia.
    + replace (S (length l) - 50)%nat with 0%nat by lia.
      change ((0 + 49) / 50)%nat with 0%nat.
      apply (Nat.div_unique _ 50 1 (length l)); lia.
Qed.
(** X24.  The identifiers are cut into batches of at most fifty, none of
    them empty, which put end to end give back the identifiers in their
    order: no identifier is left out and none is requested twice.  The
    number of requests is the number of identifiers divided by fifty,
    rounded up. *)
Theorem batches_partition (video_ids : list string) :
  concat (batches (length video_ids) video_ids) = video_ids
  ∧ Forall (λ batch, (1 ≤ length batch ≤ 50)%nat)
      (batches (length video_ids) video_ids)
  ∧ length (batches (length video_ids) video_ids)
    = ((length video_ids + 49) / 50)%nat.
Proof.
  destruct (batches_spec (length video_ids) video_ids) as [Hc Hf]; [done|].
  split; [exact Hc|]. split; [exact Hf|].
  by apply batches_length.
Qed.

Lemma store_items_keys items results cache :
  PyDict.keys cache `prefix_of` PyDict.keys (store_items items results cache).2
  ∧ (NoDup (PyDict.keys cache) →
     NoDup (PyDict.keys (store_items items results cache).2)).
Proof.
  revert results cache. induction items as [|item items IH];
    intros results cache; [done|].
  cbn [store_items].
  destruct (IH (results ++ [to_metadata item])
              (PyDict.set (id item) (to_metadata item) cache)) as [Hp Hn].
  split.
  - etrans; [apply (keys_set_prefix (id item) (to_metadata item))|done].
  - intros Hnd. by apply Hn, keys_set_NoDup.
Qed.

Lemma fetch_batches_keys bs results cache :
  PyDict.keys cache
    `prefix_of` PyDict.keys (fetch_batches videos_list bs results cache).2
  ∧ (NoDup (PyDict.keys cache) →
     NoDup (PyDict.keys (fetch_batches videos_list bs results cache).2)).
Proof.
  revert results cache. induction bs as [|batch bs IH];
    intros results cache; [done|].
  cbn [fetch_batches].
  destruct (videos_list batch) as [items|e];
    [|destruct e; try apply IH; by split].
  destruct (store_items_keys items results cache) as [Hp Hn].
  destruct (store_items items results cache) as [results' cache'].
  destruct (IH results' cache') as [Hp' Hn']. simpl in *. split.
  - by etrans.
  - intros Hnd. by apply Hn', Hn.
Qed.

Lemma fetch_batches_all_fail bs results cache :
  Forall (λ batch, videos_list batch = Raise HttpError) bs →
  fetch_batches videos_list bs results cache = (Ok results, cache).
Proof.
  induction 1 as [|batch bs Hb Hbs IH]; [done|].
  cbn [fetch_batches]. by rewrite Hb.
Qed.

Lemma fetch_batches_Raise bs results cache e cache' :
  fetch_batches videos_list bs results cache = (Raise e, cache') →
  e ≠ HttpError ∧ ∃ batch, batch ∈ bs ∧ videos_list batch = Raise e.
Proof.
  revert results cache. induction bs as [|batch bs IH];
    intros results cache; [done|].
  cbn [fetch_batches].
  destruct (videos_list batch) as [items|e0] eqn:Hb.
  - destruct (store_items items results cache) as [results' cache0].
    intros (He & b & Hin & Hr)%IH. split; [done|].
    exists b. split; [by right|done].
  - destruct e0;
      try (intros [= <- <-]; split; [done|]; exists batch;
           split; [by left|done]).
    intros (He & b & Hin & Hr)%IH. split; [done|].
    exists b. split; [by right|done].
Qed.

(** X25.  [_get_video_metadata] never evicts: the keys the cache had
    stay, in their order, at the head of the cache, new keys following;
    the files are not touched.  It raises only what the service raised for
    one of the batches, an exception other than [HttpError]; a batch that
    fails with [HttpError] is skipped, so that when every batch fails with
    it the result is empty and the cache is as before. *)
Theorem _get_video_metadata_keeps_cache (video_ids : list string) (s : state) :
  ∃ r s',
    _get_video_metadata videos_list video_ids s = (r, s')
    ∧ PyDict.keys (metadata_cache s) `prefix_of` PyDict.keys (metadata_cache s')
    ∧ cache_file s' = cache_file s ∧ input_csv s' = input_csv s
    ∧ output_csv s' = output_csv s
    ∧ (∀ e, r = Raise e →
            e ≠ HttpError
            ∧ ∃ batch, batch ∈ batches (length video_ids) video_ids
                       ∧ videos_list batch = Raise e)
    ∧ (Forall (λ batch, videos_list batch = Raise HttpError)
         (batches (length video_ids) video_ids) →
       r = Ok [] ∧ metadata_cache s' = metadata_cache s).
Proof.
  unfold _get_video_metadata.
  pose proof (fetch_batches_keys (batches (length video_ids) video_ids) []
                (metadata_cache s)) as [Hp _].
  pose proof (fetch_batches_all_fail (batches (length video_ids) video_ids) []
                (metadata_cache s)) as Hfail.
  pose proof (fetch_batches_Raise (batches (length video_ids) video_ids) []
                (metadata_cache s)) as Hraise.
  destruct (fetch_batches _ _ _ _) as [r cache].
  exists r, (set_metadata_cache cache s). simpl in *.
  split; [done|]. split; [done|]. do 3 (split; [done|]). split.
  - intros e ->. by eapply Hraise.
  - intros Hall. specialize (Hfail Hall). by injection Hfail as -> ->.
Qed.

(** X26.  [process_history] writes the two files only in a run that found
    new videos and returns normally, and then both: the CSV with the
    values of the cache and the pickle with the cache.  In every other run,
    one that raises or one without new videos, the files are as before. *)
Theorem process_history_files (s s' : state) (r : result unit) :
  process_history videos_list s = (r, s') →
  input_csv s' = input_csv s
  ∧ ((output_csv s' = output_csv s ∧ cache_file s' = cache_file s)
     ∨ (r = Ok tt
        ∧ (∃ history, input_csv s = Some history ∧ new_videos s history ≠ ∅)
        ∧ output_csv s' = Some (PyDict.values (metadata_cache s'))
        ∧ cache_file s' = Some (metadata_cache s'))).
Proof.
  unfold process_history, bind at 1.
  destruct (input_csv s) as [history|] eqn:Hin;
    [|intros [= <- <-]; split; [done|by left]].
  unfold bind at 1, gets.
  case_bool_decide as Hnew; [intros [= <- <-]; split; [done|by left]|].
  unfold bind at 1.
  pose proof (_get_video_metadata_files videos_list
                (elements (new_videos s history)) s) as (Hc & Hi & Ho).
  destruct (_get_video_metadata videos_list
              (elements (new_videos s history)) s) as [[results|e] s1] eqn:Hget;
    simpl in Hc, Hi, Ho.
  2:{ intros [= <- <-]. split; [congruence|]. left. by split. }
  unfold bind at 1, gets.
  destruct (PyDict.values (metadata_cache s1)) as [|m ms] eqn:Hvals.
  - intros [= <- <-]. split; [congruence|]. left. by split.
  - unfold bind, modify. intros [= <- <-]. simpl. split; [congruence|].
    right. split; [done|]. split; [by exists history|]. by rewrite Hvals.
Qed.

Lemma process_history_Ok_inv (s s' : state) (history : list string) :
  input_csv s = Some history →
  new_videos s history ≠ ∅ →
  process_history videos_list s = (Ok tt, s') →
  metadata_cache s'
  = metadata_cache
      (_get_video_metadata videos_list (elements (new_videos s history)) s).2
  ∧ output_csv s' = Some (PyDict.values (metadata_cache s')).
Proof.
  intros Hin Hnew. unfold process_history, bind at 1. rewrite Hin.
  unfold bind at 1, gets. rewrite bool_decide_false by done.
  unfold bind at 1.
  destruct (_get_video_metadata videos_list
              (elements (new_videos s history)) s) as [[res|e] s1] eqn:Hget;
    [|intros [=]].
  unfold bind at 1.
  destruct (PyDict.values (metadata_cache s1)) as [|m ms] eqn:Hvals;
    [intros [=]|].
  unfold bind, modify. intros [= <-]. simpl. by rewrite Hvals.
Qed.

(** X27.  After a run that rewrote the metadata CSV the file has at most
    one row for a video: the [videoId]s of its rows are pairwise
    distinct. *)
Theorem process_history_one_row_per_video (s s' : state)
    (history : list string) :
  cache_wf (metadata_cache s) →
  NoDup (PyDict.keys (metadata_cache s)) →
  input_csv s = Some history →
  new_videos s history ≠ ∅ →
  process_history videos_list s = (Ok tt, s') →
  ∃ rows, output_csv s' = Some rows ∧ NoDup (videoId <$> rows).
Proof.
  intros Hwf Hnd Hin Hnew Hrun.
  destruct (process_history_Ok_inv s s' history Hin Hnew Hrun)
    as (Hcache & Hout).
  exists (PyDict.values (metadata_cache s')). split; [done|].
  assert (cache_wf (metadata_cache s')) as Hwf'.
  { rewrite Hcache. by apply _get_video_metadata_wf. }
  assert (NoDup (PyDict.keys (metadata_cache s'))) as Hnd'.
  { rewrite Hcache. unfold _get_video_metadata.
    pose proof (fetch_batches_keys
                  (batches (length (elements (new_videos s history)))
                     (elements (new_videos s history))) []
                  (metadata_cache s)) as [_ Hn].
    destruct (fetch_batches _ _ _ _) as [results cache]. simpl in *. auto. }
  pose proof (keyed_values_NoDup _ _ Hwf' Hnd') as Hv.
  apply (NoDup_fmap_1 Some). rewrite <- list_fmap_compose. exact Hv.
Qed.
End MetadataMore.

Section TaggerWitnesses.
Import Tagger Examples.

Lemma extract_article_text_first_success_witness :
  (2 < 3)%nat
  ∧ (∀ j, (j < 2)%nat → is_ok (download_third j) = false)
  ∧ download_third 2 = Ok "Hello World"
  ∧ extract_article_text download_third 3 = Some (PyStr.lower "Hello World")
  ∧ PyStr.lower (PyStr.lower "Hello World") = PyStr.lower "Hello World".
Proof.
  assert (2 < 3)%nat as Hk by lia.
  assert (∀ j, (j < 2)%nat → is_ok (download_third j) = false) as Hfail.
  { intros [|[|j]] Hj; [reflexivity|reflexivity|lia]. }
  split; [exact Hk|]. split; [exact Hfail|]. split; [reflexivity|].
  exact (extract_article_text_first_success download_third 3 2 "Hello World"
           Hk Hfail eq_refl).
Defined.

Lemma extract_article_text_gives_up_witness :
  (∀ j, (j < 3)%nat → is_ok (download_never j) = false)
  ∧ extract_article_text download_never 3
    = (if Nat.eqb 3 0 then None else Some "")
  ∧ find_matching_tags ascii_word "" {["cat"]} = ∅.
Proof.
  assert (∀ j, (j < 3)%nat → is_ok (download_never j) = false) as Hfail
    by (intros j _; reflexivity).
  split; [exact Hfail|].
  exact (extract_article_text_gives_up download_never ascii_word 3 {["cat"]}
           Hfail).
Defined.
End TaggerWitnesses.

Section MetadataWitnesses.
Import YtMetadata Examples.

Lemma stale_output_new_videos :
  new_videos stale_output ["new1"; "old1"] ≠ ∅.
Proof.
  intros He.
  assert (bool_decide ("new1" ∈ new_videos stale_output ["new1"; "old1"])
          = true) as Hin by (vm_compute; reflexivity).
  apply bool_decide_eq_true in Hin.
  rewrite He in Hin. by apply not_elem_of_empty in Hin.
Qed.

Lemma _get_video_metadata_keeps_cache_witness :
  Forall (λ batch, videos_list_down batch = Raise HttpError)
    (batches (length ["new1"]) ["new1"])
  ∧ (∃ r s',
       _get_video_metadata videos_list_down ["new1"] stale_output = (r, s')
       ∧ r = Ok [] ∧ metadata_cache s' = metadata_cache stale_output)
  ∧ (_get_video_metadata videos_list_unreachable ["new1"] stale_output).1
    = Raise TimeoutError.
Proof.
  assert (Forall (λ batch, videos_list_down batch = Raise HttpError)
            (batches (length ["new1"]) ["new1"])) as Hdown
    by (repeat constructor).
  split; [exact Hdown|]. split; [|reflexivity].
  destruct (_get_video_metadata_keeps_cache videos_list_down ["new1"]
              stale_output) as (r & s' & Hget & _ & _ & _ & _ & _ & Hall).
  exists r, s'. split; [exact Hget|]. exact (Hall Hdown).
Defined.

Lemma process_history_files_witness :
  process_history videos_list stale_output
  = (Ok tt, (process_history videos_list stale_output).2)
  ∧ input_csv (process_history videos_list stale_output).2
    = input_csv stale_output
  ∧ ((output_csv (process_history videos_list stale_output).2
      = output_csv stale_output
      ∧ cache_file (process_history videos_list stale_output).2
        = cache_file stale_output)
     ∨ (Ok tt = Ok tt
        ∧ (∃ history, input_csv stale_output = Some history
                      ∧ new_videos stale_output history ≠ ∅)
        ∧ output_csv (process_history videos_list stale_output).2
          = Some (PyDict.values
                    (metadata_cache
                       (process_history videos_list stale_output).2))
        ∧ cache_file (process_history videos_list stale_output).2
          = Some (metadata_cache
                    (process_history videos_list stale_output).2))).
Proof.
  assert (process_history videos_list stale_output
          = (Ok tt, (process_history videos_list stale_output).2)) as Hrun
    by (vm_compute; reflexivity).
  split; [exact Hrun|].
  exact (process_history_files videos_list stale_output _ _ Hrun).
Defined.

Lemma process_history_one_row_per_video_witness :
  cache_wf (metadata_cache stale_output)
  ∧ NoDup (PyDict.keys (metadata_cache stale_output))
  ∧ input_csv stale_output = Some ["new1"; "old1"]
  ∧ new_videos stale_output ["new1"; "old1"] ≠ ∅
  ∧ process_history videos_list stale_output
    = (Ok tt, (process_history videos_list stale_output).2)
  ∧ ∃ rows,
      output_csv (process_history videos_list stale_output).2 = Some rows
      ∧ NoDup (videoId <$> rows).
Proof.
  assert (cache_wf (metadata_cache stale_output)) as Hwf
    by (repeat constructor).
  assert (NoDup (PyDict.keys (metadata_cache stale_output))) as Hnd.
  { apply (bool_decide_unpack _). by vm_compute. }
  assert (process_history videos_list stale_output
          = (Ok tt, (process_history videos_list stale_output).2)) as Hrun
    by (vm_compute; reflexivity).
  split; [exact Hwf|]. split; [exact Hnd|]. split; [reflexivity|].
  split; [exact stale_output_new_videos|]. split; [exact Hrun|].
  exact (process_history_one_row_per_video videos_list stale_output _
           ["new1"; "old1"] Hwf Hnd eq_refl stale_output_new_videos Hrun).
Defined.
End MetadataWitnesses.


(** * The CSV file read back *)
Section CsvRoundTrip.
Import Csv.

Lemma process_chars_app p a b :
  process_chars p (a ++ b)
  = match process_chars p a with
    | Ok p' => process_chars p' b
    | Raise e => Raise e
    end.
Proof.
  revert p. induction a as [|c a IH]; intros p; simpl; [done|].
  destruct (process_char p c); [apply IH|done].
Qed.

Lemma process_line_app p a b :
  process_line p (a ++ b)
  = match process_chars p a with
    | Ok p' => process_line p' b
    | Raise e => Raise e
    end.
Proof.
  revert p. induction a as [|c a IH]; intros p; simpl; [done|].
  destruct (process_char p c); [apply IH|done].
Qed.

Lemma read_records_nil p : read_records p [] = Ok (read_end p).
Proof. unfold read_end. simpl. by destruct (_ || _). Qed.

Lemma read_records_cons p line lines :
  read_records p (line :: lines)
  = match process_line p line with
    | Raise e => Raise e
    | Ok p' =>
        if bool_decide (state p' = START_RECORD)
        then match read_records parse_reset lines with
             | Raise e => Raise e
             | Ok recs => Ok (rev (done_fields p') :: recs)
             end
        else read_records p' lines
    end.
Proof. done. Qed.

Lemma read_end_reset : read_end parse_reset = [].
Proof. done. Qed.

(** Reading line by line is reading the characters in one pass. *)
Lemma read_records_stream l cur p :
  read_records p (lines_aux cur l)
  = match process_chars p (rev cur) with
    | Ok q => read_stream q (negb (bool_decide (cur = []))) l
    | Raise e => Raise e
    end.
Proof.
  revert cur p. induction l as [|c l IH]; intros cur p.
  - cbn [lines_aux]. destruct cur as [|a cur].
    + cbn [rev process_chars]. rewrite read_records_nil.
      by rewrite bool_decide_true.
    + rewrite read_records_cons, !read_records_nil, read_end_reset.
      rewrite <- (app_nil_r (rev (a :: cur))) at 1.
      rewrite process_line_app.
      destruct (process_chars p (rev (a :: cur))) as [q|e]; [|done].
      cbn [process_line]. rewrite (bool_decide_false (a :: cur = [])) by done.
      cbn [negb read_stream]. by rewrite read_records_nil.
  - cbn [lines_aux]. destruct (Ascii.eqb c LF) eqn:Hc.
    + rewrite read_records_cons. cbn [rev]. rewrite process_line_app.
      apply Ascii.eqb_eq in Hc. subst c.
      destruct (process_chars p (rev cur)) as [q|e]; [|done].
      cbn [process_line read_stream app].
      destruct (process_char q LF) as [q1|e]; [|done].
      cbn [process_line]. rewrite Ascii.eqb_refl.
      case_bool_decide.
      * rewrite (IH [] parse_reset). cbn [rev process_chars].
        by rewrite bool_decide_true.
      * rewrite (IH [] (process_eol q1)). cbn [rev process_chars].
        by rewrite bool_decide_true.
    + rewrite (IH (c :: cur) p). cbn [rev]. rewrite process_chars_app.
      destruct (process_chars p (rev cur)) as [q|e]; [|done].
      cbn [process_chars read_stream].
      destruct (process_char q c) as [q1|e]; [|done].
      rewrite Hc. by rewrite bool_decide_false.
Qed.

Lemma universal_newlines_free x l :
  CR ∉ x →
  universal_newlines false (x ++ l) = x ++ universal_newlines false l.
Proof.
  induction x as [|c x IH]; intros Hfree; [done|].
  cbn [app universal_newlines].
  destruct (Ascii.eqb c CR) eqn:Hcr.
  - apply Ascii.eqb_eq in Hcr. subst. destruct Hfree. by left.
  - assert (CR ∉ x) as Hx by (intros ?; apply Hfree; by right).
    destruct (Ascii.eqb c LF) eqn:Hlf; [|by rewrite IH].
    apply Ascii.eqb_eq in Hlf. subst c. by rewrite IH.
Qed.

Lemma universal_newlines_crlf l :
  universal_newlines false (CR :: LF :: l) = LF :: universal_newlines false l.
Proof. done. Qed.

(** What the writer emits for a field holds a carriage return only if the
    field does. *)
Lemma join_append_data_free cs : CR ∉ cs → CR ∉ join_append_data cs.
Proof.
  induction cs as [|c cs IH]; intros Hfree; [done|].
  assert (CR ∉ cs) as Hcs by (intros ?; apply Hfree; by right).
  assert (c ≠ CR) as Hc by (intros ->; apply Hfree; by left).
  cbn [join_append_data].
  destruct (Ascii.eqb c dquote) eqn:Hq.
  - apply Ascii.eqb_eq in Hq. subst c.
    intros [?|[?|?]%elem_of_cons]%elem_of_cons; [done|done|by apply IH].
  - destruct (Ascii.eqb c backslash) eqn:Hb.
    + apply Ascii.eqb_eq in Hb. subst c.
      intros [?|[?|?]%elem_of_cons]%elem_of_cons; [done|done|by apply IH].
    + intros [?|?]%elem_of_cons; [done|by apply IH].
Qed.

Lemma CR_not_dquote : CR ≠ dquote.
Proof. intros H. vm_compute in H. discriminate. Qed.

Lemma CR_not_comma : CR ≠ comma.
Proof. intros H. vm_compute in H. discriminate. Qed.

Lemma quoted_free s : CR ∉ PyStr.chars s → CR ∉ quoted s.
Proof.
  intros Hs. unfold quoted.
  rewrite elem_of_cons, elem_of_app, list_elem_of_singleton.
  intros [H|[H|H]].
  - by apply CR_not_dquote.
  - by apply (join_append_data_free _ Hs).
  - by apply CR_not_dquote.
Qed.

Lemma join_fields_free r :
  Forall plain r → CR ∉ join_fields r.
Proof.
  induction 1 as [|s r [Hs _] Hr IH]; [by intros ?%elem_of_nil|].
  destruct r as [|s2 r]; [by apply quoted_free|].
  change (join_fields (s :: s2 :: r))
    with (quoted s ++ comma :: join_fields (s2 :: r)).
  rewrite elem_of_app, elem_of_cons. intros [H|[H|H]].
  - by apply (quoted_free s).
  - by apply CR_not_comma.
  - by apply IH.
Qed.

Lemma universal_newlines_rows recs :
  Forall (Forall plain) recs →
  universal_newlines false (concat (writerow <$> recs))
  = concat ((λ r, join_fields r ++ [LF]) <$> recs).
Proof.
  induction 1 as [|r recs Hr Hrecs IH]; [done|].
  cbn [fmap list_fmap concat]. unfold writerow at 1.
  rewrite <- !app_assoc.
  rewrite universal_newlines_free by (by apply join_fields_free).
  cbn [app]. rewrite universal_newlines_crlf. by rewrite IH.
Qed.

(** The content of a quoted field, read by the parser. *)
Lemma read_stream_content cs fb df b l :
  backslash ∉ cs →
  ∃ b', read_stream (mk_parser IN_QUOTED_FIELD fb df) b
          (join_append_data cs ++ l)
        = read_stream (mk_parser IN_QUOTED_FIELD (rev cs ++ fb) df) b' l.
Proof.
  revert fb b. induction cs as [|c cs IH]; intros fb b Hfree;
    [by exists b|].
  assert (backslash ∉ cs) as Hcs by (intros ?; apply Hfree; by right).
  assert (Ascii.eqb c backslash = false) as Hc.
  { apply Ascii.eqb_neq. intros ->. apply Hfree. by left. }
  cbn [join_append_data]. destruct (Ascii.eqb c dquote) eqn:Hq.
  - apply Ascii.eqb_eq in Hq. subst c.
    destruct (IH (dquote :: fb) true Hcs) as [b' Hb'].
    exists b'. cbn [app read_stream process_char state].
    change (Ascii.eqb dquote dquote) with true. cbv iota.
    change (Ascii.eqb dquote LF) with false. cbv iota.
    cbn [read_stream process_char state set_state].
    change (Ascii.eqb dquote dquote) with true. cbv iota.
    change (Ascii.eqb dquote LF) with false. cbv iota.
    unfold parse_add_char, set_state, parse_save_field; cbn [field done_fields state]. rewrite Hb'.
    cbn [rev]. by rewrite <- app_assoc.
  - rewrite Hc. cbn [app read_stream process_char state]. rewrite Hq.
    unfold parse_add_char, set_state, parse_save_field; cbn [field done_fields state].
    destruct (Ascii.eqb c LF).
    + cbn [process_eol state]. rewrite bool_decide_false by done.
      destruct (IH (c :: fb) false Hcs) as [b' Hb']. exists b'.
      rewrite Hb'. cbn [rev]. by rewrite <- app_assoc.
    + destruct (IH (c :: fb) true Hcs) as [b' Hb']. exists b'.
      rewrite Hb'. cbn [rev]. by rewrite <- app_assoc.
Qed.

(** A quoted field, up to and including its closing quote. *)
Lemma read_stream_quoted st s df b l :
  st = START_RECORD ∨ st = START_FIELD →
  backslash ∉ PyStr.chars s →
  read_stream (mk_parser st [] df) b (quoted s ++ l)
  = read_stream (mk_parser QUOTE_IN_QUOTED_FIELD (rev (PyStr.chars s)) df)
      true l.
Proof.
  intros Hst Hfree. unfold quoted. cbn [app].
  rewrite <- app_assoc. cbn [app read_stream].
  assert (process_char (mk_parser st [] df) dquote
          = Ok (mk_parser IN_QUOTED_FIELD [] df)) as ->.
  { by destruct Hst as [-> | ->]. }
  change (Ascii.eqb dquote LF) with false. cbv iota.
  destruct (read_stream_content (PyStr.chars s) [] df true (dquote :: l) Hfree)
    as [b' ->].
  cbn [read_stream process_char state].
  change (Ascii.eqb dquote dquote) with true. cbv iota.
  change (Ascii.eqb dquote LF) with false. cbv iota.
  by rewrite app_nil_r.
Qed.

(** A record and its line end. *)
Lemma read_stream_record r st df b l :
  st = START_RECORD ∨ st = START_FIELD →
  r ≠ [] → Forall plain r →
  read_stream (mk_parser st [] df) b (join_fields r ++ LF :: l)
  = match read_stream parse_reset false l with
    | Raise e => Raise e
    | Ok recs => Ok ((rev df ++ r) :: recs)
    end.
Proof.
  intros Hst Hne Hr. revert st df b Hst.
  induction Hr as [|s r [_ Hs] Hr IH]; [done|]. intros st df b Hst.
  destruct r as [|s2 r].
  - change (join_fields [s]) with (quoted s).
    rewrite read_stream_quoted by done.
    cbn [read_stream process_char state].
    change (Ascii.eqb LF dquote) with false.
    change (Ascii.eqb LF comma) with false.
    change (is_newline LF) with true. cbv iota.
    change (Ascii.eqb LF LF) with true. cbv iota.
    unfold process_eol, parse_add_char, set_state, parse_save_field; cbn [field done_fields state].
    rewrite bool_decide_true by done.
    rewrite rev_involutive, of_chars_chars. done.
  - change (join_fields (s :: s2 :: r))
      with (quoted s ++ comma :: join_fields (s2 :: r)).
    rewrite <- app_assoc.
    rewrite read_stream_quoted by done.
    cbn [app read_stream process_char state].
    change (Ascii.eqb comma dquote) with false.
    change (Ascii.eqb comma comma) with true. cbv iota.
    change (Ascii.eqb comma LF) with false. cbv iota.
    unfold parse_add_char, set_state, parse_save_field; cbn [field done_fields state].
    rewrite rev_involutive, of_chars_chars.
    rewrite (IH ltac:(done) START_FIELD (s :: df) true) by (by right).
    cbn [rev]. by rewrite <- app_assoc.
Qed.

(** The reader gives back the records the writer wrote, when no
    field holds a carriage return or a backslash: every other character,
    quotes, commas and line feeds included, survives the round trip. *)
Lemma reader_writerows (recs : list (list string)) :
  Forall (λ r, r ≠ [] ∧ Forall plain r) recs →
  reader (PyStr.of_chars (concat (writerow <$> recs))) = Ok recs.
Proof.
  intros Hrecs. unfold reader, readlines. rewrite chars_of_chars.
  rewrite universal_newlines_rows
    by (eapply Forall_impl; [exact Hrecs|]; by intros r [_ ?]).
  rewrite read_records_stream. cbn [rev process_chars].
  rewrite bool_decide_true by done. cbn [negb].
  induction Hrecs as [|r recs [Hne Hr] Hrecs IH]; [done|].
  cbn [fmap list_fmap concat]. rewrite <- app_assoc. cbn [app].
  unfold parse_reset at 1.
  rewrite read_stream_record by (done || by left).
  by rewrite IH.
Qed.
End CsvRoundTrip.


Section ExportReadBack.
Import Pocket PocketExporter.

Lemma set_fresh {K V} `{EqDecision K} (k : K) (v : V) (d : list (K * V)) :
  k ∉ PyDict.keys d → PyDict.set k v d = d ++ [(k, v)].
Proof.
  induction d as [|[k' v'] d IH]; intros Hk; [done|].
  cbn [PyDict.set]. rewrite decide_False.
  - rewrite IH; [done|]. intros Hin. apply Hk. by right.
  - intros ->. apply Hk. by left.
Qed.

Lemma set_same {K V} `{EqDecision K} (k : K) (v : V) (d : list (K * V)) :
  PyDict.get k d = Some v → PyDict.set k v d = d.
Proof.
  induction d as [|[k' v'] d IH]; [done|].
  cbn [PyDict.get PyDict.set]. destruct (decide (k' = k)) as [->|Hne].
  - by intros [= ->].
  - intros Hg. by rewrite IH.
Qed.

Lemma fold_set_fresh {K V} `{EqDecision K} (l d : list (K * V)) :
  NoDup (PyDict.keys (d ++ l)) →
  fold_left (λ d kv, PyDict.set kv.1 kv.2 d) l d = d ++ l.
Proof.
  revert d. induction l as [|[k v] l IH]; intros d Hnd.
  - by rewrite app_nil_r.
  - cbn [fold_left fst snd]. rewrite set_fresh.
    + rewrite IH; rewrite <- app_assoc; done.
    + unfold PyDict.keys in *. rewrite fmap_app in Hnd.
      apply NoDup_app in Hnd as (_ & Hd & _). intros Hin.
      apply (Hd k Hin). by left.
Qed.

Lemma get_keys_values {K V} `{EqDecision K} (d : list (K * V)) :
  NoDup (PyDict.keys d) →
  (λ k, PyDict.get k d) <$> PyDict.keys d = Some <$> PyDict.values d.
Proof.
  intros Hnd.
  assert (∀ d0, (∀ kv, kv ∈ d0 → kv ∈ d) →
            (λ k, PyDict.get k d) <$> PyDict.keys d0
            = Some <$> PyDict.values d0) as Hgen.
  { induction d0 as [|[k v] d0 IH]; intros Hsub; [done|].
    change (PyDict.keys ((k, v) :: d0)) with (k :: PyDict.keys d0).
    change (PyDict.values ((k, v) :: d0)) with (v :: PyDict.values d0).
    rewrite !fmap_cons. f_equal.
    - apply elem_of_get_Some; [done|]. apply Hsub. by left.
    - apply IH. intros kv Hkv. apply Hsub. by right. }
  by apply Hgen.
Qed.

(** The strings the writer is given for a plain row. *)
Lemma dict_to_list_plain_row fieldnames r :
  NoDup fieldnames → plain_row fieldnames r →
  ∃ vals, Csv.dict_to_list fieldnames r = Ok vals
          ∧ Forall plain vals
          ∧ length vals = length fieldnames
          ∧ Csv.fields r = combine fieldnames (Some <$> vals).
Proof.
  intros Hnd (Hkeys & Hrest & Hvals).
  assert (∃ vals, PyDict.values (Csv.fields r) = Some <$> vals
                  ∧ Forall plain vals) as (vals & Hv & Hplain).
  { clear Hkeys. induction Hvals as [|[k v] d (s & Hs & Hp) _ (vals & Hv & Hpl)].
    - by exists [].
    - simpl in Hs. subst v. exists (s :: vals). split; [|by constructor].
      change (PyDict.values ((k, Some s) :: d)) with (Some s :: PyDict.values d).
      by rewrite Hv. }
  assert (length vals = length fieldnames) as Hlen.
  { rewrite <- Hkeys. unfold PyDict.keys.
    rewrite <- (length_fmap Some vals), <- Hv. unfold PyDict.values.
    by rewrite !length_map. }
  exists vals. unfold Csv.dict_to_list. rewrite Hrest.
  rewrite bool_decide_true by done. rewrite Hkeys.
  assert (forallb (λ k, bool_decide (k ∈ fieldnames)) fieldnames = true) as ->.
  { apply forallb_forall. intros k Hk%list_elem_of_In.
    by apply bool_decide_eq_true. }
  cbn [andb]. split; [|split; [done|split; [done|]]].
  - f_equal.
    pose proof (get_keys_values (Csv.fields r)) as Hg.
    rewrite Hkeys in Hg. specialize (Hg Hnd). rewrite Hv in Hg.
    rewrite <- list_fmap_compose in Hg.
    apply (f_equal (fmap (λ o : option (option string),
                            match o with Some (Some s) => s | _ => "" end)))
      in Hg.
    rewrite <- !list_fmap_compose in Hg.
    etrans; [exact Hg|]. clear. induction vals as [|v vals IH]; [done|].
    cbn. by rewrite IH.
  - rewrite <- Hv, <- Hkeys. clear. generalize (Csv.fields r).
    intros l. induction l as [|[k v] l IH]; [done|].
    change (PyDict.keys ((k, v) :: l)) with (k :: PyDict.keys l).
    change (PyDict.values ((k, v) :: l)) with (v :: PyDict.values l).
    cbn [combine]. by rewrite <- IH.
Qed.

Lemma keys_combine {K V} (ks : list K) (vs : list V) :
  length vs = length ks → PyDict.keys (combine ks vs) = ks.
Proof.
  revert vs. induction ks as [|k ks IH]; intros [|v vs] Hl; try done.
  cbn [combine]. change (PyDict.keys ((k, v) :: combine ks vs))
    with (k :: PyDict.keys (combine ks vs)).
  rewrite IH; [done|]. simpl in Hl. lia.
Qed.

Lemma make_row_plain fieldnames vals :
  NoDup fieldnames → length vals = length fieldnames →
  Csv.make_row fieldnames vals
  = Csv.mk_row (combine fieldnames (Some <$> vals)) None.
Proof.
  intros Hnd Hlen. unfold Csv.make_row.
  rewrite Hlen, skipn_all, Nat.ltb_irrefl. cbn [fold_left]. f_equal.
  unfold PyDict.of_pairs.
  change (map Some vals) with (Some <$> vals).
  rewrite (fold_set_fresh _ []); [done|]. cbn [app].
  rewrite keys_combine; [done|]. rewrite length_fmap. lia.
Qed.

Lemma writerows_plain_rows fieldnames rows :
  NoDup fieldnames → Forall (plain_row fieldnames) rows →
  ∃ valss,
    Csv.writerows fieldnames rows = Ok (concat (Csv.writerow <$> valss))
    ∧ Forall (λ vals, length vals = length fieldnames ∧ Forall plain vals)
        valss
    ∧ Csv.make_row fieldnames <$> valss = rows.
Proof.
  intros Hnd. induction 1 as [|r rows Hr Hrows (valss & Hw & Hv & Hm)].
  - by exists [].
  - destruct (dict_to_list_plain_row fieldnames r Hnd Hr)
      as (vals & Hd & Hp & Hl & Hf).
    exists (vals :: valss). cbn [Csv.writerows]. rewrite Hd, Hw.
    split; [done|]. split; [by constructor|].
    rewrite fmap_cons, Hm. f_equal. rewrite make_row_plain by done.
    destruct Hr as (_ & Hrest & _). destruct r as [f rst]. simpl in *.
    by subst.
Qed.

(** A file written under a header of distinct plain names, with
    rows that have exactly these columns and plain values, reads back as
    the same rows. *)
Lemma DictReader_write_file (fieldnames : list string) (rows : list Csv.row) :
  fieldnames ≠ [] → NoDup fieldnames → Forall plain fieldnames →
  Forall (plain_row fieldnames) rows →
  ∃ text, Csv.write_file fieldnames rows = Ok text
          ∧ Csv.DictReader text = Ok rows.
Proof.
  intros Hne Hnd Hpl Hrows.
  destruct (writerows_plain_rows fieldnames rows Hnd Hrows)
    as (valss & Hw & Hv & Hm).
  unfold Csv.write_file. rewrite Hw. eexists. split; [done|].
  unfold Csv.DictReader.
  change (Csv.writerow fieldnames ++ concat (Csv.writerow <$> valss))
    with (concat (Csv.writerow <$> (fieldnames :: valss))).
  rewrite reader_writerows.
  - f_equal. rewrite <- Hm.
    assert (filter (λ r : list string, negb (bool_decide (r = []))) valss
            = valss) as ->; [|reflexivity].
    clear Hw Hm.
    induction Hv as [|vals valss [Hl _] Hv IH]; [done|].
    rewrite filter_cons_True, IH; [done|].
    rewrite bool_decide_false; [done|].
    intros ->. destruct fieldnames; [done|]. simpl in Hl. done.
  - constructor; [done|]. eapply Forall_impl; [exact Hv|].
    intros vals [Hl Hp]. split; [|done].
    intros ->. destruct fieldnames; [done|]. simpl in Hl. done.
Qed.

Lemma headers_ok :
  headers ≠ [] ∧ NoDup headers ∧ Forall plain headers.
Proof.
  split; [done|]. split.
  - apply (bool_decide_unpack _). by vm_compute.
  - unfold plain. repeat constructor;
      apply (bool_decide_unpack _); by vm_compute.
Qed.

Lemma index_rows_values (d0 d : list (option string * Csv.row)) :
  row_dict (d0 ++ d) → index_rows (PyDict.values d) d0 = Ok (d0 ++ d).
Proof.
  revert d0. induction d as [|[k r] d IH]; intros d0 [Hk Hnd].
  - by rewrite app_nil_r.
  - change (PyDict.values ((k, r) :: d)) with (r :: PyDict.values d).
    cbn [index_rows].
    assert (key_of r = Some k) as Hkey.
    { unfold keyed in Hk. rewrite Forall_forall in Hk.
      apply (Hk (k, r)). apply elem_of_app. right. by left. }
    apply getitem_key in Hkey. rewrite Hkey.
    rewrite set_fresh.
    + rewrite IH; rewrite <- app_assoc; [done|]. by split.
    + unfold PyDict.keys in *. rewrite fmap_app in Hnd.
      apply NoDup_app in Hnd as (_ & Hd & _). intros Hin.
      apply (Hd k Hin). by left.
Qed.

Lemma get_existing_items_written (w : world) (text : string)
    (d : list (option string * Csv.row)) :
  row_dict d →
  Forall (plain_row headers) (PyDict.values d) →
  Csv.write_file headers (PyDict.values d) = Ok text →
  get_existing_items (set_csv_file text w) = (Ok d, set_csv_file text w).
Proof.
  intros Hrd Hplain Hw.
  destruct headers_ok as (Hne & Hnd & Hpl).
  destruct (DictReader_write_file headers (PyDict.values d) Hne Hnd Hpl Hplain)
    as (text' & Hw' & Hread).
  rewrite Hw in Hw'. injection Hw' as <-.
  unfold get_existing_items. cbn [csv_file set_csv_file]. rewrite Hread.
  by rewrite (index_rows_values [] d).
Qed.

(** X28.  After an export whose merged rows all have the columns of the
    header with plain values, [get_existing_items] returns the dictionary
    that the export has written: nothing is lost or altered on the way
    through the file. *)
Theorem get_existing_items_after_export (items : list Csv.row)
    (w w' : world) (d : list (option string * Csv.row)) :
  export_to_csv items w = (Ok tt, w') →
  merged_items items w = (Ok d, w) →
  Forall (plain_row headers) (PyDict.values d) →
  get_existing_items w' = (Ok d, w').
Proof.
  intros Hexp Hm Hplain.
  destruct (export_to_csv_inv _ _ _ Hexp) as (d' & text & Hm' & Hw & ->).
  rewrite Hm in Hm'. injection Hm' as <-.
  destruct (merged_items_inv _ _ _ _ Hm) as (_ & _ & _ & _ & Hrd).
  by apply get_existing_items_written.
Qed.


Lemma merge_items_same items d :
  Forall (λ r, ∃ k, key_of r = Some k ∧ PyDict.get k d = Some r) items →
  merge_items d items = Ok d.
Proof.
  induction 1 as [|r items (k & Hk & Hg) _ IH]; [done|].
  cbn [merge_items]. apply getitem_key in Hk. rewrite Hk.
  by rewrite set_same.
Qed.

(** X29.  Exporting a batch a second time changes nothing: when records
    of the batch that share a key are equal and the merged rows have the
    columns of the header with plain values, the second export writes the
    file that is already there. *)
Theorem export_to_csv_idempotent (items : list Csv.row) (w w' : world)
    (d : list (option string * Csv.row)) :
  (∀ r1 r2, r1 ∈ items → r2 ∈ items → key_of r1 = key_of r2 → r1 = r2) →
  export_to_csv items w = (Ok tt, w') →
  merged_items items w = (Ok d, w) →
  Forall (plain_row headers) (PyDict.values d) →
  export_to_csv items w' = (Ok tt, w').
Proof.
  intros Hsame Hexp Hm Hplain.
  destruct (export_to_csv_inv _ _ _ Hexp) as (d' & text & Hm' & Hw & ->).
  rewrite Hm in Hm'. injection Hm' as <-.
  destruct (merged_items_inv _ _ _ _ Hm) as (ex & _ & Hmerge & _ & Hrd).
  pose proof (get_existing_items_written w text d Hrd Hplain Hw) as Hread.
  assert (merge_items d items = Ok d) as Hagain.
  { apply merge_items_same. apply Forall_forall. intros r Hr.
    pose proof (merge_items_is_ok ex items) as Hok. rewrite Hmerge in Hok.
    symmetry in Hok. simpl in Hok. rewrite forallb_forall in Hok.
    pose proof Hr as Hr'. apply list_elem_of_In in Hr'.
    apply Hok, bool_decide_eq_true in Hr'. destruct Hr' as [k Hk].
    exists k. split; [done|].
    rewrite (merge_items_get _ _ _ k Hmerge).
    destruct (last_with_key k items) as [r'|] eqn:Hlast.
    - apply find_last_with_key_Some in Hlast as [Hin' Hk'].
      f_equal. apply Hsame; congruence.
    - by destruct (find_last_with_key_None _ _ _ Hlast Hr). }
  unfold export_to_csv, merged_items, bind, lift, modify.
  rewrite Hread, Hagain, Hw. done.
Qed.
End ExportReadBack.

Section ReadBackWitnesses.
Import Pocket PocketExporter Examples.

Lemma store_old_plain :
  Forall (plain_row headers)
    (PyDict.values [(Some "7", format_item item_old)]).
Proof.
  unfold plain_row, plain.
  repeat econstructor; apply (bool_decide_unpack _); by vm_compute.
Qed.

Lemma get_existing_items_after_export_witness :
  export_to_csv [format_item item_old] no_files = (Ok tt, store_old)
  ∧ merged_items [format_item item_old] no_files
    = (Ok [(Some "7", format_item item_old)], no_files)
  ∧ Forall (plain_row headers)
      (PyDict.values [(Some "7", format_item item_old)])
  ∧ get_existing_items store_old
    = (Ok [(Some "7", format_item item_old)], store_old).
Proof.
  assert (export_to_csv [format_item item_old] no_files = (Ok tt, store_old))
    as Hexp by (vm_compute; reflexivity).
  assert (merged_items [format_item item_old] no_files
          = (Ok [(Some "7", format_item item_old)], no_files)) as Hm
    by (vm_compute; reflexivity).
  split; [exact Hexp|]. split; [exact Hm|]. split; [exact store_old_plain|].
  exact (get_existing_items_after_export _ _ _ _ Hexp Hm store_old_plain).
Defined.



Lemma export_to_csv_idempotent_witness :
  (∀ r1 r2, r1 ∈ [format_item item_old] → r2 ∈ [format_item item_old] →
            key_of r1 = key_of r2 → r1 = r2)
  ∧ export_to_csv [format_item item_old] no_files = (Ok tt, store_old)
  ∧ merged_items [format_item item_old] no_files
    = (Ok [(Some "7", format_item item_old)], no_files)
  ∧ Forall (plain_row headers)
      (PyDict.values [(Some "7", format_item item_old)])
  ∧ export_to_csv [format_item item_old] store_old = (Ok tt, store_old).
Proof.
  assert (∀ r1 r2, r1 ∈ [format_item item_old] →
                   r2 ∈ [format_item item_old] →
                   key_of r1 = key_of r2 → r1 = r2) as Hsame.
  { intros r1 r2 H1%list_elem_of_singleton H2%list_elem_of_singleton _.
    congruence. }
  assert (export_to_csv [format_item item_old] no_files = (Ok tt, store_old))
    as Hexp by (vm_compute; reflexivity).
  assert (merged_items [format_item item_old] no_files
          = (Ok [(Some "7", format_item item_old)], no_files)) as Hm
    by (vm_compute; reflexivity).
  split; [exact Hsame|]. split; [exact Hexp|]. split; [exact Hm|].
  split; [exact store_old_plain|].
  exact (export_to_csv_idempotent _ _ _ _ Hsame Hexp Hm store_old_plain).
Defined.
End ReadBackWitnesses.
